(** * Hummingbird: batched inference containers, label encoders and the
      k-neighbors converter, as a shallow embedding.

    Sources embedded here:
    - [hummingbird/ml/_container.py]: [SklearnContainer._run],
      [SklearnContainer._run_batch_inference], the anomaly detection
      container and the ONNX containers;
    - [hummingbird/ml/operator_converters/_label_encoder_implementations.py]:
      [StringLabelEncoder] and [NumericLabelEncoder];
    - [hummingbird/ml/operator_converters/sklearn/kneighbors.py]:
      [_convert_kneighbors_model].

    Python integers are [Z]; [//] and [%] are [Z.div] and [Z.modulo] (both
    floor towards minus infinity, the remainder has the sign of the divisor)
    with the division by zero raised explicitly.  Exceptions are values of
    [exn]; a computation that may raise returns a [result]. *)

From Stdlib Require Import ZArith List String Ascii Bool Lia QArith Qcanon.
From Stdlib Require Import Sorted OrderedTypeEx.
From stdpp Require Import gmap strings list pretty.
Import ListNotations.
Local Open Scope Z_scope.

(** ** Exceptions and results *)

(** The two [assert] statements of the ONNX containers: the one on the
    number of declared output names, and the one of [_get_named_inputs]. *)
Inductive assert_site := OutputCount | NamedInputs.

(** Python exceptions.  [ReshapeError] is numpy's [ValueError] of a reshape
    that does not fit; [UnseenLabels] is the [ValueError] of
    [StringLabelEncoder.forward], whose message is formatted from [x] and
    [condition_tensors]. *)
Inductive exn :=
| ZeroDivisionError
| IndexError
| TypeError
| KeyError (key : string)
| AssertionError (site : assert_site)
| ValueError (msg : string)
| ReshapeError (size : nat) (rows : Z)
| UnseenLabels (x : list (list Z)) (condition_tensors : list (list Z))
| RuntimeError (msg : string)
| NotImplementedError (msg : string).

Inductive result (A : Type) :=
| Ok (a : A)
| Raise (e : exn).
Arguments Ok {A} a.
Arguments Raise {A} e.

Definition bind {A B} (r : result A) (k : A -> result B) : result B :=
  match r with
  | Ok a => k a
  | Raise e => Raise e
  end.

Notation "'let*' x ':=' r 'in' k" := (bind r (fun x => k))
  (at level 10, x name, r at level 100, k at level 200).

Definition is_ok {A} (r : result A) : bool :=
  match r with Ok _ => true | Raise _ => false end.

(** [assert b], at one of the sites. *)
Definition py_assert (b : bool) (site : assert_site) : result unit :=
  if b then Ok tt else Raise (AssertionError site).

(** ** Arrays *)

(** A numpy array as the code uses it on the output side: a shape and the
    elements in row-major order ([ravel] order). *)
Record ndarray (A : Type) := NDArray { shape : list nat; data : list A }.
Arguments NDArray {A} shape data.
Arguments shape {A} n.
Arguments data {A} n.

(** [a.ravel()], as a Python sequence of elements. *)
Definition ravel {A} (a : ndarray A) : list A := data a.

(** [np.array(l)] of a flat Python list: a one-dimensional array. *)
Definition np_array {A} (l : list A) : ndarray A := NDArray [length l] l.

(** [a.reshape(rows, -1)] of a one-dimensional array: numpy infers the second
    dimension and refuses when the known dimension is zero or does not
    divide the size. *)
Definition reshape_rows {A} (rows : Z) (a : ndarray A) : result (ndarray A) :=
  let size := Z.of_nat (length (data a)) in
  if (rows <=? 0) || negb (size mod rows =? 0)
  then Raise (ReshapeError (length (data a)) rows)
  else Ok (NDArray [Z.to_nat rows; Z.to_nat (size / rows)] (data a)).

(** An index of a Python slice, clamped as [slice.indices] does. *)
Definition clamp_index (len i : Z) : Z :=
  if i <? 0 then Z.max 0 (i + len) else Z.min i len.

(** [l[start:stop]] on the leading dimension. *)
Definition py_slice {A} (start stop : Z) (l : list A) : list A :=
  let len := Z.of_nat (length l) in
  let s := clamp_index len start in
  let e := clamp_index len stop in
  firstn (Z.to_nat (e - s)) (skipn (Z.to_nat s) l).

(** [range(0, n)]. *)
Definition py_range (n : Z) : list Z := map Z.of_nat (seq 0 (Z.to_nat n)).

(** ** The batch execution engine ([SklearnContainer]) *)

Section Batch.

(** Input arrays are two-dimensional: a list of rows of cells.  The
    scoring functions return arrays of [Out]. *)
Context {Cell Out : Type}.

Definition array2 := list (list Cell).

(** The positional inputs of a prediction call: arrays, or one pandas
    DataFrame given as its columns in order (column labels are distinct,
    so that [inputs[name]] is the Series of that column).  pandas is
    installed, so [DataFrame is not None] and [_run] always evaluates
    [inputs[0]]. *)
Inductive run_inputs :=
| Arrays (arrays : list array2)
| Frame (columns : list (string * list Cell)).

(** The fields of [SklearnContainer] that the engine reads or writes;
    [_model] and [_n_threads] are opaque to it. *)
Record SklearnContainer (V : Type) := Container {
  _batch_size : option Z;
  _extra_config : gmap string V;
  _last_iteration : bool
}.
Arguments Container {V} _ _ _.
Arguments _batch_size {V} s.
Arguments _extra_config {V} s.
Arguments _last_iteration {V} s.

(** A scoring function is a bound method of the container: it sees the
    value of [self._last_iteration] at the time of the call and the
    positional arrays, and returns an array or raises. *)
Definition scoring := bool -> list array2 -> result (ndarray Out).

(** One entry of the call log: the flag during the call and the arrays
    passed. *)
Definition call := (bool * list array2)%type.

(** What a run leaves behind: the container, the calls made to the
    scoring function in order, and the value returned or the exception. *)
Record outcome (V A : Type) := Outcome {
  self_after : SklearnContainer V;
  calls : list call;
  returned : result A
}.
Arguments Outcome {V A} _ _ _.
Arguments self_after {V A} o.
Arguments calls {V A} o.
Arguments returned {V A} o.

Context {V : Type}.

Definition set_last_iteration (b : bool) (self : SklearnContainer V)
  : SklearnContainer V :=
  Container (_batch_size self) (_extra_config self) b.

(** [for i in range(0, iterations)] of [_run_batch_inference], over the
    indices still to visit. *)
Fixpoint batch_loop (function : scoring) (batch_size total_size iterations : Z)
    (inputs : list array2) (indices : list Z)
    (self : SklearnContainer V) (log : list call) (predictions : list Out)
  : outcome V (list Out) :=
  match indices with
  | [] => Outcome self log (Ok predictions)
  | i :: indices' =>
      let start := i * batch_size in
      let end_ := Z.min (start + batch_size) total_size in
      let batch := map (py_slice start end_) inputs in
      let self := set_last_iteration (i =? iterations - 1) self in
      let log := log ++ [(_last_iteration self, batch)] in
      match function (_last_iteration self) batch with
      | Ok out =>
          batch_loop function batch_size total_size iterations inputs
            indices' self log (predictions ++ ravel out)
      | Raise e => Outcome self log (Raise e)
      end
  end.

(** [SklearnContainer._run_batch_inference]; [inputs] is always a tuple
    there ([is_tuple] holds). *)
Definition _run_batch_inference (self : SklearnContainer V)
    (function : scoring) (inputs : list array2) (reshape : bool)
  : outcome V (ndarray Out) :=
  match inputs with
  | [] => Outcome self [] (Raise IndexError)
  | first :: _ =>
      let total_size := Z.of_nat (length first) in
      match _batch_size self with
      | None => Outcome self [] (Raise TypeError)
      | Some batch_size =>
          if total_size =? batch_size then
            Outcome self [(_last_iteration self, inputs)]
              (function (_last_iteration self) inputs)
          else if batch_size =? 0 then
            Outcome self [] (Raise ZeroDivisionError)
          else
            let iterations := total_size / batch_size in
            let iterations :=
              iterations + (if total_size mod batch_size >? 0 then 1 else 0) in
            let iterations := Z.max 1 iterations in
            let o := batch_loop function batch_size total_size iterations
                       inputs (py_range iterations) self [] [] in
            Outcome (self_after o) (calls o)
              (let* predictions := returned o in
               if reshape then reshape_rows total_size (np_array predictions)
               else Ok (np_array predictions))
      end
  end.

(** The DataFrame branch of [_run]: one column array per column, each
    reshaped to a column vector. *)
Definition split_frame (columns : list (string * list Cell)) : list array2 :=
  map (fun column => map (fun v => [v]) (snd column)) columns.

(** [SklearnContainer._run]. *)
Definition _run (self : SklearnContainer V) (function : scoring)
    (inputs : run_inputs) (reshape : bool) : outcome V (ndarray Out) :=
  match inputs with
  | Arrays [] => Outcome self [] (Raise IndexError)
  | _ =>
      let inputs :=
        match inputs with
        | Arrays arrays => arrays
        | Frame columns => split_frame columns
        end in
      match _batch_size self with
      | None =>
          Outcome self [(_last_iteration self, inputs)]
            (function (_last_iteration self) inputs)
      | Some _ => _run_batch_inference self function inputs reshape
      end
  end.

End Batch.

Arguments Container {V} _ _ _.
Arguments _batch_size {V} s.
Arguments _extra_config {V} s.
Arguments _last_iteration {V} s.
Arguments Outcome {Cell V A} _ _ _.
Arguments self_after {Cell V A} o.
Arguments calls {Cell V A} o.
Arguments returned {Cell V A} o.

(** ** The anomaly detection container *)

Section Anomaly.

(** Scores are numbers of the backend; [add] is their addition, which numpy
    broadcasts over an array. *)
Context {Cell Num : Type}.
Variable add : Num -> Num -> Num.

(** The keys [constants.IFOREST_THRESHOLD] and [constants.OFFSET]. *)
Variables IFOREST_THRESHOLD OFFSET : string.

(** [scores + v] with a scalar [v]. *)
Definition add_scalar (scores : ndarray Num) (v : Num) : ndarray Num :=
  NDArray (shape scores) (map (fun s => add s v) (data scores)).

(** [SklearnContainerAnomalyDetection.decision_function], over the
    backend's [_decision_function]. *)
Definition decision_function (self : SklearnContainer Num)
    (_decision_function : @scoring Cell Num) (inputs : run_inputs)
  : outcome Num (ndarray Num) :=
  let o := _run self _decision_function inputs false in
  Outcome (self_after o) (calls o)
    (let* scores := returned o in
     match _extra_config (self_after o) !! IFOREST_THRESHOLD with
     | Some threshold => Ok (add_scalar scores threshold)
     | None => Ok scores
     end).

(** [SklearnContainerAnomalyDetection.score_samples]. *)
Definition score_samples (self : SklearnContainer Num)
    (_decision_function : @scoring Cell Num) (inputs : run_inputs)
  : outcome Num (ndarray Num) :=
  let o := decision_function self _decision_function inputs in
  Outcome (self_after o) (calls o)
    (let* scores := returned o in
     match _extra_config (self_after o) !! OFFSET with
     | Some offset => Ok (add_scalar scores offset)
     | None => Raise (KeyError OFFSET)
     end).

End Anomaly.

(** ** The ONNX containers *)

(** [np.array(arrays)] of a Python list of arrays: they are stacked along a
    new leading dimension; numpy refuses arrays of different shapes. *)
Definition np_stack {A} (arrays : list (ndarray A)) : result (ndarray A) :=
  match arrays with
  | [] => Ok (NDArray [0%nat] [])
  | a :: _ =>
      if forallb (fun b => bool_decide (shape b = shape a)) arrays
      then Ok (NDArray (length arrays :: shape a) (flat_map data arrays))
      else Raise (ValueError "inhomogeneous shape")
  end.

(** [a[0]] of an array: the first item along the leading dimension. *)
Definition np_item0 {A} (a : ndarray A) : result (ndarray A) :=
  match shape a with
  | [] | 0%nat :: _ => Raise IndexError
  | S _ :: inner => Ok (NDArray inner (firstn (fold_right Nat.mul 1%nat inner) (data a)))
  end.

(** [a.ravel()] and [a.flatten()] as arrays. *)
Definition np_ravel {A} (a : ndarray A) : ndarray A := np_array (data a).

(** [l[0]] of a Python list. *)
Definition list_item0 {A} (l : list A) : result A :=
  match l with
  | [] => Raise IndexError
  | a :: _ => Ok a
  end.

Section ONNX.

(** A positional input is a Python object.  [elements x] are the items of
    [x] when the code uses it as a sequence ([len(x)] and [x[i]]), and
    [None] when it has no length. *)
Context {Input Out : Type}.
Variable elements : Input -> option (list Input).

(** The fields of the ONNX containers that the primitives read.
    [session_run names named_inputs] is [self._session.run]. *)
Record ONNXSklearnContainer := ONNXContainer {
  _output_names : list string;
  _input_names : list string;
  _is_regression : bool;
  _is_anomaly_detection : bool;
  session_run : list string -> gmap string Input -> result (list (ndarray Out))
}.

(** The loop of [_get_named_inputs]: a later assignment to a name replaces
    an earlier one. *)
Definition assign_named (names : list string) (inputs : list Input)
  : gmap string Input :=
  fold_left (fun named ni => <[fst ni := snd ni]> named) (combine names inputs) ∅.

(** [ONNXSklearnContainer._get_named_inputs]. *)
Definition _get_named_inputs (self : ONNXSklearnContainer) (inputs : list Input)
  : result (gmap string Input) :=
  let* inputs :=
    if (length inputs <? length (_input_names self))%nat then
      let* first := list_item0 inputs in
      match elements first with
      | Some items => Ok items
      | None => Raise TypeError
      end
    else Ok inputs in
  let* _ := py_assert (length inputs =? length (_input_names self))%nat NamedInputs in
  Ok (assign_named (_input_names self) inputs).

(** [ONNXSklearnContainerTransformer._transform]. *)
Definition _transform (self : ONNXSklearnContainer) (inputs : list Input)
  : result (ndarray Out) :=
  let* _ := py_assert (length (_output_names self) =? 1)%nat OutputCount in
  let* named_inputs := _get_named_inputs self inputs in
  let* outputs := session_run self (_output_names self) named_inputs in
  np_stack outputs.

(** [ONNXSklearnContainerRegression._predict]. *)
Definition _predict (self : ONNXSklearnContainer) (inputs : list Input)
  : result (ndarray Out) :=
  let* named_inputs := _get_named_inputs self inputs in
  if _is_regression self then
    let* _ := py_assert (length (_output_names self) =? 1)%nat OutputCount in
    let* outputs := session_run self (_output_names self) named_inputs in
    np_stack outputs
  else if _is_anomaly_detection self then
    let* _ := py_assert (length (_output_names self) =? 2)%nat OutputCount in
    let* outputs := session_run self [nth 0 (_output_names self) ""] named_inputs in
    let* stacked := np_stack outputs in
    let* first := np_item0 stacked in
    Ok (np_ravel first)
  else
    let* _ := py_assert (length (_output_names self) =? 2)%nat OutputCount in
    let* outputs := session_run self [nth 0 (_output_names self) ""] named_inputs in
    let* stacked := np_stack outputs in
    np_item0 stacked.

(** [ONNXSklearnContainerClassification._predict_proba]. *)
Definition _predict_proba (self : ONNXSklearnContainer) (inputs : list Input)
  : result (ndarray Out) :=
  let* _ := py_assert (length (_output_names self) =? 2)%nat OutputCount in
  let* named_inputs := _get_named_inputs self inputs in
  let* outputs := session_run self [nth 1 (_output_names self) ""] named_inputs in
  list_item0 outputs.

(** [ONNXSklearnContainerAnomalyDetection._decision_function]. *)
Definition _decision_function (self : ONNXSklearnContainer) (inputs : list Input)
  : result (ndarray Out) :=
  let* _ := py_assert (length (_output_names self) =? 2)%nat OutputCount in
  let* named_inputs := _get_named_inputs self inputs in
  let* outputs := session_run self [nth 1 (_output_names self) ""] named_inputs in
  let* first := list_item0 outputs in
  Ok (np_ravel first).

End ONNX.

(** ** The label encoders *)

Module LabelEncoders.

(** Labels are byte strings (the ASCII text that numpy stores under an
    [|S] dtype), written as [string]: one character is one byte. *)

(** [sorted(set(classes))]: the distinct labels in increasing order, which
    for Python strings is the order of [String.compare]. *)
Fixpoint insert_label (s : string) (sorted : list string) : list string :=
  match sorted with
  | [] => [s]
  | t :: rest =>
      match String.compare s t with
      | Lt => s :: sorted
      | Eq => sorted
      | Gt => t :: insert_label s rest
      end
  end.

Definition sorted_set (classes : list string) : list string :=
  fold_right insert_label [] classes.

(** [max(l)] of a non-empty list of lengths. *)
Definition py_max (l : list nat) : result nat :=
  match l with
  | [] => Raise (ValueError "max() arg is an empty sequence")
  | n :: rest => Ok (fold_left Nat.max rest n)
  end.

(** The loop [while self.max_word_length % 4 != 0: self.max_word_length += 1];
    three rounds always suffice. *)
Fixpoint pad_to_word (fuel n : nat) : nat :=
  match fuel with
  | O => n
  | S fuel' => if (n mod 4 =? 0)%nat then n else pad_to_word fuel' (S n)
  end.

Definition byte_of (c : ascii) : Z := Z.of_N (N_of_ascii c).

(** One entry of a numpy array of dtype [|S<width>]: the bytes of the
    label, cut at [width] and filled with NUL bytes up to [width]. *)
Definition fixed_width (width : nat) (s : string) : list Z :=
  let bytes := map byte_of (list_ascii_of_string s) in
  firstn width bytes ++ repeat 0 (width - length bytes).

(** A signed 32-bit integer read from four bytes, least significant byte
    first. *)
Definition int32_of_bytes (b0 b1 b2 b3 : Z) : Z :=
  let u := b0 + 256 * b1 + 65536 * b2 + 16777216 * b3 in
  if u <? 2147483648 then u else u - 4294967296.

(** [.view(np.int32)] on the bytes of one entry. *)
Fixpoint view_int32 (bytes : list Z) : list Z :=
  match bytes with
  | b0 :: b1 :: b2 :: b3 :: rest => int32_of_bytes b0 b1 b2 b3 :: view_int32 rest
  | _ => []
  end.

(** [np.array(labels, dtype="|S<4*words>").view(np.int32)], one row of
    [words] integers per label. *)
Definition encode_label (words : nat) (s : string) : list Z :=
  view_int32 (fixed_width (4 * words) s).

Record StringLabelEncoder := MkStringLabelEncoder {
  num_columns : nat;
  max_word_length : nat;
  condition_tensors : list (list Z)
}.

(** [StringLabelEncoder.__init__].  With a longest label of zero bytes the
    dtype is [|S0], whose single one-byte entry cannot be viewed as
    [int32]. *)
Definition StringLabelEncoder_init (classes : list string)
  : result StringLabelEncoder :=
  let* longest := py_max (map String.length classes) in
  let padded := pad_to_word 3 longest in
  if (padded =? 0)%nat then Raise (ValueError "cannot view |S0 as int32")
  else
    let words := (padded / 4)%nat in
    Ok (MkStringLabelEncoder (length classes) words
          (map (encode_label words) (sorted_set classes))).

(** [x.view(-1, 1, words)] on the integers of [x] in row-major order. *)
Fixpoint chunks (fuel words : nat) (x : list Z) : list (list Z) :=
  match fuel with
  | O => []
  | S fuel' =>
      match x with
      | [] => []
      | _ => firstn words x :: chunks fuel' words (skipn words x)
      end
  end.

Definition torch_view_rows (words : nat) (x : list Z) : result (list (list Z)) :=
  if (words =? 0)%nat || negb (length x mod words =? 0)%nat
  then Raise (RuntimeError "shape is invalid for input")
  else Ok (chunks (length x) words x).

(** [torch.prod(condition == q, dim=2)] for one vocabulary row and one
    query row. *)
Fixpoint prod_eq (condition q : list Z) : Z :=
  match condition, q with
  | c :: condition', v :: q' => (if c =? v then 1 else 0) * prod_eq condition' q'
  | _, _ => 1
  end.

(** The column indices of the non-zero entries of one row of the product,
    from column [j] on. *)
Fixpoint nonzero_columns (j : nat) (condition_tensors : list (list Z)) (q : list Z)
  : list nat :=
  match condition_tensors with
  | [] => []
  | c :: rest =>
      if prod_eq c q =? 0 then nonzero_columns (S j) rest q
      else j :: nonzero_columns (S j) rest q
  end.

(** [StringLabelEncoder.forward]: [nonzero(as_tuple=True)[1]] lists the
    column of every non-zero entry, row by row. *)
Definition forward (self : StringLabelEncoder) (x : list Z) : result (list nat) :=
  let* x := torch_view_rows (max_word_length self) x in
  let result := flat_map (nonzero_columns 0 (condition_tensors self)) x in
  if (length result =? length x)%nat then Ok result
  else Raise (UnseenLabels x (condition_tensors self)).

(** How a caller presents labels to [forward]: as the integers of a numpy
    array of the encoder's own [|S] dtype. *)
Definition encode_query (self : StringLabelEncoder) (labels : list string) : list Z :=
  flat_map (encode_label (max_word_length self)) labels.

Record NumericLabelEncoder := MkNumericLabelEncoder {
  check_tensor : list Z
}.

Definition in_int32 (z : Z) : bool := (-2147483648 <=? z) && (z <=? 2147483647).

(** [NumericLabelEncoder.__init__]: [torch.IntTensor(classes)] refuses a
    value outside of [int32]. *)
Definition NumericLabelEncoder_init (classes : list Z) : result NumericLabelEncoder :=
  if forallb in_int32 classes then Ok (MkNumericLabelEncoder classes)
  else Raise (RuntimeError "value cannot be converted to type int32 without overflow").

(** [torch.eq(q, check_tensor).int()] for one query row. *)
Definition eq_mask (check_tensor : list Z) (q : Z) : list Z :=
  map (fun c => if q =? c then 1 else 0) check_tensor.

(** The index of the first maximal value of a row, scanning from index [i]
    with the best value so far [best] at index [best_i]. *)
Fixpoint argmax_from (best_i : nat) (best : Z) (i : nat) (row : list Z) : nat :=
  match row with
  | [] => best_i
  | v :: row' =>
      if best <? v then argmax_from i v (S i) row'
      else argmax_from best_i best (S i) row'
  end.

Definition argmax_row (row : list Z) : nat :=
  match row with
  | [] => O
  | v :: row' => argmax_from 0 v 1 row'
  end.

(** [torch.argmax(mask, dim=1)] on a mask of [columns] columns: the
    reduction of an empty dimension is refused. *)
Definition torch_argmax (columns : nat) (mask : list (list Z)) : result (list nat) :=
  if (columns =? 0)%nat then Raise IndexError
  else Ok (map argmax_row mask).

(** [NumericLabelEncoder.forward]; [x.view(-1, 1)] makes one row of each
    value of [x]. *)
Definition numeric_forward (self : NumericLabelEncoder) (x : list Z)
  : result (list nat) :=
  torch_argmax (length (check_tensor self)) (map (eq_mask (check_tensor self)) x).

End LabelEncoders.

(** ** The k-neighbors converter *)

Module KNeighbors.

(** A class label of the fitted model: a Python or numpy integer, or a
    value of another type. *)
Inductive pylabel :=
| IntLabel (z : Z)
| OtherLabel (repr : string).

Definition is_int_label (l : pylabel) : bool :=
  match l with IntLabel _ => true | OtherLabel _ => false end.

(** The attributes of [operator.raw_operator] that the converter reads;
    the training data and labels are opaque. *)
Record raw_operator (Data Labels : Type) := RawOperator {
  classes_ : list pylabel;
  metric : string;
  metric_params : option (gmap string Z);
  weights : string;
  _fit_X : Data;
  _y : Labels;
  n_neighbors : Z
}.
Arguments classes_ {Data Labels} r.
Arguments metric {Data Labels} r.
Arguments metric_params {Data Labels} r.
Arguments weights {Data Labels} r.
Arguments _fit_X {Data Labels} r.
Arguments _y {Data Labels} r.
Arguments n_neighbors {Data Labels} r.

(** The arguments the converter passes to the [KNeighborsModel]
    constructor, which it returns. *)
Record KNeighborsModel (Data Labels : Type) := MkKNeighborsModel {
  train_data : Data;
  train_labels : Labels;
  model_n_neighbors : Z;
  model_weights : string;
  model_classes : option (list pylabel);
  p : Z;
  model_batch_size : Z;
  model_is_classifier : bool
}.
Arguments MkKNeighborsModel {Data Labels} _ _ _ _ _ _ _ _.

Section Converter.

Context {Data Labels : Type}.

(** The key [constants.BATCH_SIZE]. *)
Variable BATCH_SIZE : string.

(** The message of both [NotImplementedError]s is a conditional
    expression: the sentence with "Classifier" appended for a
    classifier, and otherwise the word "Regressor" alone. *)
Definition metric_message (is_classifier : bool) : string :=
  if is_classifier then
    "Hummingbird currently supports only the metric type 'minkowski' and 'euclidean' for KNeighbors" ++ "Classifier"
  else "Regressor".

Definition weights_message (is_classifier : bool) : string :=
  if is_classifier then
    "Hummingbird currently supports only the weights type 'uniform' and 'distance' for KNeighbors" ++ "Classifier"
  else "Regressor".

Definition str_in (s : string) (l : list string) : bool :=
  existsb (String.eqb s) l.

(** [_convert_kneighbors_model]. *)
Definition _convert_kneighbors_model (operator : raw_operator Data Labels)
    (extra_config : gmap string Z) (is_classifier : bool)
  : result (KNeighborsModel Data Labels) :=
  match extra_config !! BATCH_SIZE with
  | None =>
      Raise (RuntimeError
               ("Hummingbird requires explicit specification of " ++ BATCH_SIZE
                ++ " parameter when compiling KNeighborsClassifier"))
  | Some batch_size =>
      let* classes :=
        if is_classifier then
          if forallb is_int_label (classes_ operator)
          then Ok (Some (classes_ operator))
          else Raise (RuntimeError
                        "Hummingbird supports only integer labels for class labels.")
        else Ok None in
      if negb (str_in (metric operator) ["minkowski"; "euclidean"]) then
        Raise (NotImplementedError (metric_message is_classifier))
      else
        let p :=
          if String.eqb (metric operator) "minkowski" then
            match metric_params operator with
            | Some params =>
                match params !! "p" with
                | Some p' => p'
                | None => 2
                end
            | None => 2
            end
          else 2 in
        if negb (str_in (weights operator) ["uniform"; "distance"]) then
          Raise (NotImplementedError (weights_message is_classifier))
        else
          Ok (MkKNeighborsModel (_fit_X operator) (_y operator)
                (n_neighbors operator) (weights operator) classes p
                batch_size is_classifier)
  end.

(** Whether [needle] occurs in [text]. *)
Fixpoint occurs_in (needle text : string) : bool :=
  String.prefix needle text ||
  match text with
  | EmptyString => false
  | String _ text' => occurs_in needle text'
  end.

End Converter.

End KNeighbors.

(** ** The public prediction methods *)

Section PredictionAPI.

Context {Cell Out V : Type}.

(** [SklearnContainerTransformer.transform], over the backend's
    [_transform]. *)
Definition transform (self : SklearnContainer V) (_transform : @scoring Cell Out)
    (inputs : run_inputs) : outcome V (ndarray Out) :=
  _run self _transform inputs true.

(** [SklearnContainerRegression.predict], over the backend's [_predict]. *)
Definition predict (self : SklearnContainer V) (_predict : @scoring Cell Out)
    (inputs : run_inputs) : outcome V (ndarray Out) :=
  _run self _predict inputs false.

(** [SklearnContainerClassification.predict_proba], over the backend's
    [_predict_proba]. *)
Definition predict_proba (self : SklearnContainer V)
    (_predict_proba : @scoring Cell Out) (inputs : run_inputs)
  : outcome V (ndarray Out) :=
  _run self _predict_proba inputs true.

End PredictionAPI.

(** ** The TorchScript containers *)

Section TorchScript.

(** [to_float] is [torch.from_numpy(a).float()] on the content of an array.
    A device is a [torch.device]; [device_type] is its [type] attribute and
    [cpu] the device of a tensor made from a numpy array.  The device given
    to the wrapper is a device ([_get_device] found one), not [None]. *)
Context {Cell Device Out : Type}.
Variable to_float : @array2 Cell -> @array2 Cell.
Variable device_type : Device -> string.
Variable cpu : Device.

Record tensor := MkTensor { tensor_data : @array2 Cell; tensor_device : Device }.

(** A positional input of the wrapper, by its Python type: a numpy array, a
    torch tensor, or an object of another type, of which the error message
    shows the type. *)
Inductive py_input :=
| NdArray (a : @array2 Cell)
| Tensor (t : tensor)
| Other (type_name : string).

(** The loop of [_torchscript_wrapper] from index [i] on. *)
Fixpoint convert_inputs (device : Device) (i : nat) (inputs : list py_input)
  : result (list tensor) :=
  match inputs with
  | [] => Ok []
  | input :: rest =>
      let* t :=
        match input with
        | NdArray a => Ok (MkTensor (to_float a) cpu)
        | Tensor t => Ok t
        | Other type_name =>
            Raise (RuntimeError
                     ("Inputer tensor " ++ pretty i ++ " of not supported type "
                      ++ type_name))
        end in
      let t :=
        if negb (String.eqb (device_type device) "cpu")
        then MkTensor (tensor_data t) device
        else t in
      let* rest' := convert_inputs device (S i) rest in
      Ok (t :: rest')
  end.

(** [_torchscript_wrapper]; [inputs = [*inputs]] is a list, never a
    DataFrame, so that branch is not taken. *)
Definition _torchscript_wrapper (device : Device)
    (function : list tensor -> result (ndarray Out)) (inputs : list py_input)
  : result (ndarray Out) :=
  let* inputs := convert_inputs device 0 inputs in
  function inputs.

(** The call of [f_wrapped = lambda x: ...] on the unpacked batch: Python
    refuses any number of arguments but one. *)
Definition lambda_x {A B} (body : A -> result B) (arguments : list A) : result B :=
  match arguments with
  | [x] => body x
  | _ => Raise TypeError
  end.

Context {V : Type}.

(** [TorchScriptSklearnContainerTransformer.transform]; [f] is the
    [_transform] of the PyTorch container, which does not read
    [_last_iteration]. *)
Definition TorchScript_transform (self : SklearnContainer V) (device : Device)
    (f : list tensor -> result (ndarray Out)) (inputs : @run_inputs Cell)
  : outcome V (ndarray Out) :=
  let f_wrapped : @scoring Cell Out :=
    fun _ batch =>
      lambda_x (fun x => _torchscript_wrapper device f [NdArray x]) batch in
  _run self f_wrapped inputs true.

(** [TorchScriptSklearnContainerRegression.predict], and the [predict] of
    the TorchScript classification and anomaly detection containers. *)
Definition TorchScript_predict (self : SklearnContainer V) (device : Device)
    (f : list tensor -> result (ndarray Out)) (inputs : @run_inputs Cell)
  : outcome V (ndarray Out) :=
  let f_wrapped : @scoring Cell Out :=
    fun _ batch =>
      lambda_x (fun x => _torchscript_wrapper device f [NdArray x]) batch in
  _run self f_wrapped inputs false.

(** [TorchScriptSklearnContainerClassification.predict_proba], whose
    [f_wrapped = lambda *x: ...] takes any number of arguments. *)
Definition TorchScript_predict_proba (self : SklearnContainer V) (device : Device)
    (f : list tensor -> result (ndarray Out)) (inputs : @run_inputs Cell)
  : outcome V (ndarray Out) :=
  let f_wrapped : @scoring Cell Out :=
    fun _ batch => _torchscript_wrapper device f (map NdArray batch) in
  _run self f_wrapped inputs true.

End TorchScript.

(** ** The TVM containers *)

Section TVM.

Context {Cell Out : Type}.

(** A compiled TVM module: [run] on the named tensors followed by
    [get_output(output_index).asnumpy()]. *)
Definition tvm_module :=
  gmap string (@array2 Cell) -> nat -> result (ndarray Out).

(** The fields of [TVMSklearnContainer] that the primitives read. *)
Record TVMSklearnContainer := TVMContainer {
  tvm_model : tvm_module;
  tvm_input_names : list string;
  _remainder_model : option tvm_module
}.

(** [TVMSklearnContainer._to_tvm_tensor]: the dict comprehension reads
    [self._input_names[i]] for every input, and a later entry of a name
    replaces an earlier one. *)
Definition _to_tvm_tensor (self : TVMSklearnContainer) (inputs : list (@array2 Cell))
  : result (gmap string (@array2 Cell)) :=
  if (length (tvm_input_names self) <? length inputs)%nat then Raise IndexError
  else Ok (assign_named (tvm_input_names self) inputs).

(** [TVMSklearnContainer._predict_common]: a bound method, which reads
    [self._last_iteration]. *)
Definition _predict_common (self : TVMSklearnContainer) (output_index : nat)
  : @scoring Cell Out :=
  fun _last_iteration inputs =>
    match (if _last_iteration then _remainder_model self else None) with
    | Some remainder =>
        let* tensors := _to_tvm_tensor self inputs in
        remainder tensors output_index
    | None =>
        let* tensors := _to_tvm_tensor self inputs in
        tvm_model self tensors output_index
    end.

(** [TVMSklearnContainerTransformer._transform] and
    [TVMSklearnContainerClassification._predict_proba]. *)
Definition TVM_transform (self : TVMSklearnContainer) : @scoring Cell Out :=
  _predict_common self 0.

Definition TVM_predict_proba (self : TVMSklearnContainer) : @scoring Cell Out :=
  _predict_common self 1.

(** [TVMSklearnContainerRegression._predict] and
    [TVMSklearnContainerAnomalyDetection._decision_function]: the output,
    raveled. *)
Definition TVM_predict (self : TVMSklearnContainer) : @scoring Cell Out :=
  fun _last_iteration inputs =>
    let* out := _predict_common self 0 _last_iteration inputs in
    Ok (np_ravel out).

Definition TVM_decision_function (self : TVMSklearnContainer) : @scoring Cell Out :=
  fun _last_iteration inputs =>
    let* out := _predict_common self 1 _last_iteration inputs in
    Ok (np_ravel out).

End TVM.

(** ** The k-neighbors converters of the two estimators *)

Section KNeighborsConverters.

Context {Data Labels : Type}.
Variable BATCH_SIZE : string.

(** [convert_sklearn_kneighbors_regression_model]. *)
Definition convert_sklearn_kneighbors_regression_model
    (operator : KNeighbors.raw_operator Data Labels) (extra_config : gmap string Z)
  : result (KNeighbors.KNeighborsModel Data Labels) :=
  KNeighbors._convert_kneighbors_model BATCH_SIZE operator extra_config false.

(** [convert_sklearn_kneighbors_classification_model]. *)
Definition convert_sklearn_kneighbors_classification_model
    (operator : KNeighbors.raw_operator Data Labels) (extra_config : gmap string Z)
  : result (KNeighbors.KNeighborsModel Data Labels) :=
  KNeighbors._convert_kneighbors_model BATCH_SIZE operator extra_config true.

End KNeighborsConverters.

(** ** Definitions used to state the properties *)

(** The rows of index [lo] (included) to [hi] (excluded). *)
Definition rows_range {A} (lo hi : Z) (l : list A) : list A :=
  firstn (Z.to_nat (hi - lo)) (skipn (Z.to_nat lo) l).

(** The least integer not below [n / b], for a positive [b]. *)
Definition ceil_div (n b : Z) : Z := (n + b - 1) / b.

(** The flattened output of a scoring function, empty when it raises. *)
Definition scores {Cell Out} (function : @scoring Cell Out) (flag : bool)
    (inputs : list (@array2 Cell)) : list Out :=
  match function flag inputs with
  | Ok out => ravel out
  | Raise _ => []
  end.

(** A scoring function that never raises. *)
Definition total {Cell Out} (function : @scoring Cell Out) : Prop :=
  forall flag inputs, exists out, function flag inputs = Ok out.

(** A scoring function that scores row by row: it never raises, and its
    flattened output on some rows is the flattened output on the first [k]
    rows followed by the flattened output on the others, whatever the
    last-iteration flag. *)
Definition row_wise {Cell Out} (function : @scoring Cell Out) : Prop :=
  total function /\
  forall flag flag' (k : nat) inputs,
    scores function flag inputs =
    scores function flag' (map (firstn k) inputs)
    ++ scores function flag' (map (skipn k) inputs).

(** The arrays that [_run] works on. *)
Definition arrays_of {Cell} (inputs : @run_inputs Cell) : list (@array2 Cell) :=
  match inputs with
  | Arrays arrays => arrays
  | Frame columns => split_frame columns
  end.

(** Scoring functions and containers used as examples: the number of rows
    of the first input; the cells of the first input, as a flat vector; the
    cells of the first input, as a table of two columns. *)
Definition count_rows : @scoring Z Z :=
  fun _ inputs => Ok (np_array [Z.of_nat (length (hd [] inputs))]).

Definition first_cells : @scoring Z Z :=
  fun _ inputs => Ok (np_array (concat (hd [] inputs))).

Definition first_table : @scoring Z Z :=
  fun _ inputs =>
    Ok (NDArray [length (hd [] inputs); 2%nat] (concat (hd [] inputs))).

Definition plain_container (batch_size : option Z) : SklearnContainer Z :=
  Container batch_size ∅ false.

Definition raw_scores : @scoring Z Qc :=
  fun _ _ => Ok (np_array [Q2Qc (1 # 10); Q2Qc (-2 # 10)]).

(** Positional inputs of the ONNX primitives as the prediction API passes
    them: one or more objects, the first of which has a length. *)
Definition sized_inputs {Input} (elements : Input -> option (list Input))
    (inputs : list Input) : Prop :=
  match inputs with
  | [] => False
  | first :: _ => is_Some (elements first)
  end.

(** The session itself raises the assertion of the output count, on some
    call. *)
Definition session_asserts {Input Out} (self : @ONNXSklearnContainer Input Out)
  : Prop :=
  exists names named,
    session_run self names named = Raise (AssertionError OutputCount).

(** The ONNX container of a session with one input that returns one
    array per requested name; Python lists of integers as inputs. *)
Definition onnx_example (output_names : list string) (is_anomaly : bool)
  : @ONNXSklearnContainer (list Z) Z :=
  ONNXContainer output_names ["input"] false is_anomaly
    (fun names _ => Ok (map (fun _ => np_array [1; 2]) names)).

Definition list_items (x : list Z) : option (list (list Z)) :=
  Some (map (fun z => [z]) x).

(** The position of the first class equal to [q]. *)
Fixpoint first_index (q : Z) (classes : list Z) : option nat :=
  match classes with
  | [] => None
  | c :: classes' =>
      if q =? c then Some O else option_map S (first_index q classes')
  end.

Definition knn_config : gmap string Z := <["batch_size" := 10]> ∅.

(** A fitted k-neighbors model with three integer classes. *)
Definition knn_example (metric weights : string)
  : KNeighbors.raw_operator (list (list Z)) (list Z) :=
  KNeighbors.RawOperator _ _
    [KNeighbors.IntLabel 0; KNeighbors.IntLabel 1; KNeighbors.IntLabel 2]
    metric None weights [[0; 0]; [1; 1]; [2; 2]] [0; 1; 2] 2.

(** Whether the last byte of a label is the NUL byte, with which numpy
    fills the entries of an [|S] array; a label as numpy keeps it, a text
    label, does not end so. *)
Definition ends_with_nul (s : string) : bool :=
  List.last (map LabelEncoders.byte_of (list_ascii_of_string s)) 1 =? 0.

Definition text_label (s : string) : Prop := ends_with_nul s = false.

(** A label that one row of [forward]'s input can hold. *)
Definition fits (self : LabelEncoders.StringLabelEncoder) (s : string) : Prop :=
  (String.length s <= 4 * LabelEncoders.max_word_length self)%nat.

Definition is_byte (b : Z) : Prop := 0 <= b < 256.

(** The order of [sorted]. *)
Definition label_lt (a b : string) : Prop := String.compare a b = Lt.

(** The encoder of four city names. *)
Definition cities : list string := ["paris"; "milan"; "amsterdam"; "tokyo"].

Definition cities_encoder : LabelEncoders.StringLabelEncoder :=
  LabelEncoders.MkStringLabelEncoder 4 3
    (map (LabelEncoders.encode_label 3) (LabelEncoders.sorted_set cities)).

(** The calls of the batched path on inputs of [N] rows with the batch size
    [B]: the flag and the batch of every iteration, in order. *)
Definition batch_plan {Cell} (B N : Z) (inputs : list (@array2 Cell))
  : list (@call Cell) :=
  let iterations := Z.max 1 (ceil_div N B) in
  map (fun i => (i =? iterations - 1,
                 map (rows_range (i * B) (Z.min ((i + 1) * B) N)) inputs))
    (py_range iterations).

(** A scoring function that raises on the last partition. *)
(** One iteration of the loop of [_run_batch_inference], as the code slices
    it: the flag it sets and the batch it passes. *)
Definition step {Cell} (B N iterations : Z) (inputs : list (@array2 Cell)) (i : Z)
  : @call Cell :=
  (i =? iterations - 1, map (py_slice (i * B) (Z.min (i * B + B) N)) inputs).

(** The scoring function returns on every call of a plan. *)
Definition returns_on {Cell Out} (function : @scoring Cell Out)
    (plan : list (@call Cell)) : Prop :=
  List.Forall (fun c => is_ok (function (fst c) (snd c)) = true) plan.

Definition fails_on_last : @scoring Z Z :=
  fun flag inputs =>
    if flag then Raise (ValueError "remainder") else first_cells flag inputs.

(** An ONNX container of a session with three declared inputs. *)
Definition onnx_three_inputs : @ONNXSklearnContainer (list Z) Z :=
  ONNXContainer ["variable"] ["a"; "b"; "c"] true false
    (fun names _ => Ok (map (fun _ => np_array [1; 2]) names)).

(** Whether the wrapper of the TorchScript containers accepts an input. *)
Definition supported {Cell Device} (input : @py_input Cell Device) : bool :=
  match input with
  | Other _ => false
  | _ => true
  end.

(** The tensor that the wrapper passes on for an accepted input: an array
    as a float tensor, a tensor as it is, both moved to the device of the
    model unless it is a cpu. *)
Definition as_tensor {Cell Device} (to_float : @array2 Cell -> @array2 Cell)
    (device_type : Device -> string) (cpu device : Device)
    (input : @py_input Cell Device) : @tensor Cell Device :=
  let t :=
    match input with
    | NdArray a => MkTensor (to_float a) cpu
    | Tensor t => t
    | Other _ => MkTensor [] cpu
    end in
  if negb (String.eqb (device_type device) "cpu")
  then MkTensor (tensor_data t) device
  else t.

(** One module of a TVM container as a scoring function. *)
Definition run_module {Cell Out} (self : @TVMSklearnContainer Cell Out)
    (module : @tvm_module Cell Out) (output_index : nat) : @scoring Cell Out :=
  fun _ inputs =>
    let* tensors := _to_tvm_tensor self inputs in
    module tensors output_index.

(** A TVM container whose model returns the cells of its input and whose
    remainder model returns their opposites; a device type by its name. *)
(** A TVM module that returns the output of the given index on every
    input. *)
Definition module_returns {Cell Out} (module : @tvm_module Cell Out)
    (output_index : nat) : Prop :=
  forall tensors, exists out, module tensors output_index = Ok out.

Definition tvm_example : @TVMSklearnContainer Z Z :=
  TVMContainer
    (fun tensors _ => Ok (np_array (concat (default [] (tensors !! "input")))))
    ["input"]
    (Some (fun tensors _ =>
             Ok (np_array (map Z.opp (concat (default [] (tensors !! "input"))))))).

Definition named_device (name : string) : string := name.

Definition echo_tensors : list (@tensor Z string) -> result (ndarray Z) :=
  fun tensors => Ok (np_array (concat (flat_map tensor_data tensors))).

Definition torch_inputs : list (@py_input Z string) :=
  [NdArray [[1; 2]]; Tensor (MkTensor [[3]] "cpu")].

Definition torch_mixed_inputs : list (@py_input Z string) :=
  [NdArray [[1; 2]]; Other "list"; Other "int"].

(** A fitted k-neighbors model of the Minkowski metric with [p = 3] and
    text labels. *)
Definition knn_params : gmap string Z := <["p" := 3]> ∅.

Definition knn_text_example (metric weights : string)
  : KNeighbors.raw_operator (list (list Z)) (list Z) :=
  KNeighbors.RawOperator _ _
    [KNeighbors.OtherLabel "cat"; KNeighbors.OtherLabel "dog"]
    metric (Some knn_params) weights [[0; 0]; [1; 1]] [0; 1] 1.

(** An encoder of pet names, one of them given twice. *)
Definition pets : list string := ["dog"; "cat"; "dog"; "horse"].

Definition pets_encoder : LabelEncoders.StringLabelEncoder :=
  LabelEncoders.MkStringLabelEncoder 4 2
    (map (LabelEncoders.encode_label 2) (LabelEncoders.sorted_set pets)).

(** * Properties *)

Section BatchProperties.

Context {Cell Out V : Type}.
Implicit Types (function : @scoring Cell Out) (self : SklearnContainer V).
Implicit Types (inputs : list (@array2 Cell)).

Lemma py_slice_nonneg {A} (lo hi : Z) (l : list A) :
  0 <= lo -> 0 <= hi -> py_slice lo hi l = rows_range lo hi l.
Proof.
  intros Hlo Hhi. unfold py_slice, rows_range, clamp_index.
  destruct (Z.ltb_spec lo 0); [lia|]. destruct (Z.ltb_spec hi 0); [lia|].
  set (len := Z.of_nat (length l)).
  destruct (Z.le_gt_cases len lo) as [Hge|Hlt].
  - rewrite !(skipn_all2 l) by (subst len; lia). now rewrite !firstn_nil.
  - replace (Z.min lo len) with lo by lia.
    destruct (Z.le_gt_cases hi len) as [Hh|Hh].
    + now replace (Z.min hi len) with hi by lia.
    + replace (Z.min hi len) with len by lia.
      rewrite !firstn_all2; [reflexivity| |]; rewrite length_skipn; subst len; lia.
Qed.

Lemma iterations_ceil (n b : Z) :
  0 <= n -> 0 < b ->
  n / b + (if n mod b >? 0 then 1 else 0) = ceil_div n b.
Proof.
  intros Hn Hb. unfold ceil_div.
  pose proof (Z.div_mod n b ltac:(lia)) as Hdm.
  pose proof (Z.mod_pos_bound n b Hb) as Hr.
  destruct (Z.gtb_spec (n mod b) 0) as [Hpos|Hz].
  - apply (Z.div_unique _ _ _ (n mod b - 1)); lia.
  - apply (Z.div_unique _ _ _ (b - 1)); lia.
Qed.

(** [ceil_div n b] is the least [k] with [n <= k * b]. *)
Lemma ceil_div_least (n b : Z) :
  0 < b -> (ceil_div n b - 1) * b < n <= ceil_div n b * b.
Proof.
  intros Hb. unfold ceil_div.
  pose proof (Z.div_mod (n + b - 1) b ltac:(lia)) as Hdm.
  pose proof (Z.mod_pos_bound (n + b - 1) b Hb) as Hr. nia.
Qed.

(** The calls that the loop makes when the scoring function never raises. *)
Lemma batch_loop_calls function batch_size total_size iterations inputs :
  total function ->
  forall indices self log predictions,
    calls (batch_loop function batch_size total_size iterations inputs
             indices self log predictions)
    = log ++ map (fun i =>
                    (i =? iterations - 1,
                     map (py_slice (i * batch_size)
                            (Z.min (i * batch_size + batch_size) total_size))
                       inputs)) indices.
Proof.
  intros Htot. induction indices as [|i indices IH]; intros self log predictions.
  - simpl. now rewrite app_nil_r.
  - cbn [batch_loop set_last_iteration _last_iteration].
    match goal with
    | |- context [function ?fl ?b] => destruct (Htot fl b) as [out Hout]; rewrite Hout
    end.
    rewrite IH, <- app_assoc. reflexivity.
Qed.

Lemma py_range_nonneg (n i : Z) : In i (py_range n) -> 0 <= i.
Proof.
  unfold py_range. rewrite in_map_iff. intros (k & <- & _). lia.
Qed.

Lemma last_flag_only (n : nat) :
  (0 < n)%nat ->
  map (fun i => i =? Z.of_nat n - 1) (py_range (Z.of_nat n))
  = repeat false (n - 1) ++ [true].
Proof.
  intros Hn. unfold py_range. rewrite Nat2Z.id.
  destruct n as [|m]; [lia|]. replace (S m - 1)%nat with m by lia.
  rewrite seq_S, !map_app. cbn [map Nat.add]. f_equal.
  - rewrite map_map.
    rewrite (map_ext_in _ (fun _ => false)).
    + transitivity (repeat false (length (seq 0 m))); [|now rewrite length_seq].
      generalize (seq 0 m). intros l. induction l; simpl; congruence.
    + intros k Hk. apply in_seq in Hk. apply Z.eqb_neq. lia.
  - f_equal. apply Z.eqb_eq. lia.
Qed.

(** C2: with [N > 0] rows and a positive batch size [B] other than [N], the
    batched path calls the scoring function [max(1, ceil(N/B))] times, the
    call of index [i] on the rows [[i*B, min((i+1)*B, N))] of every input,
    in increasing order of [i], and [_last_iteration] is true during the
    last call only; [ceil_div N B] is the least [k] with [N <= k * B].
    With 100 rows and a batch size of 30 the calls get
    30, 30, 30 and 10 rows and the flag is set for the fourth only. *)
Theorem batch_partitions self function first rest reshape (B : Z) :
  let N := Z.of_nat (length first) in
  let inputs := first :: rest in
  let iterations := Z.max 1 (ceil_div N B) in
  let o := _run_batch_inference self function inputs reshape in
  _batch_size self = Some B ->
  0 < N -> 0 < B -> N <> B -> total function ->
  calls o
  = map (fun i => (i =? iterations - 1,
                   map (rows_range (i * B) (Z.min ((i + 1) * B) N)) inputs))
      (py_range iterations)
  /\ length (calls o) = Z.to_nat iterations
  /\ (ceil_div N B - 1) * B < N <= ceil_div N B * B
  /\ map fst (calls o) = repeat false (Z.to_nat iterations - 1) ++ [true]
  /\ forall row : list Cell,
      map (fun c => (fst c, map (@length _) (snd c)))
        (calls (_run_batch_inference (Container (Some 30) (_extra_config self) false)
                  function [repeat row 100] reshape))
      = [(false, [30%nat]); (false, [30%nat]); (false, [30%nat]); (true, [10%nat])].
Proof.
  intros N inputs iterations o HB HN HBpos Hne Htot.
  assert (Hcalls : forall self' first' rest' B',
    _batch_size self' = Some B' -> 0 < B' ->
    Z.of_nat (length first') <> B' ->
    calls (_run_batch_inference self' function (first' :: rest') reshape)
    = map (fun i =>
             (i =? Z.max 1 (ceil_div (Z.of_nat (length first')) B') - 1,
              map (rows_range (i * B')
                     (Z.min ((i + 1) * B') (Z.of_nat (length first'))))
                (first' :: rest')))
        (py_range (Z.max 1 (ceil_div (Z.of_nat (length first')) B')))).
  { intros self' first' rest' B' HB' HBp Hn'.
    unfold _run_batch_inference. rewrite HB'.
    destruct (Z.eqb_spec (Z.of_nat (length first')) B'); [contradiction|].
    destruct (Z.eqb_spec B' 0); [lia|].
    cbn [calls]. rewrite batch_loop_calls by assumption. cbn [app].
    rewrite iterations_ceil by lia.
    apply map_ext_in. intros i Hi. apply py_range_nonneg in Hi.
    f_equal. apply map_ext. intros l.
    rewrite py_slice_nonneg by lia. f_equal. lia. }
  assert (Hc : calls o = map (fun i => (i =? iterations - 1,
                   map (rows_range (i * B) (Z.min ((i + 1) * B) N)) inputs))
      (py_range iterations)).
  { subst o inputs. now apply Hcalls. }
  split; [exact Hc|]. split; [|split; [now apply ceil_div_least|split]].
  - rewrite Hc. unfold py_range. now rewrite !length_map, length_seq.
  - rewrite Hc, map_map. cbn [fst].
    pose proof (last_flag_only (Z.to_nat iterations) ltac:(lia)) as Hflags.
    rewrite Z2Nat.id in Hflags by lia. exact Hflags.
  - intros row.
    rewrite (Hcalls (Container (Some 30) (_extra_config self) false)
               (repeat row 100) [] 30);
      [|reflexivity|lia|rewrite repeat_length; lia].
    rewrite repeat_length. vm_compute. reflexivity.
Qed.

(** *** Row-wise scoring functions *)

Lemma scores_ok function flag inputs out :
  function flag inputs = Ok out -> scores function flag inputs = ravel out.
Proof. unfold scores. now intros ->. Qed.

Lemma scores_no_rows function flag inputs :
  row_wise function ->
  scores function flag (map (fun _ => []) inputs) = [].
Proof.
  intros [_ Hsplit].
  pose proof (Hsplit flag flag 0%nat (map (fun _ : array2 => []) inputs)) as H.
  rewrite !map_map in H. cbn [firstn skipn] in H.
  apply (f_equal (@length _)) in H. rewrite length_app in H.
  destruct (scores function flag _); [reflexivity|simpl in H; lia].
Qed.

Lemma scores_flag function flag flag' inputs :
  row_wise function ->
  scores function flag inputs = scores function flag' inputs.
Proof.
  intros Hrw. destruct Hrw as [Htot Hsplit].
  rewrite (Hsplit flag flag' 0%nat inputs).
  rewrite (map_ext (firstn 0) (fun _ => [])) by reflexivity.
  rewrite scores_no_rows by (split; assumption).
  rewrite (map_ext (skipn 0) (fun l => l)) by reflexivity.
  now rewrite map_id.
Qed.

Lemma skip_all_rows inputs (N : nat) (k : nat) :
  Forall (fun a => length a = N) inputs -> (N <= k)%nat ->
  map (skipn k) inputs = map (fun _ => []) inputs.
Proof.
  intros Hlen Hk. apply map_ext_in. intros a Ha.
  rewrite List.Forall_forall in Hlen. apply skipn_all2. rewrite (Hlen a Ha). exact Hk.
Qed.

(** The loop over the indices [s, s+1, ..., s+n-1], when they reach the
    last row: it appends the scores of the rows from [s*B] on. *)
Lemma batch_loop_row_wise function (B : Z) (N : nat) iterations inputs :
  row_wise function -> 0 < B ->
  Forall (fun a => length a = N) inputs ->
  forall (n s : nat) self log predictions flag,
    Z.of_nat N <= Z.of_nat (s + n) * B ->
    exists self' log',
      batch_loop function B (Z.of_nat N) iterations inputs
        (map Z.of_nat (seq s n)) self log predictions
      = Outcome self' log'
          (Ok (predictions
               ++ scores function flag
                    (map (skipn (Z.to_nat (Z.of_nat s * B))) inputs)))
      /\ flat_map (fun c => scores function (fst c) (snd c)) log'
         = flat_map (fun c => scores function (fst c) (snd c)) log
           ++ scores function flag
                (map (skipn (Z.to_nat (Z.of_nat s * B))) inputs).
Proof.
  intros Hrw HB Hlen. induction n as [|n IH]; intros s self log predictions flag Hcover.
  - exists self, log. cbn [seq map batch_loop].
    rewrite (skip_all_rows inputs N) by (assumption || lia).
    rewrite scores_no_rows by assumption. now rewrite !app_nil_r.
  - cbn [seq map batch_loop set_last_iteration _last_iteration].
    set (start := Z.of_nat s * B).
    set (stop := Z.min (start + B) (Z.of_nat N)).
    set (fl := Z.of_nat s =? iterations - 1).
    set (batch := map (py_slice start stop) inputs).
    destruct (proj1 Hrw fl batch) as [out Hout]. rewrite Hout.
    destruct (IH (S s) (set_last_iteration fl self) (log ++ [(fl, batch)])
                (predictions ++ ravel out) flag ltac:(lia))
      as (self' & log' & Hloop & Hlog).
    exists self', log'. rewrite Hloop.
    assert (Hstep :
      scores function flag (map (skipn (Z.to_nat start)) inputs)
      = ravel out
        ++ scores function flag
             (map (skipn (Z.to_nat (Z.of_nat (S s) * B))) inputs)).
    { rewrite (proj2 Hrw flag fl (Z.to_nat (stop - start))).
      rewrite (scores_flag function fl flag
                 (map (skipn (Z.to_nat (stop - start))) _)) by assumption.
      f_equal.
      - rewrite <- (scores_ok _ _ _ _ Hout). f_equal. subst batch.
        rewrite map_map. apply map_ext. intros l.
        symmetry. apply py_slice_nonneg; subst start stop; lia.
      - f_equal. rewrite map_map. apply map_ext_in. intros l Hl.
        rewrite List.Forall_forall in Hlen. specialize (Hlen l Hl).
        rewrite skipn_skipn.
        destruct (Z.le_gt_cases (start + B) (Z.of_nat N)) as [Hfit|Hlast].
        + f_equal. subst start stop. lia.
        + rewrite !skipn_all2; [reflexivity| |]; rewrite Hlen; subst start stop; lia. }
    split.
    + rewrite Hstep, app_assoc. reflexivity.
    + rewrite Hlog, flat_map_app. cbn [flat_map fst snd].
      rewrite app_nil_r, (scores_ok _ _ _ _ Hout), Hstep, app_assoc. reflexivity.
Qed.

(** The values of the batched path for a row-wise scoring function. *)
Lemma batching_values self function first rest (B : Z) :
  let N := Z.of_nat (length first) in
  let inputs := first :: rest in
  _batch_size self = Some B -> 0 < B ->
  row_wise function ->
  Forall (fun a => length a = length first) rest ->
  exists full,
    function (_last_iteration self) inputs = Ok full
    /\ (forall reshape,
          flat_map (fun c => scores function (fst c) (snd c))
            (calls (_run_batch_inference self function inputs reshape))
          = ravel full)
    /\ returned (_run_batch_inference self function inputs false)
       = Ok (if N =? B then full else np_array (ravel full))
    /\ returned (_run_batch_inference self function inputs true)
       = if N =? B then Ok full else reshape_rows N (np_array (ravel full)).
Proof.
  intros N inputs HB HBpos Hrw Hrest.
  destruct (proj1 Hrw (_last_iteration self) inputs) as [full Hfull].
  exists full. split; [exact Hfull|].
  assert (Hlen : Forall (fun a => length a = length first) inputs)
    by (constructor; [reflexivity|exact Hrest]).
  pose proof (scores_ok _ _ _ _ Hfull) as Hscores.
  unfold _run_batch_inference. subst inputs. rewrite HB. fold N.
  destruct (Z.eqb_spec N B) as [Heq|Hne].
  - cbn [calls returned flat_map fst snd]. rewrite app_nil_r. auto.
  - destruct (Z.eqb_spec B 0); [lia|].
    rewrite iterations_ceil by lia.
    set (iterations := Z.max 1 (ceil_div N B)).
    destruct (batch_loop_row_wise function B (length first) iterations
                (first :: rest) Hrw HBpos Hlen (Z.to_nat iterations) 0%nat
                self [] [] (_last_iteration self))
      as (self' & log' & Hloop & Hlog).
    { pose proof (ceil_div_least N B HBpos). subst iterations N. nia. }
    unfold py_range. fold N in Hloop. rewrite Hloop.
    cbn [calls returned bind app flat_map] in *.
    change (Z.to_nat (Z.of_nat 0 * B)) with (Z.to_nat 0 * 1)%nat in *.
    rewrite (map_ext (skipn (Z.to_nat 0 * 1)) (fun l => l)), map_id in *
      by reflexivity.
    rewrite Hscores in *. auto.
Qed.

(** C1, amended: for a scoring function that scores row by row, a positive
    batch size [B] and inputs that all have [N] rows, the flattened outputs
    of the calls of the batched path, put one after the other, are the
    flattened output of one call on the full input.  The batched path
    returns these values as a flat vector when [reshape] is false and
    reshaped to [(N, -1)] when it is true, unless [N = B], where it returns
    the output of the single call as it is.  So it returns the very output
    of the single call when that output is a flat vector and [reshape] is
    false, and when it is a table of [N > 0] rows and [reshape] is true. *)
Theorem batching_row_wise self function first rest (B : Z) :
  let N := Z.of_nat (length first) in
  let inputs := first :: rest in
  _batch_size self = Some B -> 0 < B ->
  row_wise function ->
  Forall (fun a => length a = length first) rest ->
  exists full,
    function (_last_iteration self) inputs = Ok full
    /\ (forall reshape,
          flat_map (fun c => scores function (fst c) (snd c))
            (calls (_run_batch_inference self function inputs reshape))
          = ravel full)
    /\ returned (_run_batch_inference self function inputs false)
       = Ok (if N =? B then full else np_array (ravel full))
    /\ returned (_run_batch_inference self function inputs true)
       = (if N =? B then Ok full else reshape_rows N (np_array (ravel full)))
    /\ (shape full = [length (data full)] ->
        returned (_run_batch_inference self function inputs false) = Ok full)
    /\ (forall k : nat,
          (0 < length first)%nat ->
          shape full = [length first; k] ->
          length (data full) = (length first * k)%nat ->
          returned (_run_batch_inference self function inputs true) = Ok full).
Proof.
  intros N inputs HB HBpos Hrw Hrest.
  destruct (batching_values self function first rest B HB HBpos Hrw Hrest)
    as (full & Hfull & Hcalls & Hflat & Htable).
  fold N inputs in Hflat, Htable.
  exists full. repeat apply conj; try assumption.
  - intros Hshape. rewrite Hflat. destruct (N =? B); [reflexivity|].
    destruct full as [sh d]. cbn in *. unfold np_array. now rewrite Hshape.
  - intros k Hrows Hshape Hsize. rewrite Htable. destruct (N =? B); [reflexivity|].
    destruct full as [sh d]. cbn in *. subst sh.
    unfold reshape_rows, np_array, ravel. cbn [data].
    destruct (Z.leb_spec N 0) as [|_]; [lia|].
    assert (Hmod : Z.of_nat (length d) mod N = 0).
    { rewrite Hsize, Nat2Z.inj_mul. fold N. rewrite Z.mul_comm. apply Z.mod_mul. lia. }
    rewrite Hmod. cbn [Z.eqb negb orb].
    assert (Hdiv : Z.to_nat (Z.of_nat (length d) / N) = k).
    { rewrite Hsize, Nat2Z.inj_mul. fold N.
      rewrite Z.mul_comm, Z.div_mul by lia. apply Nat2Z.id. }
    rewrite Hdiv. unfold N. now rewrite Nat2Z.id.
Qed.

(** C3, amended: when no batch size is configured, or when the first input
    has as many rows as the batch size, the scoring function is called
    once, on the full input, and what it returns or raises is the outcome,
    unchanged: no reshape is applied, whatever [reshape] is.  The run with
    a batch size equal to the row count makes the same call and returns the
    same value as the run without a batch size. *)
Theorem single_call_unchanged self function (inputs : run_inputs) first rest reshape :
  arrays_of inputs = first :: rest ->
  _batch_size self = None \/ _batch_size self = Some (Z.of_nat (length first)) ->
  _run self function inputs reshape
  = Outcome self [(_last_iteration self, first :: rest)]
      (function (_last_iteration self) (first :: rest))
  /\ forall config flag,
      let batched :=
        _run (Container (Some (Z.of_nat (length first))) config flag)
          function inputs reshape in
      let unbatched :=
        _run (Container None config flag : SklearnContainer V)
          function inputs reshape in
      calls batched = calls unbatched /\ returned batched = returned unbatched.
Proof.
  intros Harrays Hsize.
  assert (Hrun : forall self',
    _batch_size self' = None \/ _batch_size self' = Some (Z.of_nat (length first)) ->
    _run self' function inputs reshape
    = Outcome self' [(_last_iteration self', first :: rest)]
        (function (_last_iteration self') (first :: rest))).
  { intros self' Hs. unfold _run.
    assert (Hin : match inputs with Arrays [] => False | _ => True end).
    { destruct inputs as [[|a arrays]|columns]; simpl in *; [discriminate|exact I|exact I]. }
    unfold arrays_of in Harrays.
    destruct inputs as [[|a arrays]|columns]; [contradiction| |];
      rewrite Harrays; (destruct Hs as [Hs | Hs]; rewrite Hs; [reflexivity|]);
      unfold _run_batch_inference; rewrite Hs;
      now rewrite Z.eqb_refl. }
  split; [now apply Hrun|].
  intros config flag batched unbatched. subst batched unbatched.
  rewrite !Hrun by (cbn; auto). cbn. auto.
Qed.

End BatchProperties.

(** *** The engine on examples *)

Lemma first_cells_total : total first_cells.
Proof. intros flag inputs. eexists. reflexivity. Qed.

Lemma first_cells_row_wise : row_wise first_cells.
Proof.
  split; [exact first_cells_total|].
  intros flag flag' k inputs. unfold scores, first_cells, ravel, np_array. cbn [data].
  destruct inputs as [|a inputs]; cbn [map hd].
  - now destruct k.
  - now rewrite <- concat_app, firstn_skipn.
Qed.

Lemma batch_partitions_witness :
  calls (_run_batch_inference (plain_container (Some 2)) first_cells
           [[[1]; [2]; [3]]] false)
  = [(false, [[[1]; [2]]]); (true, [[[3]]])].
Proof.
  exact (proj1 (batch_partitions (plain_container (Some 2)) first_cells
                  [[1]; [2]; [3]] [] false 2 eq_refl
                  ltac:(cbn; lia) ltac:(lia) ltac:(cbn; lia) first_cells_total)).
Defined.

Lemma batching_row_wise_witness :
  exists full,
    first_cells false [[[1; 2]; [3; 4]; [5; 6]]] = Ok full
    /\ (forall reshape,
          flat_map (fun c => scores first_cells (fst c) (snd c))
            (calls (_run_batch_inference (plain_container (Some 2)) first_cells
                      [[[1; 2]; [3; 4]; [5; 6]]] reshape))
          = ravel full)
    /\ returned (_run_batch_inference (plain_container (Some 2)) first_cells
                   [[[1; 2]; [3; 4]; [5; 6]]] false)
       = Ok (np_array (ravel full))
    /\ returned (_run_batch_inference (plain_container (Some 2)) first_cells
                   [[[1; 2]; [3; 4]; [5; 6]]] true)
       = reshape_rows 3 (np_array (ravel full))
    /\ (shape full = [length (data full)] ->
        returned (_run_batch_inference (plain_container (Some 2)) first_cells
                    [[[1; 2]; [3; 4]; [5; 6]]] false)
        = Ok full)
    /\ (forall k : nat,
          (0 < 3)%nat ->
          shape full = [3%nat; k] ->
          length (data full) = (3 * k)%nat ->
          returned (_run_batch_inference (plain_container (Some 2)) first_cells
                      [[[1; 2]; [3; 4]; [5; 6]]] true)
          = Ok full).
Proof.
  exact (batching_row_wise (plain_container (Some 2)) first_cells
           [[1; 2]; [3; 4]; [5; 6]] [] 2 eq_refl ltac:(lia)
           first_cells_row_wise (List.Forall_nil _)).
Defined.

(** C1 as stated fails.  A scoring function that is not row-wise, the count
    of rows, gives [1; 1] over two batches of one row and [2] at once.  A
    row-wise one that returns a table of shape (3, 2) at once comes back as a
    flat vector of 6 values from the batched path with [reshape] false. *)
Lemma batching_every_function_counterexample :
  returned (_run (plain_container (Some 1)) count_rows (Arrays [[[1]; [2]]]) false)
  = Ok (NDArray [2%nat] [1; 1])
  /\ returned (_run (plain_container None) count_rows (Arrays [[[1]; [2]]]) false)
     = Ok (NDArray [1%nat] [2])
  /\ returned (_run (plain_container (Some 2)) first_table
                 (Arrays [[[1; 2]; [3; 4]; [5; 6]]]) false)
     = Ok (NDArray [6%nat] [1; 2; 3; 4; 5; 6])
  /\ returned (_run (plain_container None) first_table
                 (Arrays [[[1; 2]; [3; 4]; [5; 6]]]) false)
     = Ok (NDArray [3%nat; 2%nat] [1; 2; 3; 4; 5; 6])
  /\ returned (_run (plain_container (Some 1)) count_rows (Arrays [[[1]; [2]]]) false)
     <> returned (_run (plain_container None) count_rows (Arrays [[[1]; [2]]]) false).
Proof.
  repeat split; try reflexivity. vm_compute. discriminate.
Qed.

Lemma single_call_unchanged_witness :
  _run (plain_container (Some 2)) first_cells (Arrays [[[1; 2]; [3; 4]]]) true
  = Outcome (plain_container (Some 2)) [(false, [[[1; 2]; [3; 4]]])]
      (first_cells false [[[1; 2]; [3; 4]]]).
Proof.
  exact (proj1 (single_call_unchanged (plain_container (Some 2)) first_cells
                  (Arrays [[[1; 2]; [3; 4]]]) [[1; 2]; [3; 4]] [] true
                  eq_refl (or_intror eq_refl))).
Defined.

(** C3 as stated fails on the reshape: with [reshape] true, a flat output of
    four values for two rows is returned flat, both without a batch size and
    with a batch size equal to the row count, where a reshape to (2, -1)
    would give the shape (2, 2). *)
Lemma single_call_reshape_counterexample :
  returned (_run (plain_container None) first_cells (Arrays [[[1; 2]; [3; 4]]]) true)
  = Ok (NDArray [4%nat] [1; 2; 3; 4])
  /\ returned (_run (plain_container (Some 2)) first_cells
                 (Arrays [[[1; 2]; [3; 4]]]) true)
     = Ok (NDArray [4%nat] [1; 2; 3; 4])
  /\ (let* out := first_cells false [[[1; 2]; [3; 4]]] in reshape_rows 2 out)
     = Ok (NDArray [2%nat; 2%nat] [1; 2; 3; 4])
  /\ returned (_run (plain_container None) first_cells (Arrays [[[1; 2]; [3; 4]]]) true)
     <> (let* out := first_cells false [[[1; 2]; [3; 4]]] in reshape_rows 2 out).
Proof.
  repeat split; try reflexivity. vm_compute. discriminate.
Qed.

(** ** The anomaly detection container *)

Section RunFrame.

Context {Cell Out V : Type}.

(** The engine writes [_last_iteration] only. *)
Lemma batch_loop_config (function : @scoring Cell Out) B N iterations inputs :
  forall indices (self : SklearnContainer V) log predictions,
    _extra_config
      (self_after (batch_loop function B N iterations inputs indices self log
                     predictions))
    = _extra_config self.
Proof.
  induction indices as [|i indices IH]; intros self log predictions;
    cbn [batch_loop]; [reflexivity|].
  match goal with |- context [function ?fl ?b] => destruct (function fl b) end;
    [rewrite IH|]; reflexivity.
Qed.

Lemma run_config (function : @scoring Cell Out) (self : SklearnContainer V)
    inputs reshape :
  _extra_config (self_after (_run self function inputs reshape))
  = _extra_config self.
Proof.
  unfold _run, _run_batch_inference.
  destruct inputs as [[|a arrays]|columns]; cbn [self_after]; try reflexivity;
    destruct (_batch_size self) as [B|]; cbn [self_after]; try reflexivity.
  - destruct (_ =? B); [reflexivity|]. destruct (B =? 0); [reflexivity|].
    cbn [self_after]. apply batch_loop_config.
  - destruct (split_frame columns) as [|a arrays]; [reflexivity|].
    destruct (_ =? B); [reflexivity|]. destruct (B =? 0); [reflexivity|].
    cbn [self_after]. apply batch_loop_config.
Qed.

End RunFrame.

Section AnomalyProperties.

Context {Cell Num : Type} (add : Num -> Num -> Num).
Context (IFOREST_THRESHOLD OFFSET : string).
Implicit Types (self : SklearnContainer Num) (function : @scoring Cell Num).

Lemma decision_function_config self function inputs :
  _extra_config
    (self_after (decision_function add IFOREST_THRESHOLD self function inputs))
  = _extra_config self.
Proof. unfold decision_function. cbn [self_after]. apply run_config. Qed.

Lemma decision_function_returned self function inputs :
  returned (decision_function add IFOREST_THRESHOLD self function inputs)
  = let* scores := returned (_run self function inputs false) in
    match _extra_config self !! IFOREST_THRESHOLD with
    | Some threshold => Ok (add_scalar add scores threshold)
    | None => Ok scores
    end.
Proof. unfold decision_function. cbn [returned]. now rewrite run_config. Qed.

Lemma score_samples_returned self function inputs :
  returned (score_samples add IFOREST_THRESHOLD OFFSET self function inputs)
  = let* scores :=
      returned (decision_function add IFOREST_THRESHOLD self function inputs) in
    match _extra_config self !! OFFSET with
    | Some offset => Ok (add_scalar add scores offset)
    | None => Raise (KeyError OFFSET)
    end.
Proof.
  unfold score_samples. cbn [returned]. now rewrite decision_function_config.
Qed.

End AnomalyProperties.

(** C7: [decision_function] returns the scores of the run unchanged when the
    configuration has no IFOREST_THRESHOLD key, and every score plus the
    configured threshold when it has one; over the rationals, the scores
    0.1 and -0.2 with a threshold of 0.05 give 0.15 and -0.15. *)
Theorem decision_function_threshold {Cell Num : Type} (add : Num -> Num -> Num)
    (IFOREST_THRESHOLD : string) (self : SklearnContainer Num)
    (function : @scoring Cell Num) (inputs : run_inputs) :
  (_extra_config self !! IFOREST_THRESHOLD = None ->
   returned (decision_function add IFOREST_THRESHOLD self function inputs)
   = returned (_run self function inputs false))
  /\ (forall threshold raw,
        _extra_config self !! IFOREST_THRESHOLD = Some threshold ->
        returned (_run self function inputs false) = Ok raw ->
        returned (decision_function add IFOREST_THRESHOLD self function inputs)
        = Ok (NDArray (shape raw) (map (fun s => add s threshold) (data raw))))
  /\ (forall first : @array2 Cell,
        returned
          (decision_function Qcplus IFOREST_THRESHOLD
             (Container None (<[IFOREST_THRESHOLD := Q2Qc (5 # 100)]> ∅) false)
             (fun _ _ => Ok (np_array [Q2Qc (1 # 10); Q2Qc (-2 # 10)]))
             (Arrays [first]))
        = Ok (np_array [Q2Qc (15 # 100); Q2Qc (-15 # 100)])).
Proof.
  split; [|split].
  - intros Hnone. rewrite decision_function_returned, Hnone.
    now destruct (returned _).
  - intros threshold raw Hsome Hraw.
    now rewrite decision_function_returned, Hsome, Hraw.
  - intros first. rewrite decision_function_returned.
    cbn [_extra_config]. rewrite lookup_insert_eq.
    cbn. unfold add_scalar, np_array. cbn. f_equal. f_equal.
    repeat (f_equal; try (apply Qc_is_canon; reflexivity)).
Qed.

(** C6: with an OFFSET key in the configuration, [score_samples] is
    [decision_function] with the configured offset added to every score;
    without the key it fails: with the [KeyError] of the key when
    [decision_function] returns, and with the exception of
    [decision_function] otherwise. *)
Theorem score_samples_offset {Cell Num : Type} (add : Num -> Num -> Num)
    (IFOREST_THRESHOLD OFFSET : string) (self : SklearnContainer Num)
    (function : @scoring Cell Num) (inputs : run_inputs) :
  let decision :=
    returned (decision_function add IFOREST_THRESHOLD self function inputs) in
  let samples :=
    returned (score_samples add IFOREST_THRESHOLD OFFSET self function inputs) in
  (forall offset,
     _extra_config self !! OFFSET = Some offset ->
     samples = let* scores := decision in Ok (add_scalar add scores offset))
  /\ (_extra_config self !! OFFSET = None ->
      is_ok samples = false
      /\ forall scores, decision = Ok scores -> samples = Raise (KeyError OFFSET)).
Proof.
  intros decision samples. subst decision samples. split.
  - intros offset Hsome. now rewrite score_samples_returned, Hsome.
  - intros Hnone. rewrite score_samples_returned, Hnone. split.
    + now destruct (returned _).
    + now intros scores ->.
Qed.

(** *** The anomaly container on examples *)

Lemma decision_function_threshold_witness :
  returned (decision_function Qcplus "iforest_threshold"
              (Container None (<["iforest_threshold" := Q2Qc (5 # 100)]> ∅) false)
              raw_scores (Arrays [[[1]; [2]]]))
  = Ok (NDArray [2%nat]
          [(Q2Qc (1 # 10) + Q2Qc (5 # 100))%Qc; (Q2Qc (-2 # 10) + Q2Qc (5 # 100))%Qc]).
Proof.
  exact (proj1 (proj2 (decision_function_threshold Qcplus "iforest_threshold"
                         (Container None (<["iforest_threshold" := Q2Qc (5 # 100)]> ∅) false)
                         raw_scores (Arrays [[[1]; [2]]])))
           (Q2Qc (5 # 100)) (np_array [Q2Qc (1 # 10); Q2Qc (-2 # 10)])
           eq_refl eq_refl).
Defined.

Lemma score_samples_offset_witness :
  returned (score_samples Qcplus "iforest_threshold" "offset"
              (Container None (<["offset" := Q2Qc (5 # 10)]> ∅) false)
              raw_scores (Arrays [[[1]; [2]]]))
  = Ok (NDArray [2%nat]
          [(Q2Qc (1 # 10) + Q2Qc (5 # 10))%Qc; (Q2Qc (-2 # 10) + Q2Qc (5 # 10))%Qc]).
Proof.
  exact (proj1 (score_samples_offset Qcplus "iforest_threshold" "offset"
                  (Container None (<["offset" := Q2Qc (5 # 10)]> ∅) false)
                  raw_scores (Arrays [[[1]; [2]]]))
           (Q2Qc (5 # 10)) eq_refl).
Defined.

(** ** The ONNX containers *)

Section ONNXProperties.

Context {Input Out : Type} (elements : Input -> option (list Input)).
Implicit Types (self : @ONNXSklearnContainer Input Out) (inputs : list Input).

Lemma named_inputs_sized self inputs e :
  sized_inputs elements inputs ->
  _get_named_inputs elements self inputs = Raise e ->
  e = AssertionError NamedInputs.
Proof.
  unfold sized_inputs, _get_named_inputs. intros Hsized.
  destruct inputs as [|first rest]; [contradiction|].
  destruct Hsized as [items Hitems]. cbn [list_item0 bind]. rewrite Hitems.
  destruct (_ <? _)%nat; cbn [bind];
    (destruct (_ =? _)%nat; cbn [py_assert bind]; [discriminate|congruence]).
Qed.

Lemma named_inputs_no_output_assert self inputs :
  _get_named_inputs elements self inputs <> Raise (AssertionError OutputCount).
Proof.
  unfold _get_named_inputs.
  destruct (_ <? _)%nat; cbn [bind].
  - destruct inputs as [|first rest]; cbn [list_item0 bind]; [discriminate|].
    destruct (elements first); cbn [bind]; [|discriminate].
    destruct (_ =? _)%nat; cbn [py_assert bind]; discriminate.
  - destruct (_ =? _)%nat; cbn [py_assert bind]; discriminate.
Qed.

Lemma np_stack_no_assert (arrays : list (ndarray Out)) site :
  np_stack arrays <> Raise (AssertionError site).
Proof.
  unfold np_stack. destruct arrays; [discriminate|].
  destruct (forallb _ _); discriminate.
Qed.

(** Case analysis on the steps that follow a passed assertion: binding the
    inputs, running the session, and the numpy post-processing. *)
Ltac after_assert self inputs :=
  let Hbind := fresh "Hbind" in
  let Hrun := fresh "Hrun" in
  destruct (_get_named_inputs elements self inputs) as [named|e] eqn:Hbind;
  cbn [bind];
  [ match goal with
    | |- context [session_run self ?names named] =>
        destruct (session_run self names named) as [outputs|e] eqn:Hrun;
        cbn [bind];
        [ | intros [= ->]; exists names, named; exact Hrun ]
    end
  | intros [= ->]; now apply named_inputs_no_output_assert in Hbind ].

Ltac post_processing :=
  repeat match goal with
    | |- np_stack ?l = _ -> _ => intros H; now apply np_stack_no_assert in H
    | |- context [np_stack ?l] =>
        let H := fresh in
        destruct (np_stack l) eqn:H; cbn [bind];
        [ | intros [= ->]; now apply np_stack_no_assert in H ]
    | |- context [np_item0 ?a] =>
        unfold np_item0; destruct (shape a) as [|[|?] ?]; cbn [bind]
    | |- context [list_item0 ?l] =>
        unfold list_item0; destruct l; cbn [bind]
    | |- _ = _ -> _ => discriminate
    end.

(** C8: [_transform] asserts one declared output name; [_predict_proba],
    [_decision_function] and the [_predict] of classifier and anomaly
    containers assert two.  With another count they raise: the assertion
    of the count, which [_predict] reaches once the inputs are bound to the
    input names (on sized inputs the binding can only fail by its own
    assertion).  With the asserted count, the assertion of the count is
    raised by no primitive unless the session itself raises it. *)
Theorem onnx_output_count self inputs :
  let count := length (_output_names self) in
  let count_assertion := Raise (AssertionError OutputCount) in
  (count <> 1%nat -> _transform elements self inputs = count_assertion)
  /\ (count <> 2%nat ->
      _predict_proba elements self inputs = count_assertion
      /\ _decision_function elements self inputs = count_assertion)
  /\ (count <> 2%nat -> _is_regression self = false ->
      (forall named,
         _get_named_inputs elements self inputs = Ok named ->
         _predict elements self inputs = count_assertion)
      /\ (sized_inputs elements inputs ->
          exists site, _predict elements self inputs = Raise (AssertionError site)))
  /\ (count = 1%nat ->
      _transform elements self inputs = count_assertion -> session_asserts self)
  /\ (count = 2%nat ->
      (_predict_proba elements self inputs = count_assertion -> session_asserts self)
      /\ (_decision_function elements self inputs = count_assertion ->
          session_asserts self)
      /\ (_is_regression self = false ->
          _predict elements self inputs = count_assertion -> session_asserts self)).
Proof.
  intros count count_assertion. subst count count_assertion.
  repeat apply conj.
  - intros Hcount. unfold _transform.
    now destruct (Nat.eqb_spec (length (_output_names self)) 1).
  - intros Hcount. unfold _predict_proba, _decision_function.
    now destruct (Nat.eqb_spec (length (_output_names self)) 2).
  - intros Hcount Hreg. unfold _predict. rewrite Hreg.
    assert (Hassert : py_assert (length (_output_names self) =? 2)%nat OutputCount
                      = Raise (AssertionError OutputCount))
      by now destruct (Nat.eqb_spec (length (_output_names self)) 2).
    split.
    + intros named ->. cbn [bind]. rewrite Hassert.
      now destruct (_is_anomaly_detection self).
    + intros Hsized.
      destruct (_get_named_inputs elements self inputs) as [named|e] eqn:Hbind;
        cbn [bind].
      * exists OutputCount. rewrite Hassert.
        now destruct (_is_anomaly_detection self).
      * exists NamedInputs. f_equal. now apply (named_inputs_sized self inputs).
  - intros Hcount. unfold _transform. rewrite Hcount. cbn [Nat.eqb py_assert bind].
    after_assert self inputs. post_processing.
  - intros Hcount. repeat apply conj.
    + unfold _predict_proba. rewrite Hcount. cbn [Nat.eqb py_assert bind].
      after_assert self inputs. post_processing.
    + unfold _decision_function. rewrite Hcount. cbn [Nat.eqb py_assert bind].
      after_assert self inputs. post_processing.
    + intros Hreg. unfold _predict. rewrite Hreg, Hcount.
      destruct (_get_named_inputs elements self inputs) as [named|e] eqn:Hbind;
        cbn [bind];
        [|intros [= ->]; now apply named_inputs_no_output_assert in Hbind].
      destruct (_is_anomaly_detection self); cbn [Nat.eqb py_assert bind];
        (match goal with
         | |- context [session_run self ?names named] =>
             destruct (session_run self names named) as [outputs|e] eqn:Hrun;
             cbn [bind];
             [ | intros [= ->]; exists names, named; exact Hrun ]
         end);
        post_processing.
Qed.

End ONNXProperties.

Lemma onnx_output_count_witness :
  _transform list_items (onnx_example ["label"; "probabilities"] false) [[1; 2]]
  = Raise (AssertionError OutputCount)
  /\ (exists site,
        _predict list_items (onnx_example ["label"] true) [[1; 2]]
        = Raise (AssertionError site)).
Proof.
  split.
  - exact (proj1 (onnx_output_count list_items
                    (onnx_example ["label"; "probabilities"] false) [[1; 2]])
             ltac:(cbn; lia)).
  - exact (proj2 (proj1 (proj2 (proj2 (onnx_output_count list_items
                                          (onnx_example ["label"] true) [[1; 2]])))
                    ltac:(cbn; lia) eq_refl)
             (ex_intro _ _ eq_refl)).
Defined.

(** ** The numeric label encoder *)

Module NumericEncoderProperties.
Import LabelEncoders.

Lemma first_index_spec (q : Z) (classes : list Z) :
  match first_index q classes with
  | Some j =>
      nth_error classes j = Some q
      /\ forall j', (j' < j)%nat -> nth_error classes j' <> Some q
  | None => ~ In q classes
  end.
Proof.
  induction classes as [|c classes IH]; cbn [first_index]; [tauto|].
  destruct (Z.eqb_spec q c) as [->|Hne].
  - split; [reflexivity|]. intros j' Hj. lia.
  - destruct (first_index q classes) as [j|]; cbn [option_map].
    + destruct IH as [Hj Hleast]. split; [exact Hj|].
      intros [|j'] Hlt; cbn [nth_error]; [congruence|]. apply Hleast. lia.
    + intros [Heq|Hin]; [congruence|tauto].
Qed.

(** Once a one is the best value, no later value of a mask replaces it. *)
Lemma argmax_from_one (classes : list Z) (q : Z) (best_i i : nat) :
  argmax_from best_i 1 i (eq_mask classes q) = best_i.
Proof.
  unfold eq_mask. revert i. induction classes as [|c classes IH]; intros i; cbn; [reflexivity|].
  destruct (q =? c); cbn; apply IH.
Qed.

Lemma argmax_from_zero (classes : list Z) (q : Z) (best_i i : nat) :
  argmax_from best_i 0 i (eq_mask classes q)
  = match first_index q classes with
    | Some j => (i + j)%nat
    | None => best_i
    end.
Proof.
  pose proof (argmax_from_one) as Hone.
  unfold eq_mask in *. revert i.
  induction classes as [|c classes IH]; intros i; cbn; [reflexivity|].
  destruct (q =? c); cbn.
  - rewrite Hone. lia.
  - rewrite IH. destruct (first_index q classes); cbn; lia.
Qed.

Lemma argmax_mask (classes : list Z) (q : Z) :
  argmax_row (eq_mask classes q) = default O (first_index q classes).
Proof.
  pose proof (argmax_from_one) as Hone. pose proof (argmax_from_zero) as Hzero.
  unfold eq_mask in *.
  destruct classes as [|c classes]; cbn; [reflexivity|].
  destruct (q =? c); cbn.
  - apply Hone.
  - rewrite Hzero. now destruct (first_index q classes).
Qed.

Lemma numeric_forward_spec classes enc (x : list Z) :
  NumericLabelEncoder_init classes = Ok enc -> classes <> [] ->
  numeric_forward enc x
  = Ok (map (fun q => default O (first_index q classes)) x).
Proof.
  unfold NumericLabelEncoder_init. intros Hinit Hne.
  destruct (forallb in_int32 classes); [|discriminate].
  injection Hinit as <-. unfold numeric_forward, torch_argmax. cbn [check_tensor].
  destruct classes as [|c classes]; [contradiction|]. cbn [length Nat.eqb].
  f_equal. rewrite map_map. apply map_ext. intros q. apply argmax_mask.
Qed.

(** [argmax_from] returns the first position of the largest value: what is
    before is smaller, nothing is larger. *)
Lemma argmax_from_first_max (row : list Z) :
  forall (seen : list Z) (best_i : nat) (best : Z),
    nth_error seen best_i = Some best ->
    List.Forall (fun v => v <= best) seen ->
    (forall j' v, (j' < best_i)%nat -> nth_error seen j' = Some v -> v < best) ->
    let j := argmax_from best_i best (length seen) row in
    exists m,
      nth_error (seen ++ row) j = Some m
      /\ List.Forall (fun v => v <= m) (seen ++ row)
      /\ forall j' v, (j' < j)%nat -> nth_error (seen ++ row) j' = Some v -> v < m.
Proof.
  induction row as [|v row IH]; intros seen best_i best Hbest Hall Hbefore; cbn.
  - exists best. rewrite app_nil_r. auto.
  - assert (Hlt : (best_i < length seen)%nat)
      by (apply nth_error_Some; congruence).
    replace (seen ++ v :: row) with ((seen ++ [v]) ++ row)
      by now rewrite <- app_assoc.
    replace (S (length seen)) with (length (seen ++ [v]))
      by (rewrite length_app; cbn; lia).
    destruct (Z.ltb_spec best v) as [Hgt|Hle]; apply IH.
    + rewrite nth_error_app2, Nat.sub_diag by lia. reflexivity.
    + apply Forall_app. split; [|constructor; [lia|constructor]].
      eapply List.Forall_impl; [|exact Hall]. cbn. intros; lia.
    + intros j' v' Hj Hv'. rewrite nth_error_app1 in Hv' by lia.
      rewrite List.Forall_forall in Hall.
      apply nth_error_In, Hall in Hv'. lia.
    + rewrite nth_error_app1 by lia. exact Hbest.
    + apply Forall_app. split; [exact Hall|constructor; [lia|constructor]].
    + intros j' v' Hj Hv'. rewrite nth_error_app1 in Hv' by lia. eauto.
Qed.

Lemma argmax_row_first_max (row : list Z) :
  row <> [] ->
  exists m,
    nth_error row (argmax_row row) = Some m
    /\ List.Forall (fun v => v <= m) row
    /\ forall j' v, (j' < argmax_row row)%nat -> nth_error row j' = Some v -> v < m.
Proof.
  destruct row as [|v row]; [congruence|]. intros _.
  apply (argmax_from_first_max row [v] 0%nat v).
  - reflexivity.
  - constructor; [lia|constructor].
  - intros j' v' Hj. lia.
Qed.

(** C5: [forward] of the numeric label encoder is the index of the maximum
    of the mask of equalities between the query value and the classes,
    taken per query row, the first index when the maximum occurs several
    times; for a query value among the classes this is the lowest index of
    an equal class.  With the classes 0, 1, 2 the queries 1, 0, 2 give the
    indices 1, 0, 2. *)
Theorem numeric_forward_first_match classes enc (x : list Z) :
  NumericLabelEncoder_init classes = Ok enc -> classes <> [] ->
  (exists idx,
     numeric_forward enc x = Ok idx
     /\ idx = map (fun q => argmax_row (eq_mask classes q)) x
     /\ forall i q,
         nth_error x i = Some q -> In q classes ->
         exists j,
           nth_error idx i = Some j
           /\ nth_error classes j = Some q
           /\ forall j', (j' < j)%nat -> nth_error classes j' <> Some q)
  /\ (forall row, row <> [] ->
      exists m,
        nth_error row (argmax_row row) = Some m
        /\ List.Forall (fun v => v <= m) row
        /\ forall j' v,
            (j' < argmax_row row)%nat -> nth_error row j' = Some v -> v < m)
  /\ NumericLabelEncoder_init [0; 1; 2] = Ok (MkNumericLabelEncoder [0; 1; 2])
  /\ numeric_forward (MkNumericLabelEncoder [0; 1; 2]) [1; 0; 2]
     = Ok [1%nat; 0%nat; 2%nat].
Proof.
  intros Hinit Hne. split; [|split; [exact argmax_row_first_max|split; reflexivity]].
  exists (map (fun q => default O (first_index q classes)) x).
  split; [now apply numeric_forward_spec|]. split.
  - apply map_ext. intros q. symmetry. apply argmax_mask.
  - intros i q Hq Hin. rewrite nth_error_map, Hq. cbn [option_map].
    pose proof (first_index_spec q classes) as Hspec.
    destruct (first_index q classes) as [j|]; [|contradiction].
    exists j. cbn. tauto.
Qed.

(** C10: a query value equal to no class gets the index 0, the index of the
    maximum of a mask of zeros, and no error is raised: alone, it gets the
    result of a query of the first class. *)
Theorem numeric_forward_unseen classes enc (x : list Z) :
  NumericLabelEncoder_init classes = Ok enc -> classes <> [] ->
  exists idx,
    numeric_forward enc x = Ok idx
    /\ (forall i q,
          nth_error x i = Some q -> ~ In q classes ->
          nth_error idx i = Some O
          /\ List.Forall (fun v => v = 0) (eq_mask classes q))
    /\ (forall q first,
          ~ In q classes -> hd_error classes = Some first ->
          numeric_forward enc [q] = Ok [O]
          /\ numeric_forward enc [first] = Ok [O]).
Proof.
  intros Hinit Hne.
  exists (map (fun q => default O (first_index q classes)) x).
  split; [now apply numeric_forward_spec|].
  assert (Hmiss : forall q, ~ In q classes -> first_index q classes = None).
  { intros q Hnot. pose proof (first_index_spec q classes) as Hspec.
    destruct (first_index q classes) as [j|]; [|reflexivity].
    destruct Hspec as [Hj _]. now apply nth_error_In in Hj. }
  split.
  - intros i q Hq Hnot. split.
    + rewrite nth_error_map, Hq. cbn [option_map]. now rewrite (Hmiss q Hnot).
    + unfold eq_mask. apply List.Forall_forall. intros v Hv.
      apply in_map_iff in Hv. destruct Hv as (c & <- & Hc).
      destruct (Z.eqb_spec q c); [subst; contradiction|reflexivity].
  - intros q first Hnot Hfirst.
    rewrite !(numeric_forward_spec classes enc) by assumption. cbn [map].
    rewrite (Hmiss q Hnot).
    destruct classes as [|c classes]; [discriminate|].
    injection Hfirst as ->. cbn [first_index]. now rewrite Z.eqb_refl.
Qed.

End NumericEncoderProperties.

(** ** The k-neighbors converter *)

Module KNeighborsProperties.
Import KNeighbors.

Lemma str_in_In (s : string) (l : list string) :
  str_in s l = true <-> In s l.
Proof.
  unfold str_in. rewrite existsb_exists. split.
  - intros (t & Ht & Heq). apply String.eqb_eq in Heq. now subst.
  - intros Hin. exists s. split; [exact Hin|apply String.eqb_refl].
Qed.

(** C9, amended: when the batch size is configured and, for a classifier,
    the class labels are integers, a model whose metric is neither
    'minkowski' nor 'euclidean', or whose weights are neither 'uniform' nor
    'distance', is refused with a [NotImplementedError]; its message does
    not contain the refused value: for a classifier it is a fixed sentence
    that names the supported values.  A model with a supported metric and
    supported weights passes both checks and is converted. *)
Theorem kneighbors_unsupported {Data Labels : Type} (BATCH_SIZE : string)
    (operator : raw_operator Data Labels) (extra_config : gmap string Z)
    (is_classifier : bool) (batch_size : Z) :
  let converted :=
    _convert_kneighbors_model BATCH_SIZE operator extra_config is_classifier in
  extra_config !! BATCH_SIZE = Some batch_size ->
  (is_classifier = true -> forallb is_int_label (classes_ operator) = true) ->
  (~ In (metric operator) ["minkowski"; "euclidean"] ->
   exists msg,
     converted = Raise (NotImplementedError msg)
     /\ (is_classifier = true ->
         msg = "Hummingbird currently supports only the metric type 'minkowski' and 'euclidean' for KNeighborsClassifier"))
  /\ (In (metric operator) ["minkowski"; "euclidean"] ->
      ~ In (weights operator) ["uniform"; "distance"] ->
      exists msg,
        converted = Raise (NotImplementedError msg)
        /\ (is_classifier = true ->
            msg = "Hummingbird currently supports only the weights type 'uniform' and 'distance' for KNeighborsClassifier"))
  /\ (In (metric operator) ["minkowski"; "euclidean"] ->
      In (weights operator) ["uniform"; "distance"] ->
      exists model,
        converted = Ok model
        /\ model_weights _ _ model = weights operator
        /\ model_batch_size _ _ model = batch_size
        /\ model_is_classifier _ _ model = is_classifier).
Proof.
  intros converted Hbatch Hlabels. subst converted.
  unfold _convert_kneighbors_model. rewrite Hbatch.
  assert (Hclasses : exists classes,
    (if is_classifier
     then if forallb is_int_label (classes_ operator)
          then Ok (Some (classes_ operator))
          else Raise (RuntimeError
                        "Hummingbird supports only integer labels for class labels.")
     else Ok None) = Ok classes).
  { destruct is_classifier; [rewrite Hlabels by reflexivity|]; eauto. }
  destruct Hclasses as [classes ->]. cbn [bind].
  repeat apply conj.
  - intros Hmetric. rewrite <- str_in_In in Hmetric.
    apply not_true_is_false in Hmetric. rewrite Hmetric. cbn [negb].
    eexists. split; [reflexivity|]. now intros ->.
  - intros Hmetric Hweights. rewrite <- str_in_In in Hmetric, Hweights.
    apply not_true_is_false in Hweights. rewrite Hmetric, Hweights. cbn [negb].
    eexists. split; [reflexivity|]. now intros ->.
  - intros Hmetric Hweights. rewrite <- str_in_In in Hmetric, Hweights.
    rewrite Hmetric, Hweights. cbn [negb]. eexists. split; [reflexivity|].
    cbn. auto.
Qed.

End KNeighborsProperties.

Lemma kneighbors_unsupported_witness :
  exists msg,
    KNeighbors._convert_kneighbors_model "batch_size" (knn_example "manhattan" "uniform")
      knn_config true
    = Raise (NotImplementedError msg)
    /\ (true = true ->
        msg = "Hummingbird currently supports only the metric type 'minkowski' and 'euclidean' for KNeighborsClassifier").
Proof.
  apply (proj1 (KNeighborsProperties.kneighbors_unsupported "batch_size"
                  (knn_example "manhattan" "uniform") knn_config true 10
                  eq_refl (fun _ => eq_refl))).
  cbn. intros [H|[H|[]]]; discriminate.
Defined.

(** C9 as stated fails: the message of the refusal of the metric 'manhattan'
    does not contain 'manhattan', and without a configured batch size the
    same model is refused with a [RuntimeError] about the batch size. *)
Lemma kneighbors_message_counterexample :
  KNeighbors._convert_kneighbors_model "batch_size" (knn_example "manhattan" "uniform")
    knn_config true
  = Raise (NotImplementedError
             "Hummingbird currently supports only the metric type 'minkowski' and 'euclidean' for KNeighborsClassifier")
  /\ KNeighbors.occurs_in "manhattan"
       "Hummingbird currently supports only the metric type 'minkowski' and 'euclidean' for KNeighborsClassifier"
     = false
  /\ KNeighbors._convert_kneighbors_model "batch_size" (knn_example "manhattan" "uniform")
       ∅ true
     = Raise (RuntimeError
                "Hummingbird requires explicit specification of batch_size parameter when compiling KNeighborsClassifier").
Proof.
  repeat split; vm_compute; reflexivity.
Qed.

(** *** The numeric label encoder on examples *)

Lemma numeric_forward_first_match_witness :
  exists idx,
    LabelEncoders.numeric_forward (LabelEncoders.MkNumericLabelEncoder [10; 20; 10]) [10; 20]
    = Ok idx
    /\ idx = map (fun q => LabelEncoders.argmax_row (LabelEncoders.eq_mask [10; 20; 10] q))
               [10; 20]
    /\ forall i q,
        nth_error [10; 20] i = Some q -> In q [10; 20; 10] ->
        exists j,
          nth_error idx i = Some j
          /\ nth_error [10; 20; 10] j = Some q
          /\ forall j', (j' < j)%nat -> nth_error [10; 20; 10] j' <> Some q.
Proof.
  exact (proj1 (NumericEncoderProperties.numeric_forward_first_match [10; 20; 10]
                  (LabelEncoders.MkNumericLabelEncoder [10; 20; 10]) [10; 20]
                  eq_refl ltac:(discriminate))).
Defined.

Lemma numeric_forward_unseen_witness :
  exists idx,
    LabelEncoders.numeric_forward (LabelEncoders.MkNumericLabelEncoder [10; 20]) [20; 30]
    = Ok idx
    /\ (forall i q,
          nth_error [20; 30] i = Some q -> ~ In q [10; 20] ->
          nth_error idx i = Some O
          /\ List.Forall (fun v => v = 0) (LabelEncoders.eq_mask [10; 20] q))
    /\ (forall q first,
          ~ In q [10; 20] -> hd_error [10; 20] = Some first ->
          LabelEncoders.numeric_forward (LabelEncoders.MkNumericLabelEncoder [10; 20]) [q]
          = Ok [O]
          /\ LabelEncoders.numeric_forward (LabelEncoders.MkNumericLabelEncoder [10; 20]) [first]
             = Ok [O]).
Proof.
  exact (NumericEncoderProperties.numeric_forward_unseen [10; 20]
           (LabelEncoders.MkNumericLabelEncoder [10; 20]) [20; 30]
           eq_refl ltac:(discriminate)).
Defined.

(** ** The string label encoder *)

Module StringEncoderProperties.
Import LabelEncoders.

(** *** [sorted(set(classes))] *)

Lemma label_lt_trans (a b c : string) : label_lt a b -> label_lt b c -> label_lt a c.
Proof.
  unfold label_lt. intros Hab Hbc.
  apply String_as_OT.cmp_lt. apply String_as_OT.cmp_lt in Hab, Hbc.
  eapply String_as_OT.lt_trans; eassumption.
Qed.

Lemma label_lt_irrefl (a : string) : ~ label_lt a a.
Proof.
  unfold label_lt. intros H.
  assert (Heq : String.compare a a = Eq) by now apply String_as_OT.cmp_eq.
  congruence.
Qed.

Lemma label_gt_lt (a b : string) : String.compare a b = Gt -> label_lt b a.
Proof.
  unfold label_lt. intros H. rewrite String.compare_antisym, H. reflexivity.
Qed.

Lemma insert_label_In (x s : string) (sorted : list string) :
  In s (insert_label x sorted) <-> s = x \/ In s sorted.
Proof.
  induction sorted as [|t sorted IH]; cbn [insert_label].
  - cbn. intuition.
  - destruct (String.compare x t) eqn:Hc; cbn [In].
    + apply String.compare_eq_iff in Hc. subst. intuition.
    + intuition.
    + rewrite IH. intuition.
Qed.

Lemma insert_label_sorted (x : string) (sorted : list string) :
  StronglySorted label_lt sorted -> StronglySorted label_lt (insert_label x sorted).
Proof.
  induction sorted as [|t sorted IH]; intros Hs; cbn [insert_label].
  - repeat constructor.
  - apply StronglySorted_inv in Hs. destruct Hs as [Hs Hall].
    destruct (String.compare x t) eqn:Hc.
    + now constructor.
    + constructor; [now constructor|].
      constructor; [exact Hc|].
      eapply List.Forall_impl; [|exact Hall]. intros u. now apply label_lt_trans.
    + constructor; [now apply IH|].
      apply List.Forall_forall. intros u Hu. apply insert_label_In in Hu.
      destruct Hu as [->|Hu]; [now apply label_gt_lt|].
      rewrite List.Forall_forall in Hall. now apply Hall.
Qed.

Lemma sorted_set_In (s : string) (classes : list string) :
  In s (sorted_set classes) <-> In s classes.
Proof.
  induction classes as [|c classes IH]; cbn; [tauto|].
  rewrite insert_label_In, IH. intuition.
Qed.

Lemma sorted_set_sorted (classes : list string) :
  StronglySorted label_lt (sorted_set classes).
Proof.
  induction classes as [|c classes IH]; cbn; [constructor|].
  now apply insert_label_sorted.
Qed.

Lemma sorted_NoDup (l : list string) : StronglySorted label_lt l -> List.NoDup l.
Proof.
  induction 1 as [|a l Hs IH Hall]; constructor; [|exact IH].
  intros Hin. rewrite List.Forall_forall in Hall.
  now apply (label_lt_irrefl a), Hall.
Qed.

(** *** The fixed-width encoding *)

Lemma byte_of_range (c : ascii) : is_byte (byte_of c).
Proof.
  unfold is_byte, byte_of. pose proof (N_ascii_bounded c). lia.
Qed.

Lemma byte_of_inj (c d : ascii) : byte_of c = byte_of d -> c = d.
Proof.
  unfold byte_of. intros H. apply N2Z.inj in H.
  rewrite <- (ascii_N_embedding c), <- (ascii_N_embedding d). now f_equal.
Qed.

Lemma bytes_inj (a b : string) :
  map byte_of (list_ascii_of_string a) = map byte_of (list_ascii_of_string b) ->
  a = b.
Proof.
  intros H.
  rewrite <- (string_of_list_ascii_of_string a), <- (string_of_list_ascii_of_string b).
  f_equal. revert H. generalize (list_ascii_of_string a) (list_ascii_of_string b).
  induction l as [|c l IH]; intros [|d l']; cbn; try discriminate; [reflexivity|].
  intros [= Hcd Hl]. f_equal; [now apply byte_of_inj|now apply IH].
Qed.

Lemma length_bytes (s : string) :
  length (map byte_of (list_ascii_of_string s)) = String.length s.
Proof.
  rewrite length_map. induction s; cbn; congruence.
Qed.

Lemma length_fixed_width (width : nat) (s : string) :
  length (fixed_width width s) = width.
Proof.
  unfold fixed_width. rewrite length_app, length_firstn, repeat_length. lia.
Qed.

Lemma fixed_width_bytes (width : nat) (s : string) :
  List.Forall is_byte (fixed_width width s).
Proof.
  unfold fixed_width. apply Forall_app. split.
  - apply List.Forall_forall. intros b Hb.
    assert (Hin : In b (map byte_of (list_ascii_of_string s)))
      by (rewrite <- (firstn_skipn width); apply in_or_app; now left).
    clear Hb. rename Hin into Hb. apply in_map_iff in Hb. destruct Hb as (c & <- & _). apply byte_of_range.
  - apply List.Forall_forall. intros b Hb. apply repeat_spec in Hb.
    subst. unfold is_byte. lia.
Qed.

(** Filling with zeros loses nothing of a list that does not end with zero. *)
Lemma zero_fill_inj (a b : list Z) (ka kb : nat) :
  List.last a 1 <> 0 -> List.last b 1 <> 0 ->
  a ++ repeat 0 ka = b ++ repeat 0 kb -> a = b.
Proof.
  assert (Hzeros : forall (l : list Z) k (x : Z) rest,
            repeat 0 k = (x :: l) ++ rest -> List.last (x :: l) 1 = 0).
  { intros l k x rest Heq.
    assert (Hall : List.Forall (fun v => v = 0) ((x :: l) ++ rest)).
    { rewrite <- Heq. apply List.Forall_forall. intros v Hv.
      now apply repeat_spec in Hv. }
    apply Forall_app in Hall. destruct Hall as [Hall _].
    rewrite List.Forall_forall in Hall. apply Hall.
    generalize x. clear. induction l as [|y l IH]; intros x; [now left|].
    right. apply (IH y). }
  revert b. induction a as [|x a IH]; intros [|y b] Ha Hb Heq.
  - reflexivity.
  - cbn [app] in Heq. now apply Hzeros in Heq.
  - cbn [app] in Heq. symmetry in Heq. now apply Hzeros in Heq.
  - cbn [app] in Heq. injection Heq as -> Heq. f_equal.
    apply IH; [| |exact Heq].
    + destruct a; [cbn; lia|exact Ha].
    + destruct b; [cbn; lia|exact Hb].
Qed.

Lemma fixed_width_inj (width : nat) (a b : string) :
  text_label a -> text_label b ->
  (String.length a <= width)%nat -> (String.length b <= width)%nat ->
  fixed_width width a = fixed_width width b -> a = b.
Proof.
  unfold text_label, ends_with_nul, fixed_width. intros Ha Hb Hla Hlb Heq.
  apply Z.eqb_neq in Ha, Hb.
  rewrite !firstn_all2 in Heq by (rewrite length_bytes; lia).
  apply bytes_inj. eapply zero_fill_inj; eassumption.
Qed.

Lemma int32_of_bytes_inj (a0 a1 a2 a3 b0 b1 b2 b3 : Z) :
  is_byte a0 -> is_byte a1 -> is_byte a2 -> is_byte a3 ->
  is_byte b0 -> is_byte b1 -> is_byte b2 -> is_byte b3 ->
  int32_of_bytes a0 a1 a2 a3 = int32_of_bytes b0 b1 b2 b3 ->
  a0 = b0 /\ a1 = b1 /\ a2 = b2 /\ a3 = b3.
Proof.
  unfold is_byte, int32_of_bytes. intros.
  destruct (Z.ltb_spec (a0 + 256 * a1 + 65536 * a2 + 16777216 * a3) 2147483648);
    destruct (Z.ltb_spec (b0 + 256 * b1 + 65536 * b2 + 16777216 * b3) 2147483648);
    lia.
Qed.

Lemma view_int32_inj (words : nat) :
  forall a b : list Z,
    length a = (4 * words)%nat -> length b = (4 * words)%nat ->
    List.Forall is_byte a -> List.Forall is_byte b ->
    view_int32 a = view_int32 b -> a = b.
Proof.
  induction words as [|words IH]; intros a b Hla Hlb Ha Hb Heq.
  - destruct a, b; cbn in *; try lia. reflexivity.
  - destruct a as [|a0 [|a1 [|a2 [|a3 a]]]]; cbn in Hla; try lia.
    destruct b as [|b0 [|b1 [|b2 [|b3 b]]]]; cbn in Hlb; try lia.
    cbn [view_int32] in Heq. injection Heq as Hword Hrest.
    repeat match goal with
           | H : List.Forall _ (_ :: _) |- _ => apply Forall_cons in H; destruct H
           end.
    apply int32_of_bytes_inj in Hword; try assumption.
    destruct Hword as (-> & -> & -> & ->).
    repeat f_equal. apply IH; (assumption || lia).
Qed.

Lemma length_view_int32 (words : nat) :
  forall bytes : list Z,
    length bytes = (4 * words)%nat -> length (view_int32 bytes) = words.
Proof.
  induction words as [|words IH]; intros bytes Hl.
  - now destruct bytes.
  - destruct bytes as [|b0 [|b1 [|b2 [|b3 bytes]]]]; cbn in Hl; try lia.
    cbn [view_int32 length]. f_equal. apply IH. lia.
Qed.

Lemma length_encode_label (words : nat) (s : string) :
  length (encode_label words s) = words.
Proof.
  unfold encode_label. apply length_view_int32, length_fixed_width.
Qed.

Lemma encode_label_inj (words : nat) (a b : string) :
  text_label a -> text_label b ->
  (String.length a <= 4 * words)%nat -> (String.length b <= 4 * words)%nat ->
  encode_label words a = encode_label words b -> a = b.
Proof.
  unfold encode_label. intros Ha Hb Hla Hlb Heq.
  apply (fixed_width_inj (4 * words)); try assumption.
  apply (view_int32_inj words);
    auto using length_fixed_width, fixed_width_bytes.
Qed.

(** *** [forward] *)

Lemma chunks_concat (words : nat) (rows : list (list Z)) :
  (0 < words)%nat ->
  List.Forall (fun r => length r = words) rows ->
  forall fuel, (length rows <= fuel)%nat ->
    chunks fuel words (concat rows) = rows.
Proof.
  intros Hw. induction 1 as [|r rows Hr Hrows IH]; intros fuel Hfuel.
  - destruct fuel; reflexivity.
  - destruct fuel as [|fuel]; [cbn in Hfuel; lia|]. cbn [concat chunks].
    destruct (r ++ concat rows) as [|z zs] eqn:Hx.
    { apply (f_equal (@length _)) in Hx. rewrite length_app in Hx. cbn in Hx. lia. }
    rewrite <- Hx.
    rewrite firstn_app, skipn_app, Hr, Nat.sub_diag, firstn_all2, skipn_all2 by lia.
    cbn [firstn skipn app]. rewrite app_nil_r. f_equal. apply IH. cbn in Hfuel. lia.
Qed.

Lemma length_concat_rows (words : nat) (rows : list (list Z)) :
  List.Forall (fun r => length r = words) rows ->
  length (concat rows) = (words * length rows)%nat.
Proof.
  induction 1 as [|r rows Hr Hrows IH]; cbn; [lia|].
  rewrite length_app, IH, Hr. lia.
Qed.

Lemma torch_view_rows_encoded (words : nat) (labels : list string) :
  (0 < words)%nat ->
  torch_view_rows words (flat_map (encode_label words) labels)
  = Ok (map (encode_label words) labels).
Proof.
  intros Hw. unfold torch_view_rows. rewrite flat_map_concat_map.
  assert (Hrows : List.Forall (fun r => length r = words)
                    (map (encode_label words) labels)).
  { apply List.Forall_forall. intros r Hr. apply in_map_iff in Hr.
    destruct Hr as (s & <- & _). apply length_encode_label. }
  rewrite (length_concat_rows words) by assumption.
  destruct (Nat.eqb_spec words 0); [lia|].
  rewrite Nat.mul_comm, Nat.Div0.mod_mul. cbn [Nat.eqb negb orb].
  f_equal. apply chunks_concat; [assumption|assumption|].
  rewrite length_map. nia.
Qed.

Lemma prod_eq_same (c : list Z) : prod_eq c c = 1.
Proof.
  induction c as [|v c IH]; cbn; [reflexivity|]. rewrite Z.eqb_refl, IH. reflexivity.
Qed.

Lemma prod_eq_differ (c : list Z) :
  forall q, length c = length q -> c <> q -> prod_eq c q = 0.
Proof.
  induction c as [|v c IH]; intros [|w q] Hlen Hne; cbn in *; try congruence; try lia.
  destruct (Z.eqb_spec v w) as [->|]; [|reflexivity].
  rewrite IH; [reflexivity|lia|congruence].
Qed.

Lemma nonzero_columns_miss (condition_tensors : list (list Z)) (q : list Z) :
  List.Forall (fun c => length c = length q) condition_tensors ->
  ~ In q condition_tensors ->
  forall j, nonzero_columns j condition_tensors q = [].
Proof.
  induction 1 as [|c rest Hc Hrest IH]; intros Hnot j; cbn; [reflexivity|].
  rewrite prod_eq_differ, Z.eqb_refl by (assumption || (intros ->; apply Hnot; now left)).
  apply IH. intros Hin. apply Hnot. now right.
Qed.

Lemma nonzero_columns_hit (condition_tensors : list (list Z)) (q : list Z) :
  List.Forall (fun c => length c = length q) condition_tensors ->
  List.NoDup condition_tensors ->
  forall i j,
    nth_error condition_tensors i = Some q ->
    nonzero_columns j condition_tensors q = [(j + i)%nat].
Proof.
  induction 1 as [|c rest Hc Hrest IH]; intros Hnodup i j Hi.
  - now destruct i.
  - apply NoDup_cons_iff in Hnodup. destruct Hnodup as [Hfresh Hnodup].
    cbn [nonzero_columns]. destruct i as [|i]; cbn [nth_error] in Hi.
    + injection Hi as ->. rewrite prod_eq_same. cbn.
      rewrite nonzero_columns_miss by assumption. f_equal. lia.
    + rewrite prod_eq_differ, Z.eqb_refl.
      * rewrite (IH Hnodup i (S j) Hi). f_equal. lia.
      * assumption.
      * intros ->. apply Hfresh. eapply nth_error_In. exact Hi.
Qed.

(** The rounding of the longest length to a multiple of four. *)
Lemma pad_to_word_spec (n : nat) :
  (n <= pad_to_word 3 n)%nat /\ (pad_to_word 3 n mod 4 = 0)%nat.
Proof.
  cbn [pad_to_word].
  pose proof (Nat.mod_upper_bound n 4 ltac:(lia)) as Hb.
  pose proof (Nat.div_mod_eq n 4) as Hn.
  destruct (Nat.eqb_spec (n mod 4) 0) as [H0|H0]; [lia|].
  assert (H1 : (S n mod 4 = S (n mod 4) mod 4)%nat).
  { replace (S n) with (S (n mod 4) + n / 4 * 4)%nat by lia.
    now rewrite Nat.Div0.mod_add. }
  destruct (Nat.eqb_spec (S n mod 4) 0) as [H1z|H1z]; [lia|].
  assert (H2 : (S (S n) mod 4 = S (S (n mod 4)) mod 4)%nat).
  { replace (S (S n)) with (S (S (n mod 4)) + n / 4 * 4)%nat by lia.
    now rewrite Nat.Div0.mod_add. }
  destruct (Nat.eqb_spec (S (S n) mod 4) 0) as [H2z|H2z]; [lia|].
  assert (H3 : (S (S (S n)) mod 4 = S (S (S (n mod 4))) mod 4)%nat).
  { replace (S (S (S n))) with (S (S (S (n mod 4))) + n / 4 * 4)%nat by lia.
    now rewrite Nat.Div0.mod_add. }
  split; [lia|]. rewrite H3.
  destruct (n mod 4)%nat as [|[|[|[|r]]]] eqn:Hr; cbn in *; try lia; try congruence.
Qed.

Lemma py_max_bound (l : list nat) (m : nat) :
  py_max l = Ok m -> List.Forall (fun n => (n <= m)%nat) l.
Proof.
  destruct l as [|n rest]; [discriminate|]. cbn [py_max]. intros [= <-].
  assert (Hfold : forall rest acc,
            (acc <= fold_left Nat.max rest acc)%nat
            /\ List.Forall (fun n => (n <= fold_left Nat.max rest acc)%nat) rest).
  { induction rest0 as [|k rest0 IH]; intros acc; cbn; [split; [lia|constructor]|].
    destruct (IH (Nat.max acc k)) as [Hacc Hall]. split; [lia|].
    constructor; [lia|exact Hall]. }
  destruct (Hfold rest n). now constructor.
Qed.

(** What [__init__] builds. *)
Lemma StringLabelEncoder_init_spec (classes : list string) (enc : StringLabelEncoder) :
  StringLabelEncoder_init classes = Ok enc ->
  (0 < max_word_length enc)%nat
  /\ condition_tensors enc
     = map (encode_label (max_word_length enc)) (sorted_set classes)
  /\ List.Forall (fun c => (String.length c <= 4 * max_word_length enc)%nat) classes.
Proof.
  unfold StringLabelEncoder_init.
  destruct (py_max (map String.length classes)) as [longest|e] eqn:Hmax;
    cbn [bind]; [|discriminate].
  destruct (pad_to_word_spec longest) as [Hle Hmod].
  remember (pad_to_word 3 longest) as padded eqn:Hpadded. clear Hpadded.
  destruct (Nat.eqb_spec padded 0) as [|Hpos]; [discriminate|].
  intros [= <-]. cbn [max_word_length condition_tensors].
  pose proof (Nat.div_mod_eq padded 4) as Hdiv.
  change (fst (Nat.divmod padded 3 0 3)) with (padded / 4)%nat.
  repeat split.
  - lia.
  - apply py_max_bound in Hmax. rewrite List.Forall_forall in *.
    intros c Hc. specialize (Hmax (String.length c) (in_map _ _ _ Hc)). lia.
Qed.

Lemma in_classes_dec (q : string) (classes : list string) :
  In q classes \/ ~ In q classes.
Proof. destruct (in_dec string_dec q classes); auto. Qed.

Section Lookup.

Variables (classes : list string) (enc : StringLabelEncoder).
Hypothesis Hinit : StringLabelEncoder_init classes = Ok enc.
Hypothesis Hclasses : List.Forall text_label classes.

Let words := max_word_length enc.
Let vocabulary := sorted_set classes.

Lemma condition_rows : condition_tensors enc = map (encode_label words) vocabulary.
Proof. now destruct (StringLabelEncoder_init_spec classes enc Hinit) as (_ & -> & _). Qed.

Lemma vocabulary_text (s : string) :
  In s vocabulary -> text_label s /\ (String.length s <= 4 * words)%nat.
Proof.
  intros Hin. apply (proj1 (sorted_set_In s classes)) in Hin.
  destruct (StringLabelEncoder_init_spec classes enc Hinit) as (_ & _ & Hfit).
  pose proof Hclasses as Htext.
  rewrite List.Forall_forall in Htext, Hfit.
  split; [now apply Htext|now apply Hfit].
Qed.

Lemma condition_rows_NoDup : List.NoDup (condition_tensors enc).
Proof.
  rewrite condition_rows. apply NoDup_map_NoDup_ForallPairs.
  - intros a b Ha Hb Heq.
    apply vocabulary_text in Ha, Hb. destruct Ha, Hb.
    now apply (encode_label_inj words).
  - apply sorted_NoDup, sorted_set_sorted.
Qed.

Lemma condition_rows_length (q : string) :
  List.Forall (fun c => length c = length (encode_label words q)) (condition_tensors enc).
Proof.
  rewrite condition_rows. apply List.Forall_forall. intros c Hc.
  apply in_map_iff in Hc. destruct Hc as (s & <- & _).
  now rewrite !length_encode_label.
Qed.

(** The columns that [forward] finds for one label: its position in the
    vocabulary when it is a class, none otherwise. *)
Lemma label_columns (q : string) :
  text_label q -> fits enc q ->
  (In q classes ->
   exists i, nth_error vocabulary i = Some q
             /\ nonzero_columns 0 (condition_tensors enc) (encode_label words q) = [i])
  /\ (~ In q classes ->
      nonzero_columns 0 (condition_tensors enc) (encode_label words q) = []).
Proof.
  intros Htext Hfits. split.
  - intros Hin. apply (proj2 (sorted_set_In q classes)) in Hin.
    apply In_nth_error in Hin. destruct Hin as [i Hi]. exists i. split; [exact Hi|].
    rewrite (nonzero_columns_hit _ _ (condition_rows_length q) condition_rows_NoDup i 0).
    + reflexivity.
    + rewrite condition_rows, nth_error_map. unfold vocabulary. now rewrite Hi.
  - intros Hnot. apply nonzero_columns_miss; [apply condition_rows_length|].
    rewrite condition_rows. intros Hin. apply in_map_iff in Hin.
    destruct Hin as (s & Heq & Hs). pose proof (vocabulary_text s Hs) as [Hts Hls].
    apply (encode_label_inj words) in Heq; try assumption.
    subst s. apply Hnot. now apply (proj1 (sorted_set_In q classes)).
Qed.

Lemma forward_columns (labels : list string) :
  List.Forall text_label labels -> List.Forall (fits enc) labels ->
  let found :=
    flat_map (nonzero_columns 0 (condition_tensors enc))
      (map (encode_label words) labels) in
  (length found <= length labels)%nat
  /\ (List.Forall (fun q => In q classes) labels ->
      Forall2 (fun q i => nth_error vocabulary i = Some q) labels found)
  /\ (List.Exists (fun q => ~ In q classes) labels ->
      (length found < length labels)%nat).
Proof.
  induction labels as [|q labels IH]; intros Htext Hfits; cbn zeta.
  - cbn. repeat split; [lia|constructor|]. intros H. inversion H.
  - apply Forall_cons in Htext, Hfits.
    destruct Htext as [Hq Htext], Hfits as [Hfq Hfits].
    destruct (IH Htext Hfits) as (Hle & Hall & Hex).
    destruct (label_columns q Hq Hfq) as [Hhit Hmiss].
    cbn [map flat_map]. rewrite length_app. repeat split.
    + destruct (in_classes_dec q classes) as [Hin|Hnot].
      * destruct (Hhit Hin) as (i & _ & ->). cbn. lia.
      * rewrite (Hmiss Hnot). cbn. lia.
    + intros Hin. apply Forall_cons in Hin. destruct Hin as [Hin Hins].
      destruct (Hhit Hin) as (i & Hi & ->). cbn [app].
      constructor; [exact Hi|now apply Hall].
    + intros Hexists. apply Exists_cons in Hexists.
      destruct Hexists as [Hnot|Hexists].
      * rewrite (Hmiss Hnot). cbn. lia.
      * specialize (Hex Hexists).
        destruct (in_classes_dec q classes) as [Hin|Hnot].
        -- destruct (Hhit Hin) as (i & _ & ->). cbn. lia.
        -- rewrite (Hmiss Hnot). cbn. lia.
Qed.

End Lookup.

(** C4: the string label encoder built from the classes keeps the distinct
    classes in increasing order.  For labels presented to [forward] in the
    encoder's fixed-width encoding, every label being text that fits one
    row: when all labels are classes, [forward] returns for each label its
    position in that vocabulary, which holds it only once; when some label
    is not a class, [forward] raises the error that carries the input and
    the condition tensors.  With the classes paris, milan, amsterdam and
    tokyo the label paris gets the index 2. *)
Theorem string_forward_index (classes : list string) (enc : StringLabelEncoder)
    (labels : list string) :
  StringLabelEncoder_init classes = Ok enc ->
  List.Forall text_label classes ->
  List.Forall text_label labels ->
  List.Forall (fits enc) labels ->
  let vocabulary := sorted_set classes in
  StronglySorted label_lt vocabulary
  /\ List.NoDup vocabulary
  /\ (forall s, In s vocabulary <-> In s classes)
  /\ (List.Forall (fun q => In q classes) labels ->
      exists idx,
        forward enc (encode_query enc labels) = Ok idx
        /\ Forall2 (fun q i => nth_error vocabulary i = Some q) labels idx)
  /\ (List.Exists (fun q => ~ In q classes) labels ->
      forward enc (encode_query enc labels)
      = Raise (UnseenLabels (map (encode_label (max_word_length enc)) labels)
                 (condition_tensors enc)))
  /\ (exists cities,
        StringLabelEncoder_init ["paris"; "milan"; "amsterdam"; "tokyo"] = Ok cities
        /\ sorted_set ["paris"; "milan"; "amsterdam"; "tokyo"]
           = ["amsterdam"; "milan"; "paris"; "tokyo"]
        /\ forward cities (encode_query cities ["paris"]) = Ok [2%nat]).
Proof.
  intros Hinit Hclasses Htext Hfits vocabulary.
  pose proof (sorted_set_sorted classes) as Hsorted.
  destruct (StringLabelEncoder_init_spec classes enc Hinit) as (Hwords & _ & _).
  destruct (forward_columns classes enc Hinit Hclasses labels Htext Hfits)
    as (Hle & Hall & Hex).
  assert (Hforward :
    forward enc (encode_query enc labels)
    = let found :=
        flat_map (nonzero_columns 0 (condition_tensors enc))
          (map (encode_label (max_word_length enc)) labels) in
      if (length found =? length labels)%nat then Ok found
      else Raise (UnseenLabels (map (encode_label (max_word_length enc)) labels)
                    (condition_tensors enc))).
  { unfold forward, encode_query.
    rewrite torch_view_rows_encoded by assumption. cbn [bind].
    now rewrite length_map. }
  repeat apply conj.
  - exact Hsorted.
  - now apply sorted_NoDup.
  - intros s. apply sorted_set_In.
  - intros Hin. specialize (Hall Hin). eexists. split; [|exact Hall].
    rewrite Hforward. cbn zeta.
    apply Forall2_length in Hall. rewrite <- Hall, Nat.eqb_refl. reflexivity.
  - intros Hmiss. specialize (Hex Hmiss). rewrite Hforward. cbn zeta.
    destruct (Nat.eqb_spec
                (length (flat_map (nonzero_columns 0 (condition_tensors enc))
                           (map (encode_label (max_word_length enc)) labels)))
                (length labels)); [lia|reflexivity].
  - eexists. repeat split; vm_compute; reflexivity.
Qed.

End StringEncoderProperties.

(** *** The string label encoder on examples *)

Lemma string_forward_index_witness :
  (exists idx,
     LabelEncoders.forward cities_encoder
       (LabelEncoders.encode_query cities_encoder ["tokyo"; "milan"])
     = Ok idx
     /\ Forall2 (fun q i => nth_error (LabelEncoders.sorted_set cities) i = Some q)
          ["tokyo"; "milan"] idx)
  /\ LabelEncoders.forward cities_encoder
       (LabelEncoders.encode_query cities_encoder ["tokyo"; "rome"])
     = Raise (UnseenLabels
                (map (LabelEncoders.encode_label 3) ["tokyo"; "rome"])
                (LabelEncoders.condition_tensors cities_encoder)).
Proof.
  assert (Hcities : List.Forall text_label cities)
    by (repeat (apply List.Forall_cons || apply List.Forall_nil); reflexivity).
  split.
  - refine (proj1 (proj2 (proj2 (proj2
              (StringEncoderProperties.string_forward_index cities cities_encoder
                 ["tokyo"; "milan"] eq_refl Hcities _ _)))) _);
      repeat (apply List.Forall_cons || apply List.Forall_nil);
      try reflexivity; try (unfold fits; cbn; lia); cbn; tauto.
  - refine (proj1 (proj2 (proj2 (proj2 (proj2
              (StringEncoderProperties.string_forward_index cities cities_encoder
                 ["tokyo"; "rome"] eq_refl Hcities _ _))))) _).
    + repeat (apply List.Forall_cons || apply List.Forall_nil); reflexivity.
    + repeat (apply List.Forall_cons || apply List.Forall_nil); unfold fits; cbn; lia.
    + apply List.Exists_cons_tl, List.Exists_cons_hd. cbn. intuition discriminate.
Defined.

(** * Further properties of the batch execution engine *)

Section BatchCoverage.

Context {Cell Out V : Type}.
Implicit Types (function : @scoring Cell Out) (self : SklearnContainer V).
Implicit Types (inputs : list (@array2 Cell)).
Implicit Types (first : @array2 Cell) (rest : list (@array2 Cell)).

Lemma batch_plan_steps (B N : Z) inputs :
  0 < B -> 0 <= N ->
  batch_plan B N inputs
  = map (step B N (Z.max 1 (ceil_div N B)) inputs) (py_range (Z.max 1 (ceil_div N B))).
Proof.
  intros HB HN. unfold batch_plan, step. apply map_ext_in. intros i Hi.
  apply py_range_nonneg in Hi. f_equal. apply map_ext. intros l.
  rewrite py_slice_nonneg by nia. f_equal. lia.
Qed.

Lemma last_flag_set self (iterations : Z) (n : nat) :
  fold_left (fun s i => set_last_iteration (i =? iterations - 1) s)
    (map Z.of_nat (seq 0 (S n))) self
  = set_last_iteration (Z.of_nat n =? iterations - 1) self.
Proof.
  assert (Hframe : forall idxs (s0 : SklearnContainer V),
    _batch_size (fold_left (fun s i => set_last_iteration (i =? iterations - 1) s)
                   idxs s0) = _batch_size s0
    /\ _extra_config (fold_left (fun s i => set_last_iteration (i =? iterations - 1) s)
                        idxs s0) = _extra_config s0).
  { induction idxs as [|i idxs IH]; intros s0; cbn [fold_left]; [auto|].
    destruct (IH (set_last_iteration (i =? iterations - 1) s0)) as [-> ->]. auto. }
  rewrite seq_S, map_app, fold_left_app. cbn [map fold_left Nat.add].
  destruct (Hframe (map Z.of_nat (seq 0 n)) self) as [Hb Hc].
  unfold set_last_iteration at 1. rewrite Hb, Hc. reflexivity.
Qed.

(** The loop on a scoring function that never raises. *)
Lemma batch_loop_returns function (B N iterations : Z) inputs :
  forall indices self log predictions,
    returns_on function (map (step B N iterations inputs) indices) ->
    batch_loop function B N iterations inputs indices self log predictions
    = Outcome
        (fold_left (fun s i => set_last_iteration (i =? iterations - 1) s) indices self)
        (log ++ map (step B N iterations inputs) indices)
        (Ok (predictions
             ++ flat_map (fun c => scores function (fst c) (snd c))
                  (map (step B N iterations inputs) indices))).
Proof.
  unfold returns_on, step.
  induction indices as [|i indices IH]; intros self log predictions Hret.
  - cbn. now rewrite !app_nil_r.
  - cbn [map] in Hret. inversion Hret as [|c plan Hhead Htail]; subst.
    cbn [fst snd] in Hhead.
    cbn [batch_loop set_last_iteration _last_iteration map fold_left flat_map fst snd].
    fold (set_last_iteration (i =? iterations - 1) self).
    destruct (function (i =? iterations - 1)
                (map (py_slice (i * B) (Z.min (i * B + B) N)) inputs))
      as [out|e] eqn:Hout; [|discriminate].
    rewrite (IH _ _ _ Htail).
    rewrite (scores_ok _ _ _ _ Hout), <- !app_assoc. reflexivity.
Qed.

(** The batched path on a scoring function that never raises. *)
Lemma batched_run_returns self function first rest reshape (B : Z) :
  let N := Z.of_nat (length first) in
  let plan := batch_plan B N (first :: rest) in
  let values := flat_map (fun c => scores function (fst c) (snd c)) plan in
  _batch_size self = Some B -> 0 < B -> N <> B -> returns_on function plan ->
  _run_batch_inference self function (first :: rest) reshape
  = Outcome (set_last_iteration true self) plan
      (if reshape then reshape_rows N (np_array values) else Ok (np_array values)).
Proof.
  intros N plan values HB HBpos Hne Hret. subst plan values.
  unfold _run_batch_inference. rewrite HB. fold N.
  destruct (Z.eqb_spec N B); [contradiction|].
  destruct (Z.eqb_spec B 0); [lia|].
  rewrite iterations_ceil by lia.
  rewrite (batch_plan_steps B N) in * by (assumption || lia).
  set (iterations := Z.max 1 (ceil_div N B)) in *.
  rewrite batch_loop_returns by assumption.
  cbn [self_after calls returned bind app]. f_equal.
  unfold py_range. destruct (Z.to_nat iterations) as [|m] eqn:Hm; [lia|].
  rewrite last_flag_set. f_equal. apply Z.eqb_eq. lia.
Qed.

Lemma run_batched self function (inputs : run_inputs) first rest reshape (B : Z) :
  arrays_of inputs = first :: rest -> _batch_size self = Some B ->
  _run self function inputs reshape
  = _run_batch_inference self function (first :: rest) reshape.
Proof.
  intros Harrays HB. unfold _run, arrays_of in *.
  destruct inputs as [[|a arrays]|columns]; [discriminate| |];
    rewrite Harrays, HB; reflexivity.
Qed.

(** The whole of a batched run: for a positive batch size other than the
    row count and a scoring function that returns on each partition, [_run]
    calls the scoring function on the partitions in order, returns the
    flattened outputs of these calls one after the other (reshaped to
    [(N, -1)] when [reshape] is set), and leaves [_last_iteration] set. *)
Theorem batched_run_concatenates self function (inputs : run_inputs) first rest
    reshape (B : Z) :
  let N := Z.of_nat (length first) in
  let plan := batch_plan B N (first :: rest) in
  let values := flat_map (fun c => scores function (fst c) (snd c)) plan in
  arrays_of inputs = first :: rest ->
  _batch_size self = Some B -> 0 < B -> N <> B -> returns_on function plan ->
  _run self function inputs reshape
  = Outcome (set_last_iteration true self) plan
      (if reshape then reshape_rows N (np_array values) else Ok (np_array values)).
Proof.
  intros N plan values Harrays HB HBpos Hne Hret.
  rewrite (run_batched self function inputs first rest reshape B) by assumption.
  now apply (batched_run_returns self function first rest reshape B).
Qed.

Lemma firstn_range {A} (a b : nat) (l : list A) :
  (a <= b)%nat -> firstn a l ++ firstn (b - a) (skipn a l) = firstn b l.
Proof.
  revert b l. induction a as [|a IH]; intros b l Hab.
  - cbn. now rewrite Nat.sub_0_r.
  - destruct l as [|x l]; [now rewrite !firstn_nil|].
    destruct b as [|b]; [lia|]. cbn. f_equal. apply IH. lia.
Qed.

(** Consecutive ranges of [B] rows put together are the first rows. *)
Lemma ranges_concat {A} (B : Z) (l : list A) (n : nat) :
  0 < B ->
  let N := Z.of_nat (length l) in
  flat_map (fun i => rows_range (i * B) (Z.min ((i + 1) * B) N) l)
    (map Z.of_nat (seq 0 n))
  = firstn (Z.to_nat (Z.min (Z.of_nat n * B) N)) l.
Proof.
  intros HB N. induction n as [|n IH].
  { cbn [seq map flat_map].
    now replace (Z.to_nat (Z.min (Z.of_nat 0 * B) N)) with 0%nat by lia. }
  rewrite seq_S, map_app, flat_map_app, IH. cbn [map flat_map Nat.add].
  rewrite app_nil_r. unfold rows_range.
  destruct (Z.le_gt_cases N (Z.of_nat n * B)) as [Hdone|Hmore].
  - replace (Z.to_nat (Z.min ((Z.of_nat n + 1) * B) N - Z.of_nat n * B)) with 0%nat
      by lia.
    cbn [firstn]. rewrite app_nil_r. f_equal. lia.
  - rewrite <- (firstn_range (Z.to_nat (Z.min (Z.of_nat n * B) N))
                  (Z.to_nat (Z.min (Z.of_nat (S n) * B) N))) by lia.
    f_equal. f_equal; [lia|f_equal; lia].
Qed.

Lemma nth_map_some {A B} (g : A -> B) (l : list A) (j : nat) (a : A) (d : B) :
  nth_error l j = Some a -> nth j (map g l) d = g a.
Proof.
  revert j. induction l as [|x l IH]; intros [|j] H; cbn in *; try discriminate.
  - now injection H as ->.
  - now apply IH.
Qed.

(** The batches of a plan cover the rows exactly. *)
Lemma plan_exact_cover first rest (B : Z) :
  let N := Z.of_nat (length first) in
  let inputs := first :: rest in
  let plan := batch_plan B N inputs in
  0 < B ->
  List.Forall (fun a => length a = length first) rest ->
  (forall j a,
     nth_error inputs j = Some a ->
     flat_map (fun c : @call Cell => nth j (snd c) []) plan = a)
  /\ List.Forall
       (fun c : @call Cell =>
          List.Forall (fun a => Z.of_nat (length a) <= B) (snd c)) plan
  /\ (forall k c,
        nth_error plan k = Some c -> (S k < length plan)%nat ->
        List.Forall (fun a => Z.of_nat (length a) = B) (snd c)).
Proof.
  intros N inputs plan HB Hrest.
  assert (Hlen : forall a, In a inputs -> length a = length first).
  { intros a [<-|Ha]; [reflexivity|].
    rewrite List.Forall_forall in Hrest. now apply Hrest. }
  pose proof (ceil_div_least N B HB) as Hceil.
  assert (Hcover : N <= Z.max 1 (ceil_div N B) * B /\ 1 <= Z.max 1 (ceil_div N B))
    by (destruct (Z.max_spec 1 (ceil_div N B)) as [[? ->]|[? ->]]; nia).
  set (iterations := Z.max 1 (ceil_div N B)) in *.
  repeat apply conj.
  - intros j a Hj. subst plan. unfold batch_plan. fold iterations.
    rewrite flat_map_concat_map, map_map, <- flat_map_concat_map. cbn [snd].
    rewrite (flat_map_ext _ (fun i => rows_range (i * B) (Z.min ((i + 1) * B) N) a))
      by (intros i; now apply nth_map_some).
    pose proof (Hlen a (nth_error_In _ _ Hj)) as Ha.
    unfold py_range, N. rewrite <- Ha. rewrite (ranges_concat B a) by assumption.
    apply firstn_all2. rewrite Z2Nat.id, Ha by lia. fold N. lia.
  - subst plan. unfold batch_plan. fold iterations.
    apply List.Forall_forall. intros c Hc. apply in_map_iff in Hc.
    destruct Hc as (i & <- & Hi). apply py_range_nonneg in Hi. cbn [snd].
    apply List.Forall_forall. intros b Hb. apply in_map_iff in Hb.
    destruct Hb as (a & <- & Ha). unfold rows_range.
    rewrite length_firstn. lia.
  - intros k c Hk Hnotlast. subst plan. unfold batch_plan in Hk, Hnotlast.
    fold iterations in Hk, Hnotlast.
    rewrite length_map in Hnotlast. unfold py_range in Hk, Hnotlast.
    rewrite length_map, length_seq in Hnotlast.
    rewrite nth_error_map in Hk.
    destruct (nth_error (map Z.of_nat (seq 0 (Z.to_nat iterations))) k) as [i|] eqn:Hi;
      [|discriminate].
    injection Hk as <-. cbn [snd].
    rewrite nth_error_map, nth_error_seq in Hi.
    destruct (Nat.ltb_spec k (Z.to_nat iterations)); [|discriminate].
    injection Hi as <-. cbn [Nat.add].
    apply List.Forall_forall. intros b Hb.
    apply (in_map_iff (rows_range _ _) (first :: rest)) in Hb.
    destruct Hb as (a & <- & Ha). apply Hlen in Ha. unfold rows_range.
    rewrite length_firstn, length_skipn, Ha. subst iterations N. nia.
Qed.

(** The partitions cover the rows exactly: for inputs of [N] rows each, a
    positive batch size other than [N] and a scoring function that returns
    on each partition, the batches passed by [_run] hold at most [B] rows,
    every batch but the last holds exactly [B] rows, and the batches of one
    input put together in call order are that input. *)
Theorem partition_exact_cover self function (inputs : run_inputs) first rest
    reshape (B : Z) :
  let N := Z.of_nat (length first) in
  let made := calls (_run self function inputs reshape) in
  arrays_of inputs = first :: rest ->
  _batch_size self = Some B -> 0 < B -> N <> B ->
  returns_on function (batch_plan B N (first :: rest)) ->
  List.Forall (fun a => length a = length first) rest ->
  (forall j a,
     nth_error (first :: rest) j = Some a ->
     flat_map (fun c : @call Cell => nth j (snd c) []) made = a)
  /\ List.Forall
       (fun c : @call Cell =>
          List.Forall (fun a => Z.of_nat (length a) <= B) (snd c)) made
  /\ (forall k c,
        nth_error made k = Some c -> (S k < length made)%nat ->
        List.Forall (fun a => Z.of_nat (length a) = B) (snd c)).
Proof.
  intros N made Harrays HB HBpos Hne Htot Hrest. subst made.
  rewrite (run_batched self function inputs first rest reshape B) by assumption.
  pose proof (batched_run_returns self function first rest reshape B HB HBpos Hne Htot)
    as Hrun.
  cbv zeta in Hrun. rewrite Hrun. cbn [calls]. now apply plan_exact_cover.
Qed.

(** A run of one iteration, on any scoring function. *)
Lemma single_iteration self function first rest reshape (B : Z) :
  let N := Z.of_nat (length first) in
  let batch := map (py_slice 0 (Z.min B N)) (first :: rest) in
  _batch_size self = Some B -> B <> 0 -> N <> B ->
  N / B + (if N mod B >? 0 then 1 else 0) <= 1 ->
  _run_batch_inference self function (first :: rest) reshape
  = Outcome (set_last_iteration true self) [(true, batch)]
      (let* out := function true batch in
       if reshape then reshape_rows N (np_array (ravel out))
       else Ok (np_array (ravel out))).
Proof.
  intros N batch HB Hnz Hne Hone. subst batch.
  unfold _run_batch_inference. rewrite HB. fold N.
  destruct (Z.eqb_spec N B); [contradiction|].
  destruct (Z.eqb_spec B 0); [contradiction|].
  replace (Z.max 1 (N / B + (if N mod B >? 0 then 1 else 0))) with 1 by lia.
  change (py_range 1) with [0]. cbn [batch_loop].
  change (0 * B) with 0. change (0 + B) with B. change (0 =? 1 - 1) with true.
  cbn [set_last_iteration _last_iteration app].
  destruct (function true (map (py_slice 0 (Z.min B N)) (first :: rest)));
    reflexivity.
Qed.

Lemma py_slice_all {A} (l : list A) (n : Z) :
  n = Z.of_nat (length l) -> py_slice 0 n l = l.
Proof.
  intros ->. rewrite py_slice_nonneg by lia. unfold rows_range.
  cbn [Z.to_nat skipn]. apply firstn_all2. lia.
Qed.

(** A batch size above the row count: [_run] makes one call, on the full
    input and with [_last_iteration] set, and returns its output flattened
    (then reshaped to [(N, -1)] when [reshape] is set), where with a batch
    size equal to the row count it returns the output unchanged. *)
Theorem oversized_batch self function (inputs : run_inputs) first rest reshape
    (B : Z) :
  let N := Z.of_nat (length first) in
  arrays_of inputs = first :: rest ->
  _batch_size self = Some B -> 0 < N < B ->
  List.Forall (fun a => length a = length first) rest ->
  _run self function inputs reshape
  = Outcome (set_last_iteration true self) [(true, first :: rest)]
      (let* out := function true (first :: rest) in
       if reshape then reshape_rows N (np_array (ravel out))
       else Ok (np_array (ravel out))).
Proof.
  intros N Harrays HB HN Hrest.
  rewrite (run_batched self function inputs first rest reshape B) by assumption.
  pose proof (single_iteration self function first rest reshape B) as Hrun.
  cbv zeta in Hrun. rewrite Hrun; try assumption; try lia.
  - fold N. replace (Z.min B N) with N by lia.
    assert (Hbatch : map (py_slice 0 N) (first :: rest) = first :: rest).
    { rewrite <- (map_id (first :: rest)) at 2. apply map_ext_in.
      intros a [<-|Ha]; apply py_slice_all; [reflexivity|].
      rewrite List.Forall_forall in Hrest. unfold N. now rewrite (Hrest a Ha). }
    now rewrite Hbatch.
  - fold N. rewrite Z.div_small, Z.mod_small by lia.
    destruct (Z.gtb_spec N 0); lia.
Qed.

(** Inputs without rows under a batch size: [_run] makes one call, on the
    empty inputs and with [_last_iteration] set; [predict] returns its
    output flattened, and [transform] and [predict_proba], which ask for the
    reshape to [(0, -1)], raise numpy's reshape error whenever the backend
    returns. *)
Theorem empty_rows_batched self function (inputs : run_inputs) rest (B : Z) :
  arrays_of inputs = [] :: rest ->
  _batch_size self = Some B -> B <> 0 ->
  List.Forall (fun a => a = []) rest ->
  predict self function inputs
  = Outcome (set_last_iteration true self) [(true, [] :: rest)]
      (let* out := function true ([] :: rest) in Ok (np_array (ravel out)))
  /\ transform self function inputs
     = Outcome (set_last_iteration true self) [(true, [] :: rest)]
         (let* out := function true ([] :: rest) in
          Raise (ReshapeError (length (ravel out)) 0))
  /\ predict_proba self function inputs = transform self function inputs.
Proof.
  intros Harrays HB Hnz Hrest.
  assert (Hbatch : forall n : Z, map (py_slice 0 n) ([] :: rest) = [] :: rest).
  { intros n. rewrite <- (map_id ([] :: rest)) at 2. apply map_ext_in.
    intros a Ha.
    assert (a = []) as ->
      by (destruct Ha as [<-|Ha]; [reflexivity|];
          rewrite List.Forall_forall in Hrest; now apply Hrest).
    unfold py_slice. now rewrite skipn_nil, firstn_nil. }
  assert (Hrun : forall reshape,
    _run self function inputs reshape
    = Outcome (set_last_iteration true self) [(true, [] :: rest)]
        (let* out := function true ([] :: rest) in
         if reshape then reshape_rows 0 (np_array (ravel out))
         else Ok (np_array (ravel out)))).
  { intros reshape.
    rewrite (run_batched self function inputs [] rest reshape B) by assumption.
    pose proof (single_iteration self function [] rest reshape B) as Hone.
    cbv zeta in Hone. rewrite Hone; try assumption.
    - now rewrite Hbatch.
    - cbn [length Z.of_nat]. lia.
    - cbn [length Z.of_nat]. rewrite Z.div_0_l, Z.mod_0_l by assumption.
      cbn. lia. }
  unfold predict, transform, predict_proba. rewrite !Hrun.
  repeat split.
Qed.

(** A negative batch size is not refused: [_run] makes one call, with
    [_last_iteration] set, on all rows but the last [-B] of every input,
    and returns its output flattened, so that these rows are not scored. *)
Theorem negative_batch_size self function (inputs : run_inputs) first rest
    (B : Z) :
  let N := Z.of_nat (length first) in
  let batch := map (firstn (Z.to_nat (N + B))) (first :: rest) in
  arrays_of inputs = first :: rest ->
  _batch_size self = Some B -> B < 0 -> 0 < N ->
  List.Forall (fun a => length a = length first) rest ->
  _run self function inputs false
  = Outcome (set_last_iteration true self) [(true, batch)]
      (let* out := function true batch in Ok (np_array (ravel out))).
Proof.
  intros N batch Harrays HB Hneg HN Hrest. subst batch.
  rewrite (run_batched self function inputs first rest false B) by assumption.
  pose proof (single_iteration self function first rest false B) as Hrun.
  cbv zeta in Hrun. rewrite Hrun; try assumption; try lia.
  - fold N. replace (Z.min B N) with B by lia.
    assert (Hbatch : map (py_slice 0 B) (first :: rest)
                     = map (firstn (Z.to_nat (N + B))) (first :: rest)).
    { apply map_ext_in. intros a Ha.
      assert (Hlen : length a = length first).
      { destruct Ha as [<-|Ha]; [reflexivity|].
        rewrite List.Forall_forall in Hrest. now apply Hrest. }
      unfold py_slice, clamp_index. rewrite Hlen. fold N.
      destruct (Z.ltb_spec 0 0); [lia|]. destruct (Z.ltb_spec B 0); [|lia].
      replace (Z.to_nat (Z.min 0 N)) with 0%nat by lia. cbn [skipn].
      f_equal. lia. }
    now rewrite Hbatch.
  - fold N.
    pose proof (Z.div_mod N B ltac:(lia)) as Hdm.
    pose proof (Z.mod_neg_bound N B Hneg) as Hr.
    destruct (Z.gtb_spec (N mod B) 0); nia.
Qed.

(** Runs that make no call: without any array [_run] raises [IndexError]; a
    DataFrame without columns raises it under a batch size; and a batch size
    of zero raises [ZeroDivisionError] when the first input has rows.  The
    container is left as it was. *)
Theorem run_refuses self function reshape :
  _run self function (Arrays []) reshape = Outcome self [] (Raise IndexError)
  /\ (forall B, _batch_size self = Some B ->
      _run self function (Frame []) reshape = Outcome self [] (Raise IndexError))
  /\ (forall (inputs : run_inputs) first rest,
        arrays_of inputs = first :: rest -> first <> [] ->
        _batch_size self = Some 0 ->
        _run self function inputs reshape
        = Outcome self [] (Raise ZeroDivisionError)).
Proof.
  repeat apply conj.
  - reflexivity.
  - intros B HB. unfold _run. rewrite HB. reflexivity.
  - intros inputs first rest Harrays Hrows HB.
    rewrite (run_batched self function inputs first rest reshape 0) by assumption.
    unfold _run_batch_inference. rewrite HB.
    destruct (Z.eqb_spec (Z.of_nat (length first)) 0) as [Hz|_]; [|reflexivity].
    destruct first; [contradiction|discriminate].
Qed.

(** The loop up to the first batch on which the scoring function raises. *)
Lemma batch_loop_raise function (B N iterations : Z) inputs flag batch e :
  function flag batch = Raise e ->
  forall indices (k : nat) self log predictions,
    nth_error (map (step B N iterations inputs) indices) k = Some (flag, batch) ->
    (forall j c,
       (j < k)%nat ->
       nth_error (map (step B N iterations inputs) indices) j = Some c ->
       exists out, function (fst c) (snd c) = Ok out) ->
    batch_loop function B N iterations inputs indices self log predictions
    = Outcome (set_last_iteration flag self)
        (log ++ firstn (S k) (map (step B N iterations inputs) indices))
        (Raise e).
Proof.
  intros Hraise. unfold step.
  induction indices as [|i indices IH]; intros k self log predictions Hk Hbefore.
  - now destruct k.
  - cbn [batch_loop set_last_iteration _last_iteration map].
    destruct k as [|k]; cbn [nth_error] in Hk.
    + injection Hk as Hflag Hbatch. rewrite Hflag, Hbatch, Hraise.
      cbn [firstn]. reflexivity.
    + destruct (Hbefore 0%nat _ ltac:(lia) eq_refl) as [out Hout].
      cbn [fst snd] in Hout. rewrite Hout.
      rewrite (IH k); [|exact Hk|].
      * cbn [firstn set_last_iteration _batch_size _extra_config].
        now rewrite <- app_assoc.
      * intros j c Hj Hc. apply (Hbefore (S j)); [lia|exact Hc].
Qed.

(** An exception of the scoring function ends the batched run: when the
    scoring function returns on the first [k] partitions and raises on the
    next one, [_run] has made these [k + 1] calls, raises the same
    exception, whatever [reshape] is, and leaves [_last_iteration] as it was
    set for the failed call. *)
Theorem batched_exception self function (inputs : run_inputs) first rest reshape
    (B : Z) (k : nat) flag batch e :
  let N := Z.of_nat (length first) in
  let plan := batch_plan B N (first :: rest) in
  arrays_of inputs = first :: rest ->
  _batch_size self = Some B -> 0 < B -> N <> B ->
  nth_error plan k = Some (flag, batch) ->
  function flag batch = Raise e ->
  (forall j c,
     (j < k)%nat -> nth_error plan j = Some c ->
     exists out, function (fst c) (snd c) = Ok out) ->
  _run self function inputs reshape
  = Outcome (set_last_iteration flag self) (firstn (S k) plan) (Raise e).
Proof.
  intros N plan Harrays HB HBpos Hne Hk Hraise Hbefore. subst plan.
  rewrite (run_batched self function inputs first rest reshape B) by assumption.
  unfold _run_batch_inference. rewrite HB. fold N.
  destruct (Z.eqb_spec N B); [contradiction|].
  destruct (Z.eqb_spec B 0); [lia|].
  rewrite iterations_ceil by lia.
  rewrite (batch_plan_steps B N) in * by (assumption || lia).
  rewrite (batch_loop_raise function B N _ _ flag batch e Hraise _ k)
    by assumption.
  reflexivity.
Qed.

End BatchCoverage.

(** *** The engine on further examples *)

Lemma batched_run_concatenates_witness :
  _run (plain_container (Some 2)) first_cells (Arrays [[[1; 2]; [3; 4]; [5; 6]]]) true
  = Outcome (set_last_iteration true (plain_container (Some 2)))
      [(false, [[[1; 2]; [3; 4]]]); (true, [[[5; 6]]])]
      (Ok (NDArray [3%nat; 2%nat] [1; 2; 3; 4; 5; 6])).
Proof.
  exact (batched_run_concatenates (plain_container (Some 2)) first_cells
           (Arrays [[[1; 2]; [3; 4]; [5; 6]]]) [[1; 2]; [3; 4]; [5; 6]] [] true 2
           eq_refl eq_refl ltac:(lia) ltac:(cbn; lia) ltac:(repeat constructor)).
Defined.

Lemma partition_exact_cover_witness :
  flat_map (fun c : @call Z => nth 1 (snd c) [])
    (calls (_run (plain_container (Some 2)) first_cells
              (Arrays [[[1]; [2]; [3]]; [[4]; [5]; [6]]]) false))
  = [[4]; [5]; [6]].
Proof.
  refine (proj1 (partition_exact_cover (plain_container (Some 2)) first_cells
                   (Arrays [[[1]; [2]; [3]]; [[4]; [5]; [6]]]) [[1]; [2]; [3]]
                   [[[4]; [5]; [6]]] false 2 eq_refl eq_refl ltac:(lia)
                   ltac:(cbn; lia) ltac:(repeat constructor) _)
            1%nat [[4]; [5]; [6]] eq_refl).
  repeat constructor.
Defined.

Lemma oversized_batch_witness :
  _run (plain_container (Some 5)) first_cells (Arrays [[[1; 2]; [3; 4]]]) false
  = Outcome (set_last_iteration true (plain_container (Some 5)))
      [(true, [[[1; 2]; [3; 4]]])] (Ok (NDArray [4%nat] [1; 2; 3; 4])).
Proof.
  exact (oversized_batch (plain_container (Some 5)) first_cells
           (Arrays [[[1; 2]; [3; 4]]]) [[1; 2]; [3; 4]] [] false 5
           eq_refl eq_refl ltac:(cbn; lia) (List.Forall_nil _)).
Defined.

Lemma empty_rows_batched_witness :
  transform (plain_container (Some 2)) first_cells (Arrays [[]; []])
  = Outcome (set_last_iteration true (plain_container (Some 2)))
      [(true, [[]; []])] (Raise (ReshapeError 0 0)).
Proof.
  exact (proj1 (proj2 (empty_rows_batched (plain_container (Some 2)) first_cells
                         (Arrays [[]; []]) [[]] 2 eq_refl eq_refl ltac:(lia)
                         ltac:(repeat constructor)))).
Defined.

Lemma negative_batch_size_witness :
  _run (plain_container (Some (-1))) first_cells (Arrays [[[1]; [2]; [3]]]) false
  = Outcome (set_last_iteration true (plain_container (Some (-1))))
      [(true, [[[1]; [2]]])] (Ok (NDArray [2%nat] [1; 2])).
Proof.
  exact (negative_batch_size (plain_container (Some (-1))) first_cells
           (Arrays [[[1]; [2]; [3]]]) [[1]; [2]; [3]] [] (-1)
           eq_refl eq_refl ltac:(lia) ltac:(cbn; lia) (List.Forall_nil _)).
Defined.

Lemma run_refuses_witness :
  _run (plain_container (Some 0)) first_cells (Arrays [[[1]; [2]]]) true
  = Outcome (plain_container (Some 0)) [] (Raise ZeroDivisionError)
  /\ _run (plain_container (Some 2)) first_cells (Frame []) true
     = Outcome (plain_container (Some 2)) [] (Raise IndexError).
Proof.
  split.
  - exact (proj2 (proj2 (run_refuses (plain_container (Some 0)) first_cells true))
             (Arrays [[[1]; [2]]]) [[1]; [2]] [] eq_refl ltac:(discriminate) eq_refl).
  - exact (proj1 (proj2 (run_refuses (plain_container (Some 2)) first_cells true))
             2 eq_refl).
Defined.

Lemma batched_exception_witness :
  _run (plain_container (Some 2)) fails_on_last (Arrays [[[1]; [2]; [3]]]) true
  = Outcome (set_last_iteration true (plain_container (Some 2)))
      [(false, [[[1]; [2]]]); (true, [[[3]]])]
      (Raise (ValueError "remainder")).
Proof.
  apply (batched_exception (plain_container (Some 2)) fails_on_last
           (Arrays [[[1]; [2]; [3]]]) [[1]; [2]; [3]] [] true 2 1 true [[[3]]]
           (ValueError "remainder") eq_refl eq_refl ltac:(lia) ltac:(cbn; lia)
           eq_refl eq_refl).
  intros [|j] c Hj Hc; [|lia].
  injection Hc as <-. eexists. reflexivity.
Defined.

(** * Further properties of the containers *)

Section FrameInputs.

Context {Cell Out V : Type}.


End FrameInputs.


(** [score_samples] composes the two corrections over one run: it makes the
    calls of [_run] and leaves the container as [_run] does; when [_run]
    raises, it raises the same exception; when [_run] returns, it fails with
    the [KeyError] of a missing OFFSET, and otherwise returns every score
    with the configured IFOREST_THRESHOLD added first, if there is one, and
    the OFFSET added next, in the shape of the scores. *)
Theorem score_samples_composition {Cell Num : Type} (add : Num -> Num -> Num)
    (IFOREST_THRESHOLD OFFSET : string) (self : SklearnContainer Num)
    (function : @scoring Cell Num) (inputs : run_inputs) :
  let raw := _run self function inputs false in
  let samples := score_samples add IFOREST_THRESHOLD OFFSET self function inputs in
  calls samples = calls raw
  /\ self_after samples = self_after raw
  /\ returned samples
     = let* scores := returned raw in
       match _extra_config self !! OFFSET with
       | None => Raise (KeyError OFFSET)
       | Some offset =>
           Ok (NDArray (shape scores)
                 (map (fun s =>
                         add (match _extra_config self !! IFOREST_THRESHOLD with
                              | Some threshold => add s threshold
                              | None => s
                              end) offset)
                    (data scores)))
       end.
Proof.
  intros raw samples. subst raw samples. repeat apply conj; try reflexivity.
  rewrite score_samples_returned, decision_function_returned.
  destruct (returned (_run self function inputs false)) as [scores|e];
    cbn [bind]; [|reflexivity].
  destruct (_extra_config self !! IFOREST_THRESHOLD) as [threshold|];
    destruct (_extra_config self !! OFFSET) as [offset|]; cbn [bind];
    try reflexivity.
  unfold add_scalar. cbn [shape data]. now rewrite map_map.
Qed.

(** * Further properties of the ONNX containers *)

Section NamedInputs.

Context {Input Out : Type} (elements : Input -> option (list Input)).
Implicit Types (self : @ONNXSklearnContainer Input Out) (inputs : list Input).

Lemma fold_insert_other (name : string) (l : list (string * Input)) :
  (forall kv, In kv l -> fst kv <> name) ->
  forall m : gmap string Input,
    fold_left (fun named ni => <[fst ni := snd ni]> named) l m !! name = m !! name.
Proof.
  induction l as [|kv l IH]; intros Hother m; cbn [fold_left]; [reflexivity|].
  rewrite IH by (intros kv' Hkv'; apply Hother; now right).
  apply lookup_insert_ne. apply Hother. now left.
Qed.

Lemma fold_insert_last (name : string) (x : Input) (l : list (string * Input)) :
  forall (i : nat) (m : gmap string Input),
    nth_error l i = Some (name, x) ->
    (forall j kv, (i < j)%nat -> nth_error l j = Some kv -> fst kv <> name) ->
    fold_left (fun named ni => <[fst ni := snd ni]> named) l m !! name = Some x.
Proof.
  induction l as [|kv l IH]; intros [|i] m Hi Hlater; cbn in Hi; try discriminate.
  - injection Hi as ->. cbn [fold_left fst snd].
    rewrite fold_insert_other; [apply lookup_insert_eq|].
    intros kv Hkv. apply In_nth_error in Hkv. destruct Hkv as [j Hj].
    apply (Hlater (S j)); [lia|exact Hj].
  - cbn [fold_left]. apply (IH i); [exact Hi|].
    intros j kv' Hj Hkv'. apply (Hlater (S j)); [lia|exact Hkv'].
Qed.

Lemma nth_error_combine {A B} (l : list A) (l' : list B) (i : nat) a b :
  nth_error l i = Some a -> nth_error l' i = Some b ->
  nth_error (combine l l') i = Some (a, b).
Proof.
  revert l' i. induction l as [|x l IH]; intros [|y l'] [|i] Ha Hb;
    cbn in *; try discriminate.
  - congruence.
  - now apply IH.
Qed.

Lemma nth_error_combine_inv {A B} (l : list A) (l' : list B) (i : nat) a b :
  nth_error (combine l l') i = Some (a, b) ->
  nth_error l i = Some a /\ nth_error l' i = Some b.
Proof.
  revert l' i. induction l as [|x l IH]; intros [|y l'] [|i] H;
    cbn in *; try discriminate.
  - injection H as -> ->. auto.
  - now apply IH.
Qed.

(** Binding positional inputs to the declared input names: with as many
    inputs as names, [_get_named_inputs] returns a dictionary in which a
    name is bound to the input at the last position where the name is
    declared; a name that is not declared is not bound.  When the names are
    distinct, every name is bound to the input at its own position. *)
Theorem named_inputs_binding self inputs :
  length inputs = length (_input_names self) ->
  exists named,
    _get_named_inputs elements self inputs = Ok named
    /\ (forall i name x,
          nth_error (_input_names self) i = Some name ->
          nth_error inputs i = Some x ->
          (forall j, (i < j)%nat -> nth_error (_input_names self) j <> Some name) ->
          named !! name = Some x)
    /\ (forall name, ~ In name (_input_names self) -> named !! name = None)
    /\ (List.NoDup (_input_names self) ->
        forall i name x,
          nth_error (_input_names self) i = Some name ->
          nth_error inputs i = Some x ->
          named !! name = Some x).
Proof.
  intros Hlen. exists (assign_named (_input_names self) inputs).
  assert (Hlast : forall i name x,
    nth_error (_input_names self) i = Some name ->
    nth_error inputs i = Some x ->
    (forall j, (i < j)%nat -> nth_error (_input_names self) j <> Some name) ->
    assign_named (_input_names self) inputs !! name = Some x).
  { intros i name x Hname Hx Hlater. unfold assign_named.
    apply (fold_insert_last name x _ i); [now apply nth_error_combine|].
    intros j [k v] Hj Hkv Heq. cbn [fst] in Heq. subst k.
    apply nth_error_combine_inv in Hkv. destruct Hkv as [Hk _].
    now apply (Hlater j Hj). }
  repeat apply conj.
  - unfold _get_named_inputs. rewrite Hlen, Nat.ltb_irrefl. cbn [bind].
    now rewrite Hlen, Nat.eqb_refl.
  - exact Hlast.
  - intros name Hnot. unfold assign_named. rewrite fold_insert_other.
    + apply lookup_empty.
    + intros [k v] Hkv Heq. cbn [fst] in Heq. subst k.
      apply Hnot. now apply in_combine_l in Hkv.
  - intros Hnodup i name x Hname Hx. apply (Hlast i name x Hname Hx).
    intros j Hj Hname'.
    pose proof (proj1 (NoDup_nth_error (_input_names self)) Hnodup i j) as Hinj.
    assert (i = j); [|lia]. apply Hinj; [|congruence].
    apply nth_error_Some. congruence.
Qed.

(** Inputs that do not match the names in number: more inputs than names
    fail the assertion of [_get_named_inputs]; with fewer inputs than names
    only the first input is read, as a packed sequence, and the other
    positional inputs are dropped; a first input that packs as many items as
    there are names binds as these items given positionally. *)
Theorem named_inputs_unpacking self (first : Input) (others items : list Input) :
  ((length (_input_names self) < S (length others))%nat ->
   _get_named_inputs elements self (first :: others)
   = Raise (AssertionError NamedInputs))
  /\ ((S (length others) < length (_input_names self))%nat ->
      _get_named_inputs elements self (first :: others)
      = _get_named_inputs elements self [first])
  /\ ((1 < length (_input_names self))%nat ->
      elements first = Some items ->
      length items = length (_input_names self) ->
      _get_named_inputs elements self [first]
      = _get_named_inputs elements self items).
Proof.
  unfold _get_named_inputs. repeat apply conj.
  - intros Hmore. cbn [length].
    destruct (Nat.ltb_spec (S (length others)) (length (_input_names self))); [lia|].
    cbn [bind length].
    destruct (Nat.eqb_spec (S (length others)) (length (_input_names self))); [lia|].
    reflexivity.
  - intros Hfewer. cbn [length].
    destruct (Nat.ltb_spec (S (length others)) (length (_input_names self))); [|lia].
    destruct (Nat.ltb_spec 1 (length (_input_names self))); [|lia].
    reflexivity.
  - intros Hnames Hitems Hlen. cbn [length].
    destruct (Nat.ltb_spec 1 (length (_input_names self))); [|lia].
    cbn [list_item0 bind]. rewrite Hitems, Hlen, Nat.ltb_irrefl. reflexivity.
Qed.

(** The outputs of the primitives when the inputs are bound and the session
    returns one array for the one requested name: [_transform] and the
    [_predict] of a regressor return it under a new leading dimension of
    size one; the [_predict] of a classifier returns it as it is (when its
    data fill its shape) and the [_predict] of an anomaly detector returns
    it flattened; [_predict_proba] returns the array of the second declared
    name and [_decision_function] returns that array flattened. *)
Theorem onnx_primitive_outputs self inputs named (out : ndarray Out) :
  _get_named_inputs elements self inputs = Ok named ->
  (length (_output_names self) = 1%nat ->
   session_run self (_output_names self) named = Ok [out] ->
   _transform elements self inputs = Ok (NDArray (1%nat :: shape out) (data out))
   /\ (_is_regression self = true ->
       _predict elements self inputs = Ok (NDArray (1%nat :: shape out) (data out))))
  /\ (length (_output_names self) = 2%nat ->
      _is_regression self = false ->
      session_run self [nth 0 (_output_names self) ""] named = Ok [out] ->
      length (data out) = fold_right Nat.mul 1%nat (shape out) ->
      _predict elements self inputs
      = Ok (if _is_anomaly_detection self then np_array (data out) else out))
  /\ (length (_output_names self) = 2%nat ->
      session_run self [nth 1 (_output_names self) ""] named = Ok [out] ->
      _predict_proba elements self inputs = Ok out
      /\ _decision_function elements self inputs = Ok (np_array (data out))).
Proof.
  intros Hbind.
  assert (Hstack : np_stack [out] = Ok (NDArray (1%nat :: shape out) (data out))).
  { unfold np_stack. cbn [forallb]. rewrite bool_decide_eq_true_2 by reflexivity.
    cbn [andb flat_map length]. now rewrite app_nil_r. }
  repeat apply conj.
  - intros Hcount Hrun. split.
    + unfold _transform.
      rewrite Hcount. cbn [Nat.eqb py_assert bind]. rewrite Hbind. cbn [bind].
      now rewrite Hrun.
    + intros Hreg. unfold _predict.
      rewrite Hbind, Hreg, Hcount. cbn [Nat.eqb py_assert bind]. now rewrite Hrun.
  - intros Hcount Hreg Hrun Hfull. unfold _predict.
    rewrite Hbind, Hreg, Hcount. cbn [bind Nat.eqb py_assert].
    assert (Hitem : np_item0 (NDArray (1%nat :: shape out) (data out)) = Ok out).
    { unfold np_item0. cbn [shape data]. rewrite <- Hfull, firstn_all.
      now destruct out. }
    destruct (_is_anomaly_detection self); rewrite Hrun; cbn [bind];
      rewrite Hstack; cbn [bind]; rewrite Hitem; reflexivity.
  - intros Hcount Hrun. split.
    + unfold _predict_proba.
      rewrite Hcount. cbn [Nat.eqb py_assert bind]. rewrite Hbind. cbn [bind].
      now rewrite Hrun.
    + unfold _decision_function.
      rewrite Hcount. cbn [Nat.eqb py_assert bind]. rewrite Hbind. cbn [bind].
      now rewrite Hrun.
Qed.

End NamedInputs.

(** *** The ONNX containers on further examples *)

Lemma named_inputs_binding_witness :
  exists named,
    _get_named_inputs list_items onnx_three_inputs [[1]; [2]; [3]] = Ok named
    /\ (forall i name x,
          nth_error ["a"; "b"; "c"] i = Some name ->
          nth_error [[1]; [2]; [3]] i = Some x ->
          named !! name = Some x).
Proof.
  destruct (named_inputs_binding list_items onnx_three_inputs [[1]; [2]; [3]] eq_refl)
    as (named & Hok & _ & _ & Hdistinct).
  exists named. split; [exact Hok|]. apply Hdistinct.
  repeat constructor; cbn; intuition discriminate.
Defined.

Lemma named_inputs_unpacking_witness :
  _get_named_inputs list_items (onnx_example ["label"] false) [[1]; [2]]
  = Raise (AssertionError NamedInputs)
  /\ _get_named_inputs list_items onnx_three_inputs [[7; 8; 9]; [0]]
     = _get_named_inputs list_items onnx_three_inputs [[7; 8; 9]]
  /\ _get_named_inputs list_items onnx_three_inputs [[7; 8; 9]]
     = _get_named_inputs list_items onnx_three_inputs [[7]; [8]; [9]].
Proof.
  repeat apply conj.
  - exact (proj1 (named_inputs_unpacking list_items (onnx_example ["label"] false)
                    [1] [[2]] []) ltac:(cbn; lia)).
  - exact (proj1 (proj2 (named_inputs_unpacking list_items onnx_three_inputs
                           [7; 8; 9] [[0]] [])) ltac:(cbn; lia)).
  - exact (proj2 (proj2 (named_inputs_unpacking list_items onnx_three_inputs
                           [7; 8; 9] [] [[7]; [8]; [9]]))
             ltac:(cbn; lia) eq_refl eq_refl).
Defined.

Lemma onnx_primitive_outputs_witness :
  _transform list_items onnx_three_inputs [[1]; [2]; [3]]
  = Ok (NDArray [1%nat; 2%nat] [1; 2])
  /\ _predict list_items onnx_three_inputs [[1]; [2]; [3]]
     = Ok (NDArray [1%nat; 2%nat] [1; 2])
  /\ _predict list_items (onnx_example ["label"; "probabilities"] true) [[1; 2]]
     = Ok (NDArray [2%nat] [1; 2])
  /\ _predict_proba list_items (onnx_example ["label"; "probabilities"] false) [[1; 2]]
     = Ok (NDArray [2%nat] [1; 2]).
Proof.
  destruct (proj1 (onnx_primitive_outputs list_items onnx_three_inputs
                     [[1]; [2]; [3]]
                     (assign_named ["a"; "b"; "c"] [[1]; [2]; [3]])
                     (np_array [1; 2]) eq_refl) eq_refl eq_refl)
    as [Htransform Hpredict].
  repeat apply conj.
  - exact Htransform.
  - exact (Hpredict eq_refl).
  - exact (proj1 (proj2 (onnx_primitive_outputs list_items
                           (onnx_example ["label"; "probabilities"] true) [[1; 2]]
                           (assign_named ["input"] [[1; 2]])
                           (np_array [1; 2]) eq_refl))
             eq_refl eq_refl eq_refl eq_refl).
  - exact (proj1 (proj2 (proj2 (onnx_primitive_outputs list_items
                                  (onnx_example ["label"; "probabilities"] false)
                                  [[1; 2]] (assign_named ["input"] [[1; 2]])
                                  (np_array [1; 2]) eq_refl))
                    eq_refl eq_refl)).
Defined.

(** * Properties of the TorchScript containers *)

Section TorchScriptProperties.

Context {Cell Device Out V : Type}.
Variable to_float : @array2 Cell -> @array2 Cell.
Variable device_type : Device -> string.
Variable cpu : Device.
Implicit Types (inputs : list (@py_input Cell Device)) (device : Device).
Implicit Types (function f : list (@tensor Cell Device) -> result (ndarray Out)).

Lemma convert_supported device inputs :
  forallb supported inputs = true ->
  forall i,
    convert_inputs to_float device_type cpu device i inputs
    = Ok (map (as_tensor to_float device_type cpu device) inputs).
Proof.
  induction inputs as [|input inputs IH]; intros Hall i; [reflexivity|].
  cbn [forallb] in Hall. apply andb_prop in Hall. destruct Hall as [Hinput Hall].
  cbn [convert_inputs map]. rewrite (IH Hall).
  destruct input; try discriminate; reflexivity.
Qed.

Lemma convert_unsupported device (type_name : string) inputs :
  forall (k i : nat),
    nth_error inputs k = Some (Other type_name) ->
    (forall j input, (j < k)%nat -> nth_error inputs j = Some input ->
                     supported input = true) ->
    convert_inputs to_float device_type cpu device i inputs
    = Raise (RuntimeError
               ("Inputer tensor " ++ pretty (i + k)%nat ++ " of not supported type "
                ++ type_name)).
Proof.
  induction inputs as [|input inputs IH]; intros [|k] i Hk Hbefore;
    cbn in Hk; try discriminate.
  - injection Hk as ->. cbn [convert_inputs bind]. now rewrite Nat.add_0_r.
  - cbn [convert_inputs].
    rewrite (IH k (S i) Hk)
      by (intros j x Hj Hx; apply (Hbefore (S j)); [lia|exact Hx]).
    pose proof (Hbefore 0%nat input ltac:(lia) eq_refl) as Hinput.
    replace (S i + k)%nat with (i + S k)%nat by lia.
    destruct input; try discriminate; reflexivity.
Qed.

(** The wrapper on accepted inputs: when every input is a numpy array or a
    tensor, the function is called on as many tensors, in the same order, an
    array as a float tensor; when the device of the model is not a cpu every
    tensor passed is on that device, and otherwise a tensor stays where it
    was and an array becomes a cpu tensor. *)
Theorem torchscript_wrapper_converts device function inputs :
  forallb supported inputs = true ->
  let tensors := map (as_tensor to_float device_type cpu device) inputs in
  _torchscript_wrapper to_float device_type cpu device function inputs
  = function tensors
  /\ length tensors = length inputs
  /\ (device_type device <> "cpu" ->
      List.Forall (fun t => tensor_device t = device) tensors)
  /\ (device_type device = "cpu" ->
      forall k,
        (forall a, nth_error inputs k = Some (NdArray a) ->
                   nth_error tensors k = Some (MkTensor (to_float a) cpu))
        /\ (forall t, nth_error inputs k = Some (Tensor t) ->
                      nth_error tensors k = Some t)).
Proof.
  intros Hall tensors. subst tensors. repeat apply conj.
  - unfold _torchscript_wrapper. now rewrite convert_supported.
  - apply length_map.
  - intros Hdevice. apply List.Forall_forall. intros t Ht.
    apply in_map_iff in Ht. destruct Ht as (input & <- & _).
    unfold as_tensor. apply String.eqb_neq in Hdevice. now rewrite Hdevice.
  - intros Hdevice k. split.
    + intros a Hk. rewrite List.nth_error_map, Hk. cbn [option_map].
      unfold as_tensor. now rewrite Hdevice, String.eqb_refl.
    + intros t Hk. rewrite List.nth_error_map, Hk. cbn [option_map].
      unfold as_tensor. now rewrite Hdevice, String.eqb_refl.
Qed.

(** The wrapper on a refused input: when the input at position [k] is
    neither a numpy array nor a tensor and the inputs before it are, the
    wrapper raises the [RuntimeError] that names [k] and the type of that
    input, whatever the function is: the function is not called. *)
Theorem torchscript_wrapper_refuses device function inputs (k : nat)
    (type_name : string) :
  nth_error inputs k = Some (Other type_name) ->
  (forall j input, (j < k)%nat -> nth_error inputs j = Some input ->
                   supported input = true) ->
  _torchscript_wrapper to_float device_type cpu device function inputs
  = Raise (RuntimeError
             ("Inputer tensor " ++ pretty k ++ " of not supported type "
              ++ type_name)).
Proof.
  intros Hk Hbefore. unfold _torchscript_wrapper.
  now rewrite (convert_unsupported device type_name inputs k 0 Hk Hbefore).
Qed.

Lemma run_raises_at_once (self : SklearnContainer V) (function : @scoring Cell Out)
    (inputs : run_inputs) first rest reshape e :
  arrays_of inputs = first :: rest ->
  _batch_size self <> Some 0 ->
  (forall flag batch, length batch = S (length rest) -> function flag batch = Raise e) ->
  returned (_run self function inputs reshape) = Raise e.
Proof.
  intros Harrays Hzero Hraise.
  destruct (_batch_size self) as [B|] eqn:HB.
  - rewrite (run_batched self function inputs first rest reshape B) by assumption.
    unfold _run_batch_inference. rewrite HB.
    destruct (Z.eqb_spec (Z.of_nat (length first)) B);
      [cbn [returned]; now apply Hraise|].
    destruct (Z.eqb_spec B 0); [congruence|].
    set (iterations := Z.max 1 _).
    unfold py_range. destruct (Z.to_nat iterations) as [|m] eqn:Hm; [lia|].
    cbn [seq map batch_loop]. rewrite Hraise by (cbn [length]; now rewrite length_map).
    reflexivity.
  - unfold _run, arrays_of in *.
    destruct inputs as [[|a arrays]|columns]; [discriminate| |];
      rewrite Harrays, HB; cbn [returned]; now apply Hraise.
Qed.

(** The TorchScript [transform] and [predict] take one array: on two arrays
    or more, which is also what a DataFrame of two columns or more becomes,
    they raise [TypeError] whatever the model is, for every batch size but
    zero; [predict_proba] passes all the arrays, as float tensors, to the
    model. *)
Theorem torchscript_single_argument (self : SklearnContainer V) device f
    (inputs : run_inputs) (a1 a2 : @array2 Cell) (rest : list (@array2 Cell)) :
  arrays_of inputs = a1 :: a2 :: rest ->
  _batch_size self <> Some 0 ->
  returned (TorchScript_transform to_float device_type cpu self device f inputs)
  = Raise TypeError
  /\ returned (TorchScript_predict to_float device_type cpu self device f inputs)
     = Raise TypeError
  /\ (_batch_size self = None ->
      returned (TorchScript_predict_proba to_float device_type cpu self device f inputs)
      = f (map (fun a => as_tensor to_float device_type cpu device (NdArray a))
             (a1 :: a2 :: rest))).
Proof.
  intros Harrays Hzero.
  assert (Hlambda : forall (flag : bool) (batch : list (@array2 Cell)),
    length batch = S (length (a2 :: rest)) ->
    lambda_x (fun x => _torchscript_wrapper to_float device_type cpu device f
                         [NdArray x]) batch
    = Raise TypeError).
  { intros _ [|x [|y batch]] Hlen; cbn in Hlen; try lia. reflexivity. }
  repeat apply conj.
  - unfold TorchScript_transform.
    now apply (run_raises_at_once self _ inputs a1 (a2 :: rest)).
  - unfold TorchScript_predict.
    now apply (run_raises_at_once self _ inputs a1 (a2 :: rest)).
  - intros HB. unfold TorchScript_predict_proba, _run, arrays_of in *.
    destruct inputs as [[|a arrays]|columns]; [discriminate| |];
      rewrite Harrays, HB; cbn [returned];
      unfold _torchscript_wrapper;
      rewrite convert_supported, map_map; try reflexivity;
      apply forallb_forall; intros x Hx; apply in_map_iff in Hx;
      now destruct Hx as (a' & <- & _).
Qed.

End TorchScriptProperties.

Lemma torchscript_wrapper_converts_witness :
  forallb supported torch_inputs = true
  /\ _torchscript_wrapper (fun a => a) named_device "cpu" "cuda" echo_tensors
       torch_inputs
     = Ok (np_array [1; 2; 3])
  /\ List.Forall (fun t => tensor_device t = "cuda")
       (map (as_tensor (fun a => a) named_device "cpu" "cuda") torch_inputs).
Proof.
  pose proof (torchscript_wrapper_converts (Out := Z) (fun a => a) named_device
                "cpu" "cuda" echo_tensors torch_inputs eq_refl) as H.
  cbv zeta in H. destruct H as (Hcall & _ & Hdevice & _).
  split; [reflexivity|]. split; [exact Hcall|].
  apply Hdevice. discriminate.
Defined.

Lemma torchscript_wrapper_refuses_witness :
  nth_error torch_mixed_inputs 1 = Some (Other "list")
  /\ _torchscript_wrapper (fun a => a) named_device "cpu" "cuda" echo_tensors
       torch_mixed_inputs
     = Raise (RuntimeError "Inputer tensor 1 of not supported type list").
Proof.
  split; [reflexivity|].
  apply (torchscript_wrapper_refuses (fun a => a) named_device "cpu" "cuda"
           echo_tensors torch_mixed_inputs 1 "list" eq_refl).
  intros [|j] input Hj Hinput; [|lia].
  injection Hinput as <-. reflexivity.
Defined.

Lemma torchscript_single_argument_witness :
  returned (TorchScript_transform (fun a => a) named_device "cpu"
              (plain_container (Some 2)) "cpu" echo_tensors
              (Frame [("a", [1; 2; 3]); ("b", [4; 5; 6])]))
  = Raise TypeError
  /\ returned (TorchScript_predict_proba (fun a => a) named_device "cpu"
                 (plain_container None) "cpu" echo_tensors
                 (Arrays [[[1]; [2]]; [[4]; [5]]]))
     = Ok (np_array [1; 2; 4; 5]).
Proof.
  split.
  - apply (torchscript_single_argument (fun a => a) named_device "cpu"
             (plain_container (Some 2)) "cpu" echo_tensors
             (Frame [("a", [1; 2; 3]); ("b", [4; 5; 6])])
             [[1]; [2]; [3]] [[4]; [5]; [6]] [] eq_refl).
    discriminate.
  - apply (torchscript_single_argument (fun a => a) named_device "cpu"
             (plain_container None) "cpu" echo_tensors
             (Arrays [[[1]; [2]]; [[4]; [5]]])
             [[1]; [2]] [[4]; [5]] [] eq_refl); [discriminate|reflexivity].
Defined.

(** * Properties of the TVM containers *)

Section TVMProperties.

Context {Cell Out V : Type}.
Implicit Types (self : SklearnContainer V) (c : @TVMSklearnContainer Cell Out).
Implicit Types (first : @array2 Cell) (rest : list (@array2 Cell)).
Implicit Types (inputs : @run_inputs Cell) (output_index : nat).

Lemma batch_plan_last_flag (B N : Z) (arrays : list (@array2 Cell)) :
  0 < B -> 0 <= N ->
  exists front last,
    batch_plan B N arrays = map (pair false) front ++ [(true, last)].
Proof.
  intros HB HN. unfold batch_plan, py_range.
  set (iterations := Z.max 1 (ceil_div N B)).
  destruct (Z.to_nat iterations) as [|m] eqn:Hm; [lia|].
  rewrite seq_S, !map_app. cbn [map Nat.add].
  exists (map (fun i => map (rows_range (i * B) (Z.min ((i + 1) * B) N)) arrays)
            (map Z.of_nat (seq 0 m))),
    (map (rows_range (Z.of_nat m * B) (Z.min ((Z.of_nat m + 1) * B) N)) arrays).
  f_equal.
  - rewrite !map_map. apply map_ext_in. intros i Hi. apply in_seq in Hi.
    replace (Z.of_nat i =? iterations - 1) with false; [reflexivity|].
    symmetry. apply Z.eqb_neq. lia.
  - replace (Z.of_nat m =? iterations - 1) with true; [reflexivity|].
    symmetry. apply Z.eqb_eq. lia.
Qed.

Lemma batch_plan_width (B N : Z) (arrays : list (@array2 Cell)) :
  List.Forall (fun call : @call Cell => length (snd call) = length arrays)
    (batch_plan B N arrays).
Proof.
  apply List.Forall_forall. intros call Hcall. unfold batch_plan in Hcall.
  apply in_map_iff in Hcall. destruct Hcall as (i & <- & _).
  cbn [snd]. apply length_map.
Qed.

Lemma run_module_returns c (module : @tvm_module Cell Out) output_index flag
    (arrays : list (@array2 Cell)) :
  module_returns module output_index ->
  (length arrays <= length (tvm_input_names c))%nat ->
  is_ok (run_module c module output_index flag arrays) = true.
Proof.
  intros Hmodule Hnames. unfold run_module, _to_tvm_tensor.
  destruct (Nat.ltb_spec (length (tvm_input_names c)) (length arrays)); [lia|].
  cbn [bind]. now destruct (Hmodule (assign_named (tvm_input_names c) arrays)) as [out ->].
Qed.

Lemma predict_common_returns c output_index remainder (plan : list (@call Cell))
    (width : nat) :
  _remainder_model c = Some remainder ->
  module_returns (tvm_model c) output_index ->
  module_returns remainder output_index ->
  (width <= length (tvm_input_names c))%nat ->
  List.Forall (fun call : @call Cell => length (snd call) = width) plan ->
  returns_on (_predict_common c output_index) plan.
Proof.
  intros Hrem Hmain Hlast Hnames Hwidth. unfold returns_on.
  apply List.Forall_forall. intros [flag batch] Hcall.
  apply (proj1 (List.Forall_forall _ _) Hwidth) in Hcall. cbn [fst snd] in *.
  unfold _predict_common. destruct flag; rewrite ?Hrem.
  - apply (run_module_returns c remainder output_index true); [assumption|lia].
  - apply (run_module_returns c (tvm_model c) output_index false); [assumption|lia].
Qed.

Lemma run_single_batch self (function : @scoring Cell Out) inputs first rest reshape :
  arrays_of inputs = first :: rest ->
  _batch_size self = Some (Z.of_nat (length first)) ->
  _run self function inputs reshape
  = Outcome self [(_last_iteration self, first :: rest)]
      (function (_last_iteration self) (first :: rest)).
Proof.
  intros Harrays HB.
  rewrite (run_batched self function inputs first rest reshape _ Harrays HB).
  unfold _run_batch_inference. rewrite HB.
  cbn [hd length]. now rewrite Z.eqb_refl.
Qed.

(** The remainder model of a TVM container in a batched run: when the
    number of rows is not the batch size, the container has a name for
    every input and both models return, every partition but the last is
    scored by the model and the last one, alone, by the remainder model;
    the result is their outputs in order. *)
Theorem tvm_remainder_on_last self c output_index remainder inputs first rest
    (reshape : bool) (B : Z) :
  let N := Z.of_nat (length first) in
  arrays_of inputs = first :: rest ->
  _batch_size self = Some B -> 0 < B -> N <> B ->
  _remainder_model c = Some remainder ->
  (length (first :: rest) <= length (tvm_input_names c))%nat ->
  module_returns (tvm_model c) output_index ->
  module_returns remainder output_index ->
  exists front last,
    batch_plan B N (first :: rest) = map (pair false) front ++ [(true, last)]
    /\ _run self (_predict_common c output_index) inputs reshape
       = Outcome (set_last_iteration true self) (batch_plan B N (first :: rest))
           (let values :=
              flat_map (scores (run_module c (tvm_model c) output_index) false) front
              ++ scores (run_module c remainder output_index) true last in
            if reshape then reshape_rows N (np_array values)
            else Ok (np_array values)).
Proof.
  intros N Harrays HB HBpos Hne Hrem Hnames Hmain Hlast.
  destruct (batch_plan_last_flag B N (first :: rest) HBpos ltac:(lia))
    as (front & last & Hplan).
  exists front, last. split; [exact Hplan|].
  rewrite (run_batched self _ inputs first rest reshape B) by assumption.
  pose proof (batched_run_returns self (_predict_common c output_index) first rest
                reshape B) as Hrun.
  cbv zeta in Hrun. fold N in Hrun.
  rewrite Hrun; try assumption.
  2:{ apply (predict_common_returns c output_index remainder _
               (length (first :: rest))); try assumption.
      apply batch_plan_width. }
  f_equal. cbv zeta. rewrite Hplan, flat_map_app.
  replace (flat_map (fun call => scores (_predict_common c output_index) (fst call)
                                   (snd call)) (map (pair false) front))
    with (flat_map (scores (run_module c (tvm_model c) output_index) false) front).
  2:{ clear. induction front as [|b front IH]; [reflexivity|].
      cbn [map flat_map fst snd]. now rewrite IH. }
  cbn [flat_map fst snd]. rewrite app_nil_r.
  unfold scores at 3 5. unfold _predict_common. rewrite Hrem. reflexivity.
Qed.

(** The flag of the last iteration is not reset by a run: after a batched
    run in which the models return, a run on as many rows as the batch
    size, which is one call on the whole input, is scored by the remainder
    model, whereas the same run on a fresh container is scored by the
    model. *)
Theorem tvm_remainder_after_batched_run self c output_index remainder
    inputs1 first1 rest1 inputs2 first2 rest2 (reshape1 reshape2 : bool) (B : Z) :
  arrays_of inputs1 = first1 :: rest1 ->
  arrays_of inputs2 = first2 :: rest2 ->
  _batch_size self = Some B -> 0 < B ->
  Z.of_nat (length first1) <> B ->
  Z.of_nat (length first2) = B ->
  _remainder_model c = Some remainder ->
  (length (first1 :: rest1) <= length (tvm_input_names c))%nat ->
  module_returns (tvm_model c) output_index ->
  module_returns remainder output_index ->
  let after :=
    self_after (_run self (_predict_common c output_index) inputs1 reshape1) in
  _run after (_predict_common c output_index) inputs2 reshape2
  = Outcome after [(true, first2 :: rest2)]
      (run_module c remainder output_index true (first2 :: rest2))
  /\ (_last_iteration self = false ->
      _run self (_predict_common c output_index) inputs2 reshape2
      = Outcome self [(false, first2 :: rest2)]
          (run_module c (tvm_model c) output_index false (first2 :: rest2))).
Proof.
  intros Harrays1 Harrays2 HB HBpos Hne Heq Hrem Hnames Hmain Hlast after.
  assert (Hafter : after = set_last_iteration true self).
  { subst after.
    rewrite (run_batched self _ inputs1 first1 rest1 reshape1 B) by assumption.
    pose proof (batched_run_returns self (_predict_common c output_index) first1
                  rest1 reshape1 B) as Hrun.
    cbv zeta in Hrun. rewrite Hrun; try assumption; [reflexivity|].
    apply (predict_common_returns c output_index remainder _
             (length (first1 :: rest1))); try assumption.
    apply batch_plan_width. }
  split.
  - rewrite (run_single_batch after _ inputs2 first2 rest2 reshape2 Harrays2)
      by (rewrite Hafter, Heq; exact HB).
    rewrite Hafter. cbn [set_last_iteration _last_iteration].
    f_equal. unfold _predict_common. now rewrite Hrem.
  - intros Hfresh.
    rewrite (run_single_batch self _ inputs2 first2 rest2 reshape2 Harrays2)
      by (rewrite Heq; exact HB).
    now rewrite Hfresh.
Qed.

End TVMProperties.

Lemma tvm_example_returns (module : @tvm_module Z Z) :
  In (Some module) [Some (tvm_model tvm_example); _remainder_model tvm_example] ->
  module_returns module 0.
Proof.
  intros [[= <-]|[[= <-]|[]]] tensors; eexists; reflexivity.
Qed.

Lemma tvm_remainder_on_last_witness :
  exists front last,
    batch_plan 2 3 [[[1]; [2]; [3]]] = map (pair false) front ++ [(true, last)]
    /\ _run (plain_container (Some 2)) (_predict_common tvm_example 0)
         (Arrays [[[1]; [2]; [3]]]) false
       = Outcome (set_last_iteration true (plain_container (Some 2)))
           (batch_plan 2 3 [[[1]; [2]; [3]]])
           (Ok (np_array
                  (flat_map (scores (run_module tvm_example (tvm_model tvm_example) 0)
                               false) front
                   ++ scores (run_module tvm_example
                                (fun tensors _ =>
                                   Ok (np_array
                                         (map Z.opp
                                            (concat (default [] (tensors !! "input"))))))
                                0) true last))).
Proof.
  apply (tvm_remainder_on_last (plain_container (Some 2)) tvm_example 0 _
           (Arrays [[[1]; [2]; [3]]]) [[1]; [2]; [3]] [] false 2
           eq_refl eq_refl ltac:(lia) ltac:(cbn; lia) eq_refl ltac:(cbn; lia)).
  - apply tvm_example_returns. now left.
  - apply tvm_example_returns. right. now left.
Defined.

Lemma tvm_remainder_after_batched_run_witness :
  let after :=
    self_after (_run (plain_container (Some 2)) (_predict_common tvm_example 0)
                  (Arrays [[[1]; [2]; [3]]]) false) in
  returned (_run after (_predict_common tvm_example 0) (Arrays [[[1]; [2]]]) false)
  = Ok (np_array [-1; -2])
  /\ returned (_run (plain_container (Some 2)) (_predict_common tvm_example 0)
                 (Arrays [[[1]; [2]]]) false)
     = Ok (np_array [1; 2]).
Proof.
  intros after.
  destruct (tvm_remainder_after_batched_run (plain_container (Some 2)) tvm_example 0
              _ (Arrays [[[1]; [2]; [3]]]) [[1]; [2]; [3]] []
              (Arrays [[[1]; [2]]]) [[1]; [2]] [] false false 2
              eq_refl eq_refl eq_refl ltac:(lia) ltac:(cbn; lia) eq_refl eq_refl
              ltac:(cbn; lia)
              (tvm_example_returns _ (or_introl eq_refl))
              (tvm_example_returns _ (or_intror (or_introl eq_refl))))
    as [Hstale Hfresh].
  split.
  - fold after in Hstale. rewrite Hstale. reflexivity.
  - rewrite (Hfresh eq_refl). reflexivity.
Defined.

(** * Properties of the k-neighbors converters *)

Module KNeighborsCoverage.
Import KNeighbors.

Section Converters.

Context {Data Labels : Type}.
Variable BATCH_SIZE : string.
Implicit Types (operator : raw_operator Data Labels) (extra_config : gmap string Z).

Lemma str_in_iff (s : string) (l : list string) :
  str_in s l = true <-> In s l.
Proof.
  unfold str_in. rewrite existsb_exists. split.
  - intros (t & Ht & Heq). apply String.eqb_eq in Heq. now subst.
  - intros Hin. exists s. split; [exact Hin|apply String.eqb_refl].
Qed.

Lemma str_in_false (s : string) (l : list string) :
  ~ In s l -> str_in s l = false.
Proof.
  intros Hin. apply not_true_is_false. now rewrite str_in_iff.
Qed.

(** When the conversion succeeds: exactly when the batch size is in the
    configuration, the metric is 'minkowski' or 'euclidean', the weights are
    'uniform' or 'distance' and, for a classifier, every class label is an
    integer. *)
Theorem kneighbors_converts_iff operator extra_config (is_classifier : bool) :
  is_ok (_convert_kneighbors_model BATCH_SIZE operator extra_config is_classifier)
  = true
  <-> (exists batch_size, extra_config !! BATCH_SIZE = Some batch_size)
      /\ (is_classifier = true -> forallb is_int_label (classes_ operator) = true)
      /\ In (metric operator) ["minkowski"; "euclidean"]
      /\ In (weights operator) ["uniform"; "distance"].
Proof.
  unfold _convert_kneighbors_model. rewrite <- !str_in_iff.
  destruct (extra_config !! BATCH_SIZE) as [batch_size|].
  2:{ cbn [is_ok]. split; [discriminate|]. now intros [[b [=]] _]. }
  destruct is_classifier.
  - destruct (forallb is_int_label (classes_ operator)); cbn [bind is_ok].
    + destruct (str_in (metric operator) _); cbn [negb is_ok];
        [|split; [discriminate|now intros (_ & _ & [=] & _)]].
      destruct (str_in (weights operator) _); cbn [negb is_ok];
        [|split; [discriminate|now intros (_ & _ & _ & [=])]].
      split; [|reflexivity]. intros _. eauto.
    + split; [discriminate|]. intros (_ & Hlabels & _). now specialize (Hlabels eq_refl).
  - cbn [bind].
    destruct (str_in (metric operator) _); cbn [negb is_ok];
      [|split; [discriminate|now intros (_ & _ & [=] & _)]].
    destruct (str_in (weights operator) _); cbn [negb is_ok];
      [|split; [discriminate|now intros (_ & _ & _ & [=])]].
    split; [|reflexivity]. intros _. repeat split; eauto. discriminate.
Qed.

(** The model that the conversion builds: the training data, the labels,
    the number of neighbours and the weights of the fitted model, the
    configured batch size, the classes for a classifier and none for a
    regressor; the exponent [p] is the one of the metric parameters for the
    metric 'minkowski' when they give one, and 2 otherwise, so that
    'euclidean' ignores a given [p]. *)
Theorem kneighbors_converted_model operator extra_config (is_classifier : bool)
    (model : KNeighborsModel Data Labels) :
  _convert_kneighbors_model BATCH_SIZE operator extra_config is_classifier = Ok model ->
  train_data _ _ model = _fit_X operator
  /\ train_labels _ _ model = _y operator
  /\ model_n_neighbors _ _ model = n_neighbors operator
  /\ model_weights _ _ model = weights operator
  /\ extra_config !! BATCH_SIZE = Some (model_batch_size _ _ model)
  /\ model_is_classifier _ _ model = is_classifier
  /\ model_classes _ _ model
     = (if is_classifier then Some (classes_ operator) else None)
  /\ (metric operator = "euclidean" -> p _ _ model = 2)
  /\ (metric_params operator = None -> p _ _ model = 2)
  /\ (forall params,
        metric_params operator = Some params ->
        metric operator = "minkowski" ->
        p _ _ model = default 2 (params !! "p")).
Proof.
  unfold _convert_kneighbors_model.
  destruct (extra_config !! BATCH_SIZE) as [batch_size|]; [|discriminate].
  assert (Hclasses : forall classes,
    (if is_classifier
     then if forallb is_int_label (classes_ operator)
          then Ok (Some (classes_ operator))
          else Raise (RuntimeError
                        "Hummingbird supports only integer labels for class labels.")
     else Ok None) = Ok classes ->
    classes = if is_classifier then Some (classes_ operator) else None).
  { intros classes. destruct is_classifier;
      [destruct (forallb _ _)|]; congruence. }
  destruct (if is_classifier then _ else _) as [classes|e]; [|discriminate].
  specialize (Hclasses classes eq_refl). cbn [bind].
  destruct (str_in (metric operator) _); cbn [negb]; [|discriminate].
  destruct (str_in (weights operator) _); cbn [negb]; [|discriminate].
  intros [= <-]. cbn. repeat apply conj; try reflexivity; try assumption.
  - now intros ->.
  - intros ->. now destruct (String.eqb _ _).
  - intros params -> ->. cbn. now destruct (params !! "p").
Qed.

(** The refusals of the regressor converter: without a batch size a
    [RuntimeError] whose message names KNeighborsClassifier; with one, an
    unsupported metric and then unsupported weights raise a
    [NotImplementedError] whose message is the one word Regressor; the
    class labels are not read, so a regressor with supported metric and
    weights is converted whatever they are. *)
Theorem kneighbors_regressor_refusals operator extra_config :
  let converted :=
    convert_sklearn_kneighbors_regression_model BATCH_SIZE operator extra_config in
  (extra_config !! BATCH_SIZE = None ->
   converted
   = Raise (RuntimeError
              ("Hummingbird requires explicit specification of " ++ BATCH_SIZE
               ++ " parameter when compiling KNeighborsClassifier")))
  /\ (forall batch_size,
        extra_config !! BATCH_SIZE = Some batch_size ->
        (~ In (metric operator) ["minkowski"; "euclidean"] ->
         converted = Raise (NotImplementedError "Regressor"))
        /\ (In (metric operator) ["minkowski"; "euclidean"] ->
            ~ In (weights operator) ["uniform"; "distance"] ->
            converted = Raise (NotImplementedError "Regressor"))
        /\ (In (metric operator) ["minkowski"; "euclidean"] ->
            In (weights operator) ["uniform"; "distance"] ->
            exists model,
              converted = Ok model /\ model_classes _ _ model = None)).
Proof.
  intros converted. subst converted.
  unfold convert_sklearn_kneighbors_regression_model, _convert_kneighbors_model.
  split.
  - now intros ->.
  - intros batch_size ->. cbn [bind]. repeat split.
    + intros Hmetric. now rewrite (str_in_false _ _ Hmetric).
    + intros Hmetric Hweights. apply str_in_iff in Hmetric.
      now rewrite Hmetric, (str_in_false _ _ Hweights).
    + intros Hmetric Hweights. apply str_in_iff in Hmetric, Hweights.
      rewrite Hmetric, Hweights. cbn [negb]. eauto.
Qed.

(** The refusals of the classifier converter come in a fixed order: a
    missing batch size is reported first, then a class label that is not
    an integer, whatever the metric and the weights are, and only then the
    metric and the weights. *)
Theorem kneighbors_classifier_refusals operator extra_config :
  let converted :=
    convert_sklearn_kneighbors_classification_model BATCH_SIZE operator extra_config in
  (extra_config !! BATCH_SIZE = None ->
   converted
   = Raise (RuntimeError
              ("Hummingbird requires explicit specification of " ++ BATCH_SIZE
               ++ " parameter when compiling KNeighborsClassifier")))
  /\ (forall batch_size,
        extra_config !! BATCH_SIZE = Some batch_size ->
        (forall label, In label (classes_ operator) -> is_int_label label = false ->
           converted
           = Raise (RuntimeError
                      "Hummingbird supports only integer labels for class labels."))
        /\ (forallb is_int_label (classes_ operator) = true ->
            ~ In (metric operator) ["minkowski"; "euclidean"] ->
            converted
            = Raise (NotImplementedError
                       "Hummingbird currently supports only the metric type 'minkowski' and 'euclidean' for KNeighborsClassifier"))).
Proof.
  intros converted. subst converted.
  unfold convert_sklearn_kneighbors_classification_model, _convert_kneighbors_model.
  split.
  - now intros ->.
  - intros batch_size ->. split.
    + intros label Hin Hlabel.
      replace (forallb is_int_label (classes_ operator)) with false; [reflexivity|].
      symmetry. apply not_true_is_false. intros Hall.
      rewrite forallb_forall in Hall. specialize (Hall label Hin). congruence.
    + intros -> Hmetric. cbn [bind]. now rewrite (str_in_false _ _ Hmetric).
Qed.

End Converters.

End KNeighborsCoverage.

Lemma kneighbors_converted_model_witness :
  exists model,
    KNeighbors._convert_kneighbors_model "batch_size"
      (knn_text_example "minkowski" "distance") knn_config false = Ok model
    /\ KNeighbors.p _ _ model = 3
    /\ KNeighbors.model_classes _ _ model = None
    /\ KNeighbors.model_batch_size _ _ model = 10.
Proof.
  eexists. split; [reflexivity|].
  pose proof (KNeighborsCoverage.kneighbors_converted_model "batch_size"
                (knn_text_example "minkowski" "distance") knn_config false _ eq_refl)
    as (_ & _ & _ & _ & Hbatch & _ & Hclasses & _ & _ & Hp).
  split; [|split].
  - exact (Hp knn_params eq_refl eq_refl).
  - exact Hclasses.
  - exact (f_equal (default 0) (eq_sym Hbatch)).
Defined.

Lemma kneighbors_converts_iff_witness :
  is_ok (KNeighbors._convert_kneighbors_model "batch_size"
           (knn_example "euclidean" "uniform") knn_config true) = true
  /\ is_ok (KNeighbors._convert_kneighbors_model "batch_size"
              (knn_text_example "euclidean" "uniform") knn_config true) = false.
Proof.
  split.
  - apply KNeighborsCoverage.kneighbors_converts_iff.
    split; [now exists 10|].
    split; [reflexivity|].
    split; [right|]; now left.
  - apply not_true_is_false. intros Hok.
    apply KNeighborsCoverage.kneighbors_converts_iff in Hok.
    destruct Hok as (_ & Hlabels & _). now specialize (Hlabels eq_refl).
Defined.

Lemma kneighbors_regressor_refusals_witness :
  convert_sklearn_kneighbors_regression_model "batch_size"
    (knn_text_example "manhattan" "uniform") knn_config
  = Raise (NotImplementedError "Regressor")
  /\ convert_sklearn_kneighbors_regression_model "batch_size"
       (knn_text_example "manhattan" "uniform") ∅
     = Raise (RuntimeError
                "Hummingbird requires explicit specification of batch_size parameter when compiling KNeighborsClassifier").
Proof.
  split.
  - pose proof (KNeighborsCoverage.kneighbors_regressor_refusals "batch_size"
                  (knn_text_example "manhattan" "uniform") knn_config) as [_ Hset].
    destruct (Hset 10 eq_refl) as [Hmetric _].
    apply Hmetric. intros [[=]|[[=]|[]]].
  - pose proof (KNeighborsCoverage.kneighbors_regressor_refusals "batch_size"
                  (knn_text_example "manhattan" "uniform") ∅) as [Hmissing _].
    exact (Hmissing eq_refl).
Defined.

Lemma kneighbors_classifier_refusals_witness :
  convert_sklearn_kneighbors_classification_model "batch_size"
    (knn_text_example "manhattan" "cosine") knn_config
  = Raise (RuntimeError "Hummingbird supports only integer labels for class labels.").
Proof.
  pose proof (KNeighborsCoverage.kneighbors_classifier_refusals "batch_size"
                (knn_text_example "manhattan" "cosine") knn_config) as [_ Hset].
  destruct (Hset 10 eq_refl) as [Hlabel _].
  apply (Hlabel (KNeighbors.OtherLabel "cat")); [now left|reflexivity].
Defined.

(** * Properties of the label encoders *)

Module LabelEncoderCoverage.
Import LabelEncoders.

Lemma py_max_attained (l : list nat) (m : nat) :
  py_max l = Ok m -> In m l.
Proof.
  destruct l as [|n rest]; [discriminate|]. cbn [py_max]. intros [= <-].
  revert n. induction rest as [|a rest IH]; intros n; [now left|].
  cbn [fold_left]. specialize (IH (Nat.max n a)).
  destruct (Nat.max_spec n a) as [[_ Heq]|[_ Heq]]; rewrite Heq in *;
    destruct IH as [Hmax|Hin].
  - right. left. exact Hmax.
  - right. right. exact Hin.
  - left. exact Hmax.
  - right. right. exact Hin.
Qed.

Lemma pad_to_word_least (n : nat) : (pad_to_word 3 n < n + 4)%nat.
Proof.
  cbn [pad_to_word].
  repeat match goal with |- context [if ?b then _ else _] => destruct b end; lia.
Qed.

Lemma length_insert_label (s : string) (sorted : list string) :
  (length (insert_label s sorted) <= S (length sorted))%nat.
Proof.
  induction sorted as [|t rest IH]; cbn [insert_label length]; [lia|].
  destruct (String.compare s t); cbn [length]; lia.
Qed.

Lemma length_sorted_set (classes : list string) :
  (length (sorted_set classes) <= length classes)%nat.
Proof.
  induction classes as [|c classes IH]; [reflexivity|].
  cbn [sorted_set fold_right length]. fold (sorted_set classes).
  pose proof (length_insert_label c (sorted_set classes)). lia.
Qed.

Lemma view_int32_range (words : nat) :
  forall bytes : list Z,
    length bytes = (4 * words)%nat -> List.Forall is_byte bytes ->
    List.Forall (fun v => in_int32 v = true) (view_int32 bytes).
Proof.
  induction words as [|words IH]; intros bytes Hlen Hbytes.
  - destruct bytes; [constructor|cbn in Hlen; lia].
  - destruct bytes as [|b0 [|b1 [|b2 [|b3 bytes]]]]; cbn in Hlen; try lia.
    repeat match goal with
           | H : List.Forall _ (_ :: _) |- _ => apply Forall_cons in H; destruct H
           end.
    cbn [view_int32]. constructor; [|apply IH; (assumption || lia)].
    unfold is_byte in *. unfold in_int32, int32_of_bytes.
    destruct (Z.ltb_spec (b0 + 256 * b1 + 65536 * b2 + 16777216 * b3) 2147483648);
      apply andb_true_intro; split; apply Z.leb_le; lia.
Qed.

Lemma nonzero_columns_range (condition_tensors : list (list Z)) (q : list Z) :
  forall j,
    List.Forall (fun i => (j <= i < j + length condition_tensors)%nat)
      (nonzero_columns j condition_tensors q).
Proof.
  induction condition_tensors as [|c rest IH]; intros j; [constructor|].
  cbn [nonzero_columns length].
  assert (Hrest : List.Forall (fun i => (j <= i < j + S (length rest))%nat)
                    (nonzero_columns (S j) rest q)).
  { eapply List.Forall_impl; [|apply (IH (S j))]. cbn beta. lia. }
  destruct (prod_eq c q =? 0); [exact Hrest|].
  constructor; [lia|exact Hrest].
Qed.

Lemma length_chunks (words : nat) :
  (0 < words)%nat ->
  forall (k fuel : nat) (x : list Z),
    length x = (words * k)%nat -> (length x <= fuel)%nat ->
    length (chunks fuel words x) = k.
Proof.
  intros Hwords. induction k as [|k IH]; intros fuel x Hlen Hfuel.
  - replace (words * 0)%nat with 0%nat in Hlen by lia.
    apply length_zero_iff_nil in Hlen. subst. now destruct fuel.
  - destruct fuel as [|fuel]; [nia|].
    destruct x as [|v x]; [cbn in Hlen; nia|].
    cbn [chunks length]. f_equal. apply IH.
    + rewrite length_skipn, Hlen. nia.
    + rewrite length_skipn. cbn [length] in *. lia.
Qed.


(** The shape of a string encoder: [num_columns] counts the classes as
    given, duplicates included, whereas the vocabulary tensor has one row
    per distinct class; every row holds [max_word_length] integers of 32
    bits, and [max_word_length] words are the least number of 4-byte words
    that hold the longest class. *)
Theorem string_encoder_shape (classes : list string) (enc : StringLabelEncoder) :
  StringLabelEncoder_init classes = Ok enc ->
  num_columns enc = length classes
  /\ length (condition_tensors enc) = length (sorted_set classes)
  /\ (length (condition_tensors enc) <= num_columns enc)%nat
  /\ List.Forall
       (fun row => length row = max_word_length enc
                   /\ List.Forall (fun v => in_int32 v = true) row)
       (condition_tensors enc)
  /\ (forall c, In c classes -> (String.length c <= 4 * max_word_length enc)%nat)
  /\ (exists c, In c classes
                /\ (4 * max_word_length enc < String.length c + 4)%nat).
Proof.
  intros Hinit.
  destruct (StringEncoderProperties.StringLabelEncoder_init_spec classes enc Hinit)
    as (Hwords & Hrows & Hfit).
  unfold StringLabelEncoder_init in Hinit.
  destruct (py_max (map String.length classes)) as [longest|e] eqn:Hmax;
    [|discriminate].
  cbn [bind] in Hinit.
  destruct (Nat.eqb_spec (pad_to_word 3 longest) 0); [discriminate|].
  pose proof (StringEncoderProperties.pad_to_word_spec longest) as [_ Hmod].
  pose proof (pad_to_word_least longest) as Hleast.
  pose proof (py_max_attained _ _ Hmax) as Hin.
  apply in_map_iff in Hin. destruct Hin as (c & Hc & Hin).
  assert (Hdiv : (4 * (pad_to_word 3 longest / 4) = pad_to_word 3 longest)%nat).
  { pose proof (Nat.div_mod_eq (pad_to_word 3 longest) 4). lia. }
  remember (pad_to_word 3 longest / 4)%nat as words eqn:Hw.
  injection Hinit as <-. cbn [num_columns max_word_length condition_tensors] in *.
  repeat apply conj.
  - reflexivity.
  - apply length_map.
  - rewrite length_map. apply length_sorted_set.
  - apply List.Forall_forall. intros row Hrow.
    apply in_map_iff in Hrow. destruct Hrow as (s & <- & _). split.
    + apply StringEncoderProperties.length_encode_label.
    + apply (view_int32_range words).
      * apply StringEncoderProperties.length_fixed_width.
      * apply StringEncoderProperties.fixed_width_bytes.
  - intros d Hd. rewrite List.Forall_forall in Hfit. now apply Hfit.
  - exists c. split; [exact Hin|]. lia.
Qed.

(** What [forward] of a string encoder returns on any input: an input
    whose size is not a multiple of [max_word_length] is refused with a
    [RuntimeError]; a result holds one index per row of [max_word_length]
    integers, and every index is below the number of distinct classes. *)
Theorem string_forward_range (classes : list string) (enc : StringLabelEncoder)
    (x : list Z) :
  StringLabelEncoder_init classes = Ok enc ->
  ((length x mod max_word_length enc)%nat <> 0%nat ->
   exists msg, forward enc x = Raise (RuntimeError msg))
  /\ (forall idx,
        forward enc x = Ok idx ->
        length x = (max_word_length enc * length idx)%nat
        /\ List.Forall (fun i => (i < length (sorted_set classes))%nat) idx).
Proof.
  intros Hinit.
  destruct (StringEncoderProperties.StringLabelEncoder_init_spec classes enc Hinit)
    as (Hwords & Hrows & _).
  unfold forward, torch_view_rows.
  destruct (Nat.eqb_spec (max_word_length enc) 0); [lia|]. cbn [orb].
  destruct (Nat.eqb_spec (length x mod max_word_length enc) 0) as [Hmod|Hmod];
    cbn [negb bind].
  - split; [intros Hne; contradiction|]. intros idx Hidx.
    destruct (Nat.eqb_spec
                (length (flat_map (nonzero_columns 0 (condition_tensors enc))
                           (chunks (length x) (max_word_length enc) x)))
                (length (chunks (length x) (max_word_length enc) x)))
      as [Hlen|]; [|discriminate].
    injection Hidx as <-. split.
    + rewrite Hlen.
      pose proof (Nat.div_mod_eq (length x) (max_word_length enc)) as Hdiv.
      rewrite (length_chunks (max_word_length enc) Hwords
                 (length x / max_word_length enc) (length x) x); lia.
    + apply List.Forall_forall. intros i Hi. apply in_flat_map in Hi.
      destruct Hi as (q & _ & Hi).
      pose proof (nonzero_columns_range (condition_tensors enc) q 0) as Hrange.
      rewrite List.Forall_forall in Hrange. specialize (Hrange i Hi).
      rewrite Hrows, length_map in Hrange. lia.
  - split; [eauto|]. discriminate.
Qed.

(** What [forward] of a numeric encoder returns, for every vocabulary and
    every input: with no class it raises [IndexError]; otherwise it never
    raises, returns one index per input value, and every index is below
    the number of classes, also for a value that is not a class. *)
Theorem numeric_forward_range (self : NumericLabelEncoder) (x : list Z) :
  (check_tensor self = [] -> numeric_forward self x = Raise IndexError)
  /\ (check_tensor self <> [] ->
      exists idx,
        numeric_forward self x = Ok idx
        /\ length idx = length x
        /\ List.Forall (fun j => (j < length (check_tensor self))%nat) idx).
Proof.
  unfold numeric_forward, torch_argmax. split.
  - now intros ->.
  - intros Hclasses.
    destruct (Nat.eqb_spec (length (check_tensor self)) 0) as [Hzero|_].
    { apply length_zero_iff_nil in Hzero. contradiction. }
    eexists. split; [reflexivity|]. split; [now rewrite !length_map|].
    apply List.Forall_forall. intros j Hj.
    apply in_map_iff in Hj. destruct Hj as (row & <- & Hrow).
    apply in_map_iff in Hrow. destruct Hrow as (q & <- & _).
    assert (Hmask : eq_mask (check_tensor self) q <> []).
    { unfold eq_mask. destruct (check_tensor self); [contradiction|discriminate]. }
    destruct (NumericEncoderProperties.argmax_row_first_max _ Hmask) as (m & Hm & _).
    assert (Hlt : nth_error (eq_mask (check_tensor self) q)
                    (argmax_row (eq_mask (check_tensor self) q)) <> None)
      by congruence.
    apply List.nth_error_Some in Hlt. unfold eq_mask in Hlt at 2.
    now rewrite length_map in Hlt.
Qed.

End LabelEncoderCoverage.


Lemma string_encoder_shape_witness :
  LabelEncoders.StringLabelEncoder_init pets = Ok pets_encoder
  /\ LabelEncoders.num_columns pets_encoder = 4%nat
  /\ length (LabelEncoders.condition_tensors pets_encoder)
     = length (LabelEncoders.sorted_set pets)
  /\ (length (LabelEncoders.condition_tensors pets_encoder) <= 4)%nat.
Proof.
  destruct (LabelEncoderCoverage.string_encoder_shape pets pets_encoder eq_refl)
    as (Hcolumns & Hrows & Hle & _).
  split; [reflexivity|]. split; [exact Hcolumns|]. split; [exact Hrows|].
  exact Hle.
Defined.

Lemma string_forward_range_witness :
  (exists msg,
     LabelEncoders.forward pets_encoder [1; 2; 3] = Raise (RuntimeError msg))
  /\ (forall idx,
        LabelEncoders.forward pets_encoder
          (LabelEncoders.encode_query pets_encoder ["horse"; "cat"]) = Ok idx ->
        List.Forall (fun i => (i < 3)%nat) idx).
Proof.
  split.
  - apply (proj1 (LabelEncoderCoverage.string_forward_range pets pets_encoder
                    [1; 2; 3] eq_refl)).
    discriminate.
  - intros idx Hidx.
    exact (proj2 (proj2 (LabelEncoderCoverage.string_forward_range pets pets_encoder
                           _ eq_refl) idx Hidx)).
Defined.

Lemma numeric_forward_range_witness :
  LabelEncoders.numeric_forward (LabelEncoders.MkNumericLabelEncoder []) [5; 7]
  = Raise IndexError
  /\ (exists idx,
        LabelEncoders.numeric_forward (LabelEncoders.MkNumericLabelEncoder [4; 8; 4])
          [8; 9] = Ok idx
        /\ length idx = 2%nat
        /\ List.Forall (fun j => (j < 3)%nat) idx).
Proof.
  split.
  - exact (proj1 (LabelEncoderCoverage.numeric_forward_range
                    (LabelEncoders.MkNumericLabelEncoder []) [5; 7]) eq_refl).
  - apply (proj2 (LabelEncoderCoverage.numeric_forward_range
                    (LabelEncoders.MkNumericLabelEncoder [4; 8; 4]) [8; 9])).
    discriminate.
Defined.

(** * The inputs of the TVM containers *)

Section TVMInputs.

Context {Cell Out : Type}.
Implicit Types (c : @TVMSklearnContainer Cell Out) (inputs : list (@array2 Cell)).

(** Binding the inputs of a TVM container: more inputs than input names
    raise [IndexError] before any model runs, for the model and for the
    remainder model alike; inputs that are not more than the names are
    accepted, and with distinct names the name at a position is bound to
    the input at that position, the names past the last input being left
    unbound. *)
Theorem tvm_inputs_binding c (output_index : nat) (flag : bool) inputs :
  ((length (tvm_input_names c) < length inputs)%nat ->
   _predict_common c output_index flag inputs = Raise IndexError
   /\ TVM_predict c flag inputs = Raise IndexError
   /\ TVM_decision_function c flag inputs = Raise IndexError)
  /\ ((length inputs <= length (tvm_input_names c))%nat ->
      List.NoDup (tvm_input_names c) ->
      exists tensors,
        _to_tvm_tensor c inputs = Ok tensors
        /\ forall i name,
            nth_error (tvm_input_names c) i = Some name ->
            tensors !! name = nth_error inputs i).
Proof.
  split.
  - intros Hmore.
    assert (Hraise : forall index, _predict_common c index flag inputs = Raise IndexError).
    { intros index. unfold _predict_common, _to_tvm_tensor.
      destruct (Nat.ltb_spec (length (tvm_input_names c)) (length inputs)); [|lia].
      now destruct (if flag then _remainder_model c else None). }
    unfold TVM_predict, TVM_decision_function. now rewrite !Hraise.
  - intros Hfew Hdistinct. unfold _to_tvm_tensor.
    destruct (Nat.ltb_spec (length (tvm_input_names c)) (length inputs)); [lia|].
    eexists. split; [reflexivity|]. intros i name Hname. unfold assign_named.
    destruct (nth_error inputs i) as [x|] eqn:Hinput.
    + apply (fold_insert_last name x _ i).
      * now apply nth_error_combine.
      * intros j [name' x'] Hj Hkv. apply nth_error_combine_inv in Hkv.
        destruct Hkv as [Hname' _]. cbn [fst]. intros ->.
        assert (i = j); [|lia].
        apply (proj1 (List.NoDup_nth_error (tvm_input_names c)) Hdistinct).
        -- apply List.nth_error_Some. congruence.
        -- congruence.
    + rewrite fold_insert_other; [apply lookup_empty|].
      intros [name' x'] Hkv. apply In_nth_error in Hkv. destruct Hkv as [j Hj].
      apply nth_error_combine_inv in Hj. destruct Hj as [Hname' Hx'].
      cbn [fst]. intros ->.
      assert (i = j).
      { apply (proj1 (List.NoDup_nth_error (tvm_input_names c)) Hdistinct).
        - apply List.nth_error_Some. congruence.
        - congruence. }
      subst j. congruence.
Qed.

End TVMInputs.

Lemma tvm_inputs_binding_witness :
  _predict_common tvm_example 0 true [[[1]]; [[2]]] = Raise IndexError
  /\ exists tensors,
       _to_tvm_tensor tvm_example [[[1]; [2]]] = Ok tensors
       /\ tensors !! "input" = Some [[1]; [2]].
Proof.
  pose proof (tvm_inputs_binding tvm_example 0 true [[[1]]; [[2]]]) as [Hmore _].
  pose proof (tvm_inputs_binding tvm_example 0 true [[[1]; [2]]]) as [_ Hfew].
  split.
  - apply Hmore. cbn. lia.
  - destruct (Hfew ltac:(cbn; lia) ltac:(repeat constructor; cbn; tauto))
      as (tensors & Htensors & Hbound).
    exists tensors. split; [exact Htensors|].
    exact (Hbound 0%nat "input"%string eq_refl).
Defined.
